(** * BankAnalyzer: the transaction-classification and risk-policy core

    A shallow embedding of the core logic of [BankAnalyzer_Desktop.FINAL.code.py]
    (functions [moneyfy], [get_counterparty], [detect_other_industries],
    [find_col], [build_policy_actions], the data part of
    [BankAnalyzerApp.run_analysis], and of the window the file handlers
    [choose_file], [add_file], [_update_file_list], [reset_all], the flag of
    [show_high_risk_popup] and the tag of [_render_alert_block]), followed
    by the properties proved of it.

    Conventions of the embedding.
    - Python [str] values are modelled as [string]; the model covers ASCII
      text (code points below 128), where byte order and code-point order
      coincide and [upper]/[lower] only touch the 26 letters.
    - A Python [float] is a [pyfloat]: the rational it stands for, an
      infinity or nan.  Comparisons, [abs] and [%] are exact on floats and
      are modelled as such.  The operations of [PyFloat] that round in the
      interpreter ([add], [mul], [div], [round1]) and [float()] on text are
      written without the rounding; the sums and the shares of the
      aggregation are also given with it, in [Binary64], and what is proved
      of them says which arithmetic it is about.
    - A cell of a pandas DataFrame is a [pyobj]: [None], the float nan
      that pandas uses for a missing value, a [str], or a number, which is
      represented by the text [str()] gives for it.
    - Code that can raise returns a [result]; [try/except] is a match on it. *)

From Stdlib Require Import String Ascii List Bool Arith ZArith QArith Qcanon Qround.
From Stdlib Require Import Lia Lqa Permutation Sorted OrderedTypeEx.
From Stdlib Require Import DecimalString.
From Stdlib Require Floats.
Import ListNotations.

Local Open Scope string_scope.
Local Open Scope list_scope.

(** ** Python strings *)

Module PyStr.

Definition code (c : ascii) : nat := nat_of_ascii c.

Definition between (lo hi : nat) (c : ascii) : bool :=
  (lo <=? code c)%nat && (code c <=? hi)%nat.

Definition is_upper (c : ascii) : bool := between 65 90 c.
Definition is_lower (c : ascii) : bool := between 97 122 c.
Definition is_digit (c : ascii) : bool := between 48 57 c.
Definition is_alpha (c : ascii) : bool := is_upper c || is_lower c.

(** [str.isspace] on ASCII: tab, newline, vertical tab, form feed,
    carriage return, the four separators 28..31 and the blank. *)
Definition is_space (c : ascii) : bool :=
  between 9 13 c || between 28 31 c || (code c =? 32)%nat.

Definition lower_char (c : ascii) : ascii :=
  if is_upper c then ascii_of_nat (code c + 32) else c.
Definition upper_char (c : ascii) : ascii :=
  if is_lower c then ascii_of_nat (code c - 32) else c.

Fixpoint map_chars (f : ascii -> ascii) (s : string) : string :=
  match s with
  | EmptyString => EmptyString
  | String c s' => String (f c) (map_chars f s')
  end.

(** [s.lower()] and [s.upper()] *)
Definition lower (s : string) : string := map_chars lower_char s.
Definition upper (s : string) : string := map_chars upper_char s.

Fixpoint rev_acc (s acc : string) : string :=
  match s with
  | EmptyString => acc
  | String c s' => rev_acc s' (String c acc)
  end.
Definition rev (s : string) : string := rev_acc s EmptyString.

(** white space for C's [isspace], which [float()] uses on ASCII text *)
Definition is_c_space (c : ascii) : bool :=
  between 9 13 c || (code c =? 32)%nat.

(** stripping the characters that satisfy [sp] from the left, from the
    right and from both ends *)
Fixpoint lstrip_by (sp : ascii -> bool) (s : string) : string :=
  match s with
  | String c s' => if sp c then lstrip_by sp s' else s
  | EmptyString => EmptyString
  end.
Definition rstrip_by (sp : ascii -> bool) (s : string) : string :=
  rev (lstrip_by sp (rev s)).
Definition strip_by (sp : ascii -> bool) (s : string) : string :=
  rstrip_by sp (lstrip_by sp s).

(** [s.strip()] *)
Definition strip (s : string) : string := strip_by is_space s.

(** [s.replace(c, "")] for a one-character [c] *)
Fixpoint remove_char (x : ascii) (s : string) : string :=
  match s with
  | EmptyString => EmptyString
  | String c s' =>
      if Ascii.eqb c x then remove_char x s' else String c (remove_char x s')
  end.

(** [s.startswith(p)] *)
Fixpoint startswith (p s : string) : bool :=
  match p, s with
  | EmptyString, _ => true
  | String a p', String b s' => Ascii.eqb a b && startswith p' s'
  | String _ _, EmptyString => false
  end.

(** [s.endswith(p)] *)
Definition endswith (p s : string) : bool := startswith (rev p) (rev s).

Fixpoint drop (n : nat) (s : string) : string :=
  match n, s with
  | O, _ => s
  | S n', String _ s' => drop n' s'
  | S _, EmptyString => EmptyString
  end.

Fixpoint take (n : nat) (s : string) : string :=
  match n, s with
  | O, _ => EmptyString
  | S n', String c s' => String c (take n' s')
  | S _, EmptyString => EmptyString
  end.

(** [s[1:-1]] *)
Definition slice_1_m1 (s : string) : string :=
  take (String.length s - 2) (drop 1 s).

(** [k in s] for strings: substring containment *)
Fixpoint contains (k s : string) : bool :=
  startswith k s ||
  match s with
  | EmptyString => false
  | String _ s' => contains k s'
  end.

(** [s.split()]: split on runs of white space, no empty tokens.
    [cur] is the token being read, reversed. *)
Fixpoint split_acc (s cur : string) : list string :=
  match s with
  | EmptyString =>
      match cur with EmptyString => [] | _ => [rev cur] end
  | String c s' =>
      if is_space c
      then match cur with
           | EmptyString => split_acc s' EmptyString
           | _ => rev cur :: split_acc s' EmptyString
           end
      else split_acc s' (String c cur)
  end.
Definition split (s : string) : list string := split_acc s EmptyString.

(** [sep.join(parts)] *)
Fixpoint join (sep : string) (parts : list string) : string :=
  match parts with
  | [] => EmptyString
  | [p] => p
  | p :: rest => p ++ sep ++ join sep rest
  end.

(** Python's truth value of a string or of a list *)
Definition truthy (s : string) : bool :=
  match s with EmptyString => false | _ => true end.

End PyStr.

(** ** Python objects, floats and exceptions *)

Inductive pyobj : Type :=
| PyNone
| PyNaN
| PyStr (s : string)
| PyNum (repr : string).

(** [isinstance(x, str)] *)
Definition is_str (x : pyobj) : bool :=
  match x with PyStr _ => true | _ => false end.

(** [pd.isna(x)] on a scalar *)
Definition pd_isna (x : pyobj) : bool :=
  match x with PyNone | PyNaN => true | _ => false end.

(** [str(x)] *)
Definition py_str (x : pyobj) : string :=
  match x with
  | PyNone => "None"
  | PyNaN => "nan"
  | PyStr s => s
  | PyNum r => r
  end.

Inductive pyfloat : Type :=
| Fin (q : Qc)
| Inf (negative : bool)
| NaN.

Inductive exn : Type := ValueError.

Inductive result (A : Type) : Type :=
| Returns (a : A)
| Raises (e : exn).
Arguments Returns {A} a.
Arguments Raises {A} e.

Module PyFloat.

Definition of_Q (q : Q) : pyfloat := Fin (Q2Qc q).
Definition of_Z (z : Z) : pyfloat := Fin (Q2Qc (inject_Z z)).
Definition zero : pyfloat := of_Z 0.

(** unary minus *)
Definition neg (x : pyfloat) : pyfloat :=
  match x with
  | Fin q => Fin (- q)%Qc
  | Inf b => Inf (negb b)
  | NaN => NaN
  end.

Definition add (x y : pyfloat) : pyfloat :=
  match x, y with
  | NaN, _ | _, NaN => NaN
  | Fin a, Fin b => Fin (a + b)%Qc
  | Inf s, Fin _ | Fin _, Inf s => Inf s
  | Inf s, Inf t => if Bool.eqb s t then Inf s else NaN
  end.

Definition sub (x y : pyfloat) : pyfloat := add x (neg y).

Definition Qc_sign_neg (q : Qc) : bool :=
  match Qccompare q 0%Qc with Lt => true | _ => false end.
Definition Qc_is_zero (q : Qc) : bool :=
  match Qccompare q 0%Qc with Eq => true | _ => false end.

Definition mul (x y : pyfloat) : pyfloat :=
  match x, y with
  | NaN, _ | _, NaN => NaN
  | Fin a, Fin b => Fin (a * b)%Qc
  | Inf s, Fin a | Fin a, Inf s =>
      if Qc_is_zero a then NaN else Inf (xorb s (Qc_sign_neg a))
  | Inf s, Inf t => Inf (xorb s t)
  end.

(** numpy's float division (a zero divisor gives an infinity or nan) *)
Definition div (x y : pyfloat) : pyfloat :=
  match x, y with
  | NaN, _ | _, NaN => NaN
  | Fin a, Fin b =>
      if Qc_is_zero b
      then (if Qc_is_zero a then NaN else Inf (Qc_sign_neg a))
      else Fin (a / b)%Qc
  | Fin _, Inf _ => zero
  | Inf s, Fin b => Inf (xorb s (Qc_sign_neg b))
  | Inf _, Inf _ => NaN
  end.

(** three-way comparison; [None] when an operand is nan *)
Definition cmp (x y : pyfloat) : option comparison :=
  match x, y with
  | NaN, _ | _, NaN => None
  | Fin a, Fin b => Some (Qccompare a b)
  | Inf s, Inf t => Some (if Bool.eqb s t then Eq else if s then Lt else Gt)
  | Inf s, Fin _ => Some (if s then Lt else Gt)
  | Fin _, Inf s => Some (if s then Gt else Lt)
  end.

(** [x == y], [x < y], [x <= y], [x > y], [x >= y] *)
Definition eqb (x y : pyfloat) : bool :=
  match cmp x y with Some Eq => true | _ => false end.
Definition ltb (x y : pyfloat) : bool :=
  match cmp x y with Some Lt => true | _ => false end.
Definition leb (x y : pyfloat) : bool :=
  match cmp x y with Some Lt | Some Eq => true | _ => false end.
Definition gtb (x y : pyfloat) : bool := ltb y x.
Definition geb (x y : pyfloat) : bool := leb y x.

(** [abs(x)] *)
Definition abs (x : pyfloat) : pyfloat :=
  match x with
  | Fin q => if Qc_sign_neg q then Fin (- q)%Qc else Fin q
  | Inf _ => Inf false
  | NaN => NaN
  end.

(** [x % m] for a positive integer constant [m]: the remainder has the
    sign of [m]; an infinite [x] gives nan. *)
Definition mod_pos (x : pyfloat) (m : Z) : pyfloat :=
  match x with
  | Fin q =>
      let k := Qfloor (q / Q2Qc (inject_Z m))%Qc in
      Fin (q - Q2Qc (inject_Z (m * k)))%Qc
  | _ => NaN
  end.

(** round half to even, to the nearest integer *)
Definition rint (q : Qc) : Z :=
  let f := Qfloor q in
  match Qccompare (q - Q2Qc (inject_Z f))%Qc (Q2Qc (1 # 2)) with
  | Lt => f
  | Gt => (f + 1)%Z
  | Eq => if Z.even f then f else (f + 1)%Z
  end.

(** [Series.round(1)] on one value: numpy's [rint(x * 10) / 10] *)
Definition round1 (x : pyfloat) : pyfloat :=
  match x with
  | Fin q => Fin (Q2Qc (inject_Z (rint (q * Q2Qc (inject_Z 10))%Qc) / inject_Z 10))
  | _ => x
  end.

Definition is_finite (x : pyfloat) : bool :=
  match x with Fin _ => true | _ => false end.

(** *** [float(s)] on text

    The grammar CPython accepts: surrounding white space, an optional
    sign, then [inf], [infinity] or [nan] in any case, or a decimal
    number: digits with an optional fraction (one side of the point may
    be empty) and an optional exponent.  A single underscore may stand
    between two digits. *)

Import PyStr.

Definition digit_val (c : ascii) : Z := Z.of_nat (code c - 48).

(** the underscore rule: every underscore has a digit on both sides *)
Fixpoint underscores_ok (prev : ascii) (s : string) : bool :=
  match s with
  | EmptyString => negb (Ascii.eqb prev "_")
  | String c s' =>
      (if Ascii.eqb c "_" then is_digit prev
       else negb (Ascii.eqb prev "_") || is_digit c)
      && underscores_ok c s'
  end.

(** read a run of digits: its value continued from [acc], how many
    digits were read, and the rest *)
Fixpoint digits (s : string) (acc : Z) (n : nat) : Z * nat * string :=
  match s with
  | String c s' =>
      if is_digit c then digits s' (acc * 10 + digit_val c)%Z (S n)
      else (acc, n, s)
  | EmptyString => (acc, n, s)
  end.

(** an optional sign: whether it is a minus, and the rest *)
Definition sign_of (s : string) : bool * string :=
  match s with
  | String c s' =>
      if Ascii.eqb c "-" then (true, s')
      else if Ascii.eqb c "+" then (false, s')
      else (false, s)
  | EmptyString => (false, s)
  end.

(** [m * 10^e] *)
Definition scale10 (m e : Z) : Qc :=
  if (0 <=? e)%Z then Q2Qc (inject_Z (m * 10 ^ e))
  else Q2Qc (Qmake m (Z.to_pos (10 ^ (- e)))).

(** an optional exponent that must reach the end of the text *)
Definition exponent (s : string) : option Z :=
  match s with
  | EmptyString => Some 0%Z
  | String c s' =>
      if Ascii.eqb c "e" || Ascii.eqb c "E" then
        let '(sg, s1) := sign_of s' in
        match digits s1 0%Z 0 with
        | (v, S _, EmptyString) => Some (if sg then (- v)%Z else v)
        | _ => None
        end
      else None
  end.

(** the decimal number after the sign *)
Definition decimal (s : string) : option Qc :=
  let '(ip, ni, s1) := digits s 0%Z 0 in
  let '(m, nf, s2) :=
    match s1 with
    | String c s1' =>
        if Ascii.eqb c "." then digits s1' ip 0 else (ip, 0%nat, s1)
    | EmptyString => (ip, 0%nat, s1)
    end in
  if (ni + nf =? 0)%nat then None
  else match exponent s2 with
       | Some e => Some (scale10 m (e - Z.of_nat nf))
       | None => None
       end.

Definition unsigned (s : string) : option pyfloat :=
  let w := lower s in
  if String.eqb w "inf" || String.eqb w "infinity" then Some (Inf false)
  else if String.eqb w "nan" then Some NaN
  else match decimal s with
       | Some q => Some (Fin q)
       | None => None
       end.

(** [float(s)] *)
Definition of_string (s : string) : result pyfloat :=
  let t := strip_by is_c_space s in
  if underscores_ok "000" t then
    let '(sg, u) := sign_of (remove_char "_" t) in
    match unsigned u with
    | Some v => Returns (if sg then neg v else v)
    | None => Raises ValueError
    end
  else Raises ValueError.

End PyFloat.

(** ** The monetary normalizer *)

(** [str(x).replace(",", "").strip()] *)
Definition cleaned (x : pyobj) : string :=
  PyStr.strip (PyStr.remove_char "," (py_str x)).

(** [s.startswith("(") and s.endswith(")")] *)
Definition parenthesized (s : string) : bool :=
  PyStr.startswith "(" s && PyStr.endswith ")" s.

(** the body of the [try] in [moneyfy] *)
Definition moneyfy_try (x : pyobj) : result pyfloat :=
  if pd_isna x then Returns PyFloat.zero
  else
    let s := cleaned x in
    if parenthesized s then
      match PyFloat.of_string (PyStr.slice_1_m1 s) with
      | Returns v => Returns (PyFloat.neg v)
      | Raises e => Raises e
      end
    else if PyStr.truthy s then PyFloat.of_string s
    else Returns PyFloat.zero.

(** [moneyfy]: the bare [except] turns every exception into [0.0] *)
Definition moneyfy (x : pyobj) : result pyfloat :=
  match moneyfy_try x with
  | Returns v => Returns v
  | Raises _ => Returns PyFloat.zero
  end.

(** the value [moneyfy] hands back to [Series.apply] *)
Definition moneyfy_value (x : pyobj) : pyfloat :=
  match moneyfy x with
  | Returns v => v
  | Raises _ => PyFloat.zero
  end.

(** ** The counterparty extractor *)

Module Regex.

Import PyStr.

(** the character class [[A-Za-z0-9 &\.-]] *)
Definition in_class (c : ascii) : bool :=
  is_alpha c || is_digit c
  || Ascii.eqb c " " || Ascii.eqb c "&" || Ascii.eqb c "." || Ascii.eqb c "-".

(** the alternatives of the non-capturing group, in the order written *)
Definition SUFFIXES : list string :=
  ["SDN BHD"; "BERHAD"; "PLT"; "ENTERPRISE"; "TRADING"; "HOLDINGS";
   "CAFE"; "CENTRE"; "SENDIRIAN"].

(** a literal matched at the head of [s] under [re.I] *)
Fixpoint literal_ci (p s : string) : bool :=
  match p, s with
  | EmptyString, _ => true
  | String a p', String b s' =>
      Ascii.eqb (lower_char a) (lower_char b) && literal_ci p' s'
  | String _ _, EmptyString => false
  end.

(** the alternation at the head of [s]: the first alternative that
    matches decides; the result is the number of characters consumed *)
Fixpoint alternation (alts : list string) (s : string) : option nat :=
  match alts with
  | [] => None
  | p :: alts' =>
      if literal_ci p s then Some (String.length p) else alternation alts' s
  end.

(** the longest run of class characters at the head of [s] *)
Fixpoint class_run (s : string) : nat :=
  match s with
  | String c s' => if in_class c then S (class_run s') else O
  | EmptyString => O
  end.

(** the greedy [+] giving back one character at a time: try the
    alternation after [k] class characters, then after [k - 1], down to
    one; the result is the text of group 1 *)
Fixpoint backtrack (k : nat) (s : string) : option string :=
  match k with
  | O => None
  | S k' =>
      match alternation SUFFIXES (drop k s) with
      | Some n => Some (take (k + n) s)
      | None => backtrack k' s
      end
  end.

(** a match that starts at the head of [s] *)
Definition match_here (s : string) : option string :=
  backtrack (class_run s) s.

(** [re.search]: the leftmost start that gives a match *)
Fixpoint search (s : string) : option string :=
  match match_here s with
  | Some g => Some g
  | None =>
      match s with
      | String _ s' => search s'
      | EmptyString => None
      end
  end.

(** [re.sub(r"\s+", " ", s)]: each run of white space becomes one
    blank; [in_run] tells that the run has already been replaced *)
Fixpoint collapse_from (in_run : bool) (s : string) : string :=
  match s with
  | EmptyString => EmptyString
  | String c s' =>
      if is_space c
      then (if in_run then collapse_from true s'
            else String " " (collapse_from true s'))
      else String c (collapse_from false s')
  end.
Definition collapse_spaces (s : string) : string := collapse_from false s.

(** [re.sub(r"[^A-Za-z0-9 ]", " ", s)] *)
Definition blank_non_alnum (s : string) : string :=
  map_chars
    (fun c => if is_alpha c || is_digit c || Ascii.eqb c " " then c else " "%char)
    s.

End Regex.

(** [get_counterparty] *)
Definition get_counterparty (desc : pyobj) : string :=
  match desc with
  | PyStr d =>
      match Regex.search d with
      | Some g => PyStr.upper (PyStr.strip (Regex.collapse_spaces g))
      | None =>
          let parts := PyStr.split (Regex.blank_non_alnum d) in
          match parts with
          | [] => "UNKNOWN"
          | _ => PyStr.upper (PyStr.join " " (firstn 4 parts))
          end
      end
  | _ => "UNKNOWN"
  end.

(** ** The industry classifier *)

Definition BASE_INDUSTRY : string := "food".

(** the dict [INDUSTRY_KEYWORDS], in the order it is written *)
Definition INDUSTRY_KEYWORDS : list (string * list string) :=
  [ ("food", ["food"; "cafe"; "restaurant"; "eatery"; "bakery"; "drink";
              "grocer"; "catering"]);
    ("construction", ["cement"; "steel"; "hardware"; "concrete";
                      "construction"; "builder"]);
    ("healthcare", ["clinic"; "hospital"; "medical"; "pharma"; "health"]);
    ("logistics", ["transport"; "delivery"; "freight"; "courier"]);
    ("education", ["school"; "college"; "academy"; "training"; "tuition"]) ].

(** the set comprehension over a given taxonomy: the industries with a
    keyword that occurs in [s] *)
Definition industries_in (taxonomy : list (string * list string)) (s : string)
  : list string :=
  map fst
    (filter (fun entry => existsb (fun k => PyStr.contains k s) (snd entry))
            taxonomy).

(** [detect_other_industries]; the returned set is the list of its
    members, in the order of the taxonomy *)
Definition detect_other_industries (desc : pyobj) : list string :=
  match desc with
  | PyStr d => industries_in INDUSTRY_KEYWORDS (PyStr.lower d)
  | _ => []
  end.

(** [x in inds] *)
Definition set_mem (x : string) (inds : list string) : bool :=
  existsb (String.eqb x) inds.

(** truth value of a set or list *)
Definition nonempty {A : Type} (l : list A) : bool :=
  match l with [] => false | _ => true end.

(** ** The column resolver *)

(** the loop of [find_col] over [zip(cols, cols_l)] *)
Fixpoint find_col_loop (cols : list string)
         (include_any include_all exclude_any : list string) : option string :=
  match cols with
  | [] => None
  | orig :: rest =>
      let c := PyStr.strip (PyStr.lower orig) in
      if nonempty exclude_any
         && existsb (fun x => PyStr.contains x c) exclude_any
      then find_col_loop rest include_any include_all exclude_any
      else if nonempty include_all
              && negb (forallb (fun x => PyStr.contains x c) include_all)
      then find_col_loop rest include_any include_all exclude_any
      else if nonempty include_any
              && negb (existsb (fun x => PyStr.contains x c) include_any)
      then find_col_loop rest include_any include_all exclude_any
      else Some orig
  end.

Definition find_col (cols : list string)
           (include_any include_all exclude_any : list string) : option string :=
  find_col_loop cols include_any include_all exclude_any.

(** Python's [a or b] on results of [find_col]: [None] and the empty
    string are false *)
Definition py_or (a b : option string) : option string :=
  match a with
  | Some EmptyString | None => b
  | Some _ => a
  end.

Definition resolve_desc (cols : list string) : option string :=
  py_or (find_col cols ["description"] [] [])
  (py_or (find_col cols ["desc"] [] [])
  (py_or (find_col cols ["transaction"; "details"] [] [])
  (py_or (find_col cols ["narration"] [] [])
         (find_col cols ["particular"] [] [])))).

Definition resolve_credit (cols : list string) : option string :=
  py_or (find_col cols ["credit"] [] [])
  (py_or (find_col cols ["deposit"] [] [])
  (py_or (find_col cols ["cr"] [] ["description"; "desc"])
  (py_or (find_col cols ["inflow"] [] [])
         (find_col cols ["in"] [] ["date"; "desc"; "description"; "transaction"])))).

Definition resolve_debit (cols : list string) : option string :=
  py_or (find_col cols ["debit"] [] [])
  (py_or (find_col cols ["withdraw"] [] [])
  (py_or (find_col cols ["dr"] [] ["description"; "desc"])
  (py_or (find_col cols ["outflow"] [] [])
         (find_col cols ["out"] [] ["date"; "desc"; "description"; "transaction"])))).

(** truth value of a resolved column name *)
Definition col_truthy (c : option string) : bool :=
  match c with
  | Some EmptyString | None => false
  | Some _ => true
  end.

(** ** The policy matrix and the policy mapper *)

Record policy_item : Type := mk_item {
  action_level : string;
  action : string
}.

Definition POLICY_MATRIX : list (string * policy_item) :=
  [ ("INCOME_CONCENTRATION",
     mk_item "Enhanced Review"
       ("Assess income concentration risk and apply a haircut/discount to this income source "
        ++ "when calculating sustainable income and affordability."));
    ("INDUSTRY_MISMATCH",
     mk_item "Clarification Required"
       ("Request clarification and supporting documents (e.g., invoices, contracts, delivery proof) "
        ++ "to verify whether inflows represent genuine operating revenue. Consider excluding non-core inflows."));
    ("ROUND_AMOUNT_PATTERN",
     mk_item "Cash Flow Normalization"
       ("Perform cash flow normalization by excluding unusually round or repetitive transactions. "
        ++ "Review for potential fund cycling or related-party transfers."));
    ("ESCALATE_HIGH",
     mk_item "Escalate"
       "Escalate to Credit Risk / Compliance for enhanced due diligence before proceeding with any lending decision.");
    ("MONITOR_MEDIUM",
     mk_item "Monitor"
       "Obtain additional explanation and monitor closely before fully recognizing this income as sustainable.");
    ("STANDARD_SAFE",
     mk_item "Standard"
       "No immediate action required. Continue standard monitoring.") ].

(** [d.get(k)] on a dict written as an association list *)
Fixpoint dict_get {V : Type} (d : list (string * V)) (k : string) : option V :=
  match d with
  | [] => None
  | (k', v) :: d' => if String.eqb k k' then Some v else dict_get d' k
  end.

(** [POLICY_MATRIX[k]] for the three keys the code indexes directly *)
Definition matrix_at (k : string) : policy_item :=
  match dict_get POLICY_MATRIX k with
  | Some it => it
  | None => mk_item EmptyString EmptyString
  end.

(** the dict [priority] *)
Definition priority : list (string * nat) :=
  [ ("Escalate", 5); ("Cash Flow Normalization", 4); ("Enhanced Review", 3);
    ("Clarification Required", 2); ("Monitor", 1); ("Standard", 0) ]%nat.

(** [priority.get(lvl, 0)] *)
Definition priority_get (lvl : string) : nat :=
  match dict_get priority lvl with
  | Some n => n
  | None => O
  end.

(** the first loop: the matrix entries of the rule identifiers, those
    missing from the matrix skipped *)
Fixpoint collect_items (rule_ids : list string) : list policy_item :=
  match rule_ids with
  | [] => []
  | rid :: rest =>
      match dict_get POLICY_MATRIX rid with
      | Some it => it :: collect_items rest
      | None => collect_items rest
      end
  end.

(** the entry added for the risk level *)
Definition risk_item (risk : string) : policy_item :=
  if String.eqb risk "High" then matrix_at "ESCALATE_HIGH"
  else if String.eqb risk "Medium" then matrix_at "MONITOR_MEDIUM"
  else matrix_at "STANDARD_SAFE".

Definition policy_items (risk : string) (rule_ids : list string)
  : list policy_item :=
  collect_items rule_ids ++ [risk_item risk].

(** the state of the second loop *)
Record fold_state : Type := mk_state {
  final_level : string;
  actions : list string;
  seen : list string
}.

Definition policy_step (st : fold_state) (it : policy_item) : fold_state :=
  let lvl := action_level it in
  let act := action it in
  let '(acts, sn) :=
    if set_mem act (seen st) then (actions st, seen st)
    else (actions st ++ [act], act :: seen st) in
  let fl :=
    if (priority_get (final_level st) <? priority_get lvl)%nat then lvl
    else final_level st in
  mk_state fl acts sn.

Definition policy_fold (items : list policy_item) : fold_state :=
  fold_left policy_step items (mk_state "Standard" [] []).

(** [build_policy_actions]: the action level and the joined action text *)
Definition build_policy_actions (risk : string) (rule_ids : list string)
  : string * string :=
  let st := policy_fold (policy_items risk rule_ids) in
  (final_level st, PyStr.join " " (actions st)).

(** ** The aggregation pipeline: [run_analysis] *)

(** a table as [pd.read_csv] returns it: the header and the rows.  The
    names of the header are distinct as they are read; stripped (line 411)
    two of them can become the same name *)
Record DataFrame : Type := mk_df {
  columns : list string;
  rows : list (list pyobj)
}.

Record Transaction : Type := mk_txn {
  desc : pyobj;
  credit : pyfloat;
  debit : pyfloat;
  company : string
}.

(** [df[col]] at one row; a short row is padded with missing values *)
Fixpoint cell_at (cols : list string) (row : list pyobj) (col : string) : pyobj :=
  match cols, row with
  | c :: cols', x :: row' =>
      if String.eqb c col then x else cell_at cols' row' col
  | _, _ => PyNaN
  end.

(** [df[col].apply(moneyfy) if col else 0.0], at one row *)
Definition amount_at (cols : list string) (row : list pyobj)
           (col : option string) : pyfloat :=
  match col with
  | Some name =>
      if PyStr.truthy name then moneyfy_value (cell_at cols row name)
      else PyFloat.zero
  | None => PyFloat.zero
  end.

(** the four assignments [df["desc"]], [df["credit"]], [df["debit"]],
    [df["company"]], at one row *)
Definition derive (cols : list string) (desc_col : string)
           (credit_col debit_col : option string) (row : list pyobj)
  : Transaction :=
  let d := cell_at cols row desc_col in
  mk_txn d (amount_at cols row credit_col) (amount_at cols row debit_col)
         (get_counterparty d).

(** [df[name]] is a column when the header holds [name] once; for a
    name the header holds more than once it is a table of that many
    columns *)
Definition repeated (cols : list string) (name : string) : bool :=
  (1 <? count_occ string_dec cols name)%nat.

Definition selects_table (cols : list string) (col : option string) : bool :=
  match col with
  | Some name => PyStr.truthy name && repeated cols name
  | None => false
  end.

(** lines 441 to 444 raise when a selection is a table: [df[desc_col]]
    cannot be assigned to the one column [desc], and [apply] on a table
    calls [moneyfy] or [get_counterparty] once for each of its columns, so
    that its result has one entry for each column, labelled alike, in
    place of one for each row *)
Definition derivation_raises (cols : list string) (desc_col : string)
           (credit_col debit_col : option string) : bool :=
  repeated cols desc_col || repeated cols "desc"
  || selects_table cols credit_col || selects_table cols debit_col.

(** what the body of the loop does with a file that was read: the
    [continue] of line 439, an exception that the [except] of line 447
    reports, or the [append] of line 445 *)
Inductive loaded : Type :=
| Skipped
| Failed
| Appended (txns : list Transaction).

Definition load_table (df : DataFrame) : loaded :=
  let cols := map PyStr.strip (columns df) in
  let desc_col := resolve_desc cols in
  let credit_col := resolve_credit cols in
  let debit_col := resolve_debit cols in
  match desc_col with
  | Some dc =>
      if PyStr.truthy dc
      then if derivation_raises cols dc credit_col debit_col then Failed
           else Appended (map (derive cols dc credit_col debit_col) (rows df))
      else Skipped
  | None => Skipped
  end.

(** the list [dfs] after the loop; a file is given by what [pd.read_csv]
    does on it: it returns a table or it raises, and then the file is
    reported and left out *)
Fixpoint load_tables (files : list (result DataFrame)) : list (list Transaction) :=
  match files with
  | [] => []
  | Raises _ :: rest => load_tables rest
  | Returns df :: rest =>
      match load_table df with
      | Appended t => t :: load_tables rest
      | _ => load_tables rest
      end
  end.

(** the header of a table of [dfs]: the stripped names, and after them
    those of the four derived columns that the table did not have *)
Definition DERIVED : list string := ["desc"; "credit"; "debit"; "company"].

Definition final_header (cols : list string) : list string :=
  cols ++ filter (fun name => negb (set_mem name cols)) DERIVED.

(** the headers of the tables of [dfs] *)
Fixpoint loaded_headers (files : list (result DataFrame)) : list (list string) :=
  match files with
  | [] => []
  | Raises _ :: rest => loaded_headers rest
  | Returns df :: rest =>
      match load_table df with
      | Appended _ =>
          final_header (map PyStr.strip (columns df)) :: loaded_headers rest
      | _ => loaded_headers rest
      end
  end.

(** the names of a header are distinct *)
Fixpoint distinct (l : list string) : bool :=
  match l with
  | [] => true
  | x :: l' => negb (set_mem x l') && distinct l'
  end.

Definition same_header (h h' : list string) : bool :=
  if list_eq_dec string_dec h h' then true else false.

Definition all_same (hs : list (list string)) : bool :=
  match hs with
  | [] => true
  | h :: rest => forallb (same_header h) rest
  end.

(** [pd.concat(dfs, ignore_index=True)] lines the tables up by column
    name.  Tables with one and the same header are stacked as they are;
    otherwise each is reindexed to the union of the names, which raises for
    a header that holds a name more than once *)
Definition concat_raises (hs : list (list string)) : bool :=
  negb (all_same hs) && negb (forallb distinct hs).

(** the merged table holds [name] more than once: [data[name]] is a
    table, of which [float(... .sum())] and [groupby] raise *)
Definition merged_repeats (hs : list (list string)) (name : string) : bool :=
  existsb (fun h => repeated h name) hs.

Definition is_nan (x : pyfloat) : bool :=
  match x with NaN => true | _ => false end.

(** [Series.sum()]: missing values are skipped *)
Definition series_sum (l : list pyfloat) : pyfloat :=
  fold_left PyFloat.add (filter (fun x => negb (is_nan x)) l) PyFloat.zero.

(** [data[data["credit"] > 0]] *)
Definition credit_rows (data : list Transaction) : list Transaction :=
  filter (fun t => PyFloat.gtb (credit t) PyFloat.zero) data.

(** the keys of a [groupby]: distinct, in sorted order *)
Fixpoint insert_key (k : string) (ks : list string) : list string :=
  match ks with
  | [] => [k]
  | k' :: ks' =>
      match String.compare k k' with
      | Lt => k :: ks
      | Eq => ks
      | Gt => k' :: insert_key k ks'
      end
  end.

Definition group_keys (rs : list Transaction) : list string :=
  fold_right insert_key [] (map company rs).

(** the rows of one group *)
Definition group_rows (rs : list Transaction) (k : string) : list Transaction :=
  filter (fun t => String.eqb (company t) k) rs.

(** [rs.groupby("company")["credit"].sum()] *)
Definition groupby_credit_sum (rs : list Transaction) : list (string * pyfloat) :=
  map (fun k => (k, series_sum (map credit (group_rows rs k)))) (group_keys rs).

(** [Series.nlargest(n)] with [keep="first"]: a stable sort by value,
    largest first, cut after [n] entries *)
Fixpoint insert_desc (x : string * pyfloat) (l : list (string * pyfloat))
  : list (string * pyfloat) :=
  match l with
  | [] => [x]
  | y :: l' =>
      if PyFloat.gtb (snd y) (snd x) then y :: insert_desc x l'
      else x :: l
  end.

Definition sort_desc (l : list (string * pyfloat)) : list (string * pyfloat) :=
  fold_right insert_desc [] l.

Definition nlargest (n : nat) (l : list (string * pyfloat))
  : list (string * pyfloat) :=
  firstn n (sort_desc l).

(** [top5["pct"]] at one row *)
Definition share_pct (group_credit total_in : pyfloat) : pyfloat :=
  PyFloat.round1
    (PyFloat.mul (PyFloat.div group_credit total_in) (PyFloat.of_Z 100)).

(** Rule B: the loop over the narratives, left at the first mismatch *)
Fixpoint mismatch_loop (narratives : list string) : bool :=
  match narratives with
  | [] => false
  | d :: rest =>
      let inds := detect_other_industries (PyStr d) in
      if nonempty inds && negb (set_mem BASE_INDUSTRY inds) then true
      else mismatch_loop rest
  end.

(** Rule C: the generator expression under [any] *)
Definition is_round (c : pyfloat) : bool :=
  PyFloat.eqb (PyFloat.mod_pos (PyFloat.abs c) 10000) PyFloat.zero
  || PyFloat.eqb (PyFloat.mod_pos (PyFloat.abs c) 5000) PyFloat.zero.

Definition round_pattern (credits : list pyfloat) : bool :=
  existsb is_round (filter (fun c => PyFloat.gtb c PyFloat.zero) credits).

Definition FLAG_CONCENTRATION : string :=
  "Income heavily depends on one company (>30%)".
Definition FLAG_MISMATCH : string :=
  "Source looks unrelated to your business industry".
Definition FLAG_ROUND : string :=
  "Many inflows are very round numbers (possible manual adjustments)".

(** the rule identifiers and flags of one counterparty *)
Definition detect_rules (pct : pyfloat) (txns : list Transaction)
  : list string * list string :=
  let a := PyFloat.geb pct (PyFloat.of_Z 30) in
  let b := mismatch_loop (map (fun t => py_str (desc t)) txns) in
  let c := round_pattern (map credit txns) in
  ((if a then ["INCOME_CONCENTRATION"] else [])
   ++ (if b then ["INDUSTRY_MISMATCH"] else [])
   ++ (if c then ["ROUND_AMOUNT_PATTERN"] else []),
   (if a then [FLAG_CONCENTRATION] else [])
   ++ (if b then [FLAG_MISMATCH] else [])
   ++ (if c then [FLAG_ROUND] else [])).

(** the risk label *)
Definition risk_of (flags : list string) : string :=
  match flags with
  | [] => "Safe"
  | [_] => "Medium"
  | _ => "High"
  end.

Definition reason_of (flags : list string) : string :=
  match flags with
  | [] => "No unusual patterns detected"
  | _ => PyStr.join "; " flags
  end.

(** what the loop over [top5] shows for one row *)
Record ranked_row : Type := mk_row {
  rank : nat;
  row_company : string;
  inflow_amt : pyfloat;
  pct : pyfloat;
  risk : string;
  reason : string;
  row_action_level : string;
  row_actions : string
}.

Definition assess (data : list Transaction) (total_in : pyfloat)
           (i : nat) (entry : string * pyfloat) : ranked_row :=
  let name := fst entry in
  let p := share_pct (snd entry) total_in in
  let txns :=
    filter (fun t => String.eqb (company t) name
                     && PyFloat.gtb (credit t) PyFloat.zero) data in
  let '(rule_ids, flags) := detect_rules p txns in
  let r := risk_of flags in
  let '(lvl, acts) := build_policy_actions r rule_ids in
  mk_row (i + 1) name (snd entry) p r (reason_of flags) lvl acts.

(** the loop [for i, row in top5.iterrows()] *)
Fixpoint assess_all (data : list Transaction) (total_in : pyfloat)
         (i : nat) (top : list (string * pyfloat)) : list ranked_row :=
  match top with
  | [] => []
  | entry :: rest =>
      assess data total_in i entry :: assess_all data total_in (S i) rest
  end.

Record totals : Type := mk_totals {
  total_in : pyfloat;
  total_out : pyfloat;
  net : pyfloat
}.

(** how [run_analysis] ends: with one of its three messages, with the
    ranking, or with an exception of pandas that nothing catches, being
    raised after the [try] of the loop *)
Inductive analysis : Type :=
| NoFileSelected
| NoValidData
| NoInflow (t : totals)
| Ranked (t : totals) (ranking : list ranked_row)
| Uncaught.

Definition grand_totals (data : list Transaction) : totals :=
  let tin := series_sum (map credit data) in
  let tout := series_sum (map debit data) in
  mk_totals tin tout (PyFloat.sub tin tout).

(** [top5] before the [pct] column is added *)
Definition top5 (data : list Transaction) : list (string * pyfloat) :=
  nlargest 5 (groupby_credit_sum (credit_rows data)).

(** the part of [run_analysis] after [pd.concat] *)
Definition analyse (data : list Transaction) : analysis :=
  let t := grand_totals data in
  if PyFloat.leb (total_in t) PyFloat.zero then NoInflow t
  else Ranked t (assess_all data (total_in t) 0 (top5 data)).

(** [run_analysis] on the selected files, given the part after
    [pd.concat]: the merge of line 454, the totals of lines 456 and 457
    and the [groupby] of line 470 raise when they meet a name that a header
    holds more than once *)
Definition run_analysis_by (after : list Transaction -> analysis)
           (files : list (result DataFrame)) : analysis :=
  match files with
  | [] => NoFileSelected
  | _ =>
      match load_tables files with
      | [] => NoValidData
      | dfs =>
          let hs := loaded_headers files in
          if concat_raises hs
             || merged_repeats hs "credit" || merged_repeats hs "debit"
          then Uncaught
          else match after (concat dfs) with
               | Ranked t ranking =>
                   if merged_repeats hs "company" then Uncaught
                   else Ranked t ranking
               | a => a
               end
      end
  end.

(** [run_analysis] on the selected files *)
Definition run_analysis (files : list (result DataFrame)) : analysis :=
  run_analysis_by analyse files.

(** ** Statements of the specification, for comparison with the code *)

(** "some positive credit is an exact multiple of 5000" *)
Definition multiple_of_5000 (c : pyfloat) : Prop :=
  exists k : Z, c = PyFloat.of_Z (5000 * k).

Definition some_positive_multiple_of_5000 (credits : list pyfloat) : Prop :=
  exists c, In c credits /\ PyFloat.gtb c PyFloat.zero = true /\ multiple_of_5000 c.

(** the text [moneyfy] hands to [float()] *)
Definition number_text (x : pyobj) : string :=
  if parenthesized (cleaned x) then PyStr.slice_1_m1 (cleaned x) else cleaned x.

(** the six action levels of the matrix *)
Definition LEVELS : list string := map fst priority.

(** a matrix entry is well formed: a known level and a text *)
Definition item_ok (it : policy_item) : Prop :=
  In (action_level it) LEVELS /\ action it <> EmptyString.

(** the keys of the policy matrix *)
Definition in_matrix (rid : string) : bool :=
  match dict_get POLICY_MATRIX rid with Some _ => true | None => false end.

(** "the Transaction derived from a row has credit >= 0 and debit >= 0" *)
Definition amounts_nonnegative (df : DataFrame) : Prop :=
  forall txns t, load_table df = Appended txns -> In t txns ->
    PyFloat.geb (credit t) PyFloat.zero = true
    /\ PyFloat.geb (debit t) PyFloat.zero = true.

(** the amount text of a cell is written as a negative: after the commas
    and the surrounding blanks are removed it opens with a parenthesis or
    a minus sign *)
Definition written_negative (x : pyobj) : bool :=
  negb (pd_isna x)
  && (PyStr.startswith "(" (cleaned x) || PyStr.startswith "-" (cleaned x)).

Definition column_written_negative (cols : list string) (row : list pyobj)
           (col : option string) : bool :=
  match col with
  | Some name => PyStr.truthy name && written_negative (cell_at cols row name)
  | None => false
  end.

(** a table with a parenthesized credit *)
Definition paren_table : DataFrame :=
  mk_df ["Date"; "Description"; "Credit"; "Debit"]
        [ [PyStr "2024-01-05"; PyStr "REFUND ACME TRADING"; PyStr "(500)"; PyNaN] ].

(** "the narrative classifies into at least one industry and the base
    industry is not among its matched industries" *)
Definition narrative_mismatches (d : string) : Prop :=
  detect_other_industries (PyStr d) <> []
  /\ ~ In BASE_INDUSTRY (detect_other_industries (PyStr d)).

(** the round-amount test with the divisor 5000 alone *)
Definition is_round_5000 (c : pyfloat) : bool :=
  PyFloat.eqb (PyFloat.mod_pos (PyFloat.abs c) 5000) PyFloat.zero.

(** the order of Python strings: [a < b] *)
Definition str_lt (a b : string) : Prop := String.ltb a b = true.

(** the summed credit of a company over its rows with a positive credit *)
Definition group_credit (data : list Transaction) (k : string) : pyfloat :=
  series_sum (map credit (group_rows (credit_rows data) k)).

(** position of the first element that satisfies [p] *)
Fixpoint index_of {A : Type} (p : A -> bool) (l : list A) : option nat :=
  match l with
  | [] => None
  | x :: l' =>
      if p x then Some O
      else match index_of p l' with
           | Some n => Some (S n)
           | None => None
           end
  end.

(** where a company is first seen among the rows, and its rank in a
    selection *)
Definition first_seen (data : list Transaction) (k : string) : option nat :=
  index_of (fun t => String.eqb (company t) k) (credit_rows data).
Definition rank_of (top : list (string * pyfloat)) (k : string) : option nat :=
  index_of (fun e => String.eqb (fst e) k) top.

(** "ties are broken in favour of the first-seen group": of two companies
    with equal summed credit, the one seen first is selected whenever the
    other is, and ranks above it *)
Definition first_seen_wins (data : list Transaction) : Prop :=
  PyFloat.gtb (total_in (grand_totals data)) PyFloat.zero = true ->
  forall a b i j rb,
    first_seen data a = Some i -> first_seen data b = Some j -> (i < j)%nat ->
    PyFloat.eqb (group_credit data a) (group_credit data b) = true ->
    rank_of (top5 data) b = Some rb ->
    exists ra, rank_of (top5 data) a = Some ra /\ (ra < rb)%nat.

(** what the code does: a larger summed credit ranks first, and of two
    equal ones the smaller company name *)
Definition ranks_before (e1 e2 : string * pyfloat) : Prop :=
  PyFloat.gtb (snd e1) (snd e2) = true
  \/ (snd e1 = snd e2 /\ str_lt (fst e1) (fst e2)).

(** six companies with the same inflow, entered in descending name order *)
Definition tie_table : DataFrame :=
  mk_df ["Date"; "Description"; "Credit"; "Debit"]
        [ [PyStr "2024-01-01"; PyStr "ZED TRADING"; PyNum "100"; PyNaN];
          [PyStr "2024-01-02"; PyStr "YAM TRADING"; PyNum "100"; PyNaN];
          [PyStr "2024-01-03"; PyStr "FIG TRADING"; PyNum "100"; PyNaN];
          [PyStr "2024-01-04"; PyStr "EEL TRADING"; PyNum "100"; PyNaN];
          [PyStr "2024-01-05"; PyStr "DOT TRADING"; PyNum "100"; PyNaN];
          [PyStr "2024-01-06"; PyStr "ABC TRADING"; PyNum "100"; PyNaN] ].

Definition tie_data : list Transaction := concat (load_tables [Returns tie_table]).

(** "each share_pct lies in [0,100] and the shares of the selected
    companies sum to at most 100" *)
Definition shares_within_100 (data : list Transaction) : Prop :=
  PyFloat.gtb (total_in (grand_totals data)) PyFloat.zero = true ->
  forall t ranking, analyse data = Ranked t ranking ->
    Forall (fun r => PyFloat.geb (pct r) PyFloat.zero = true
                     /\ PyFloat.leb (pct r) (PyFloat.of_Z 100) = true) ranking
    /\ PyFloat.leb (series_sum (map pct ranking)) (PyFloat.of_Z 100) = true.



(** three inflows whose shares are 33.36, 33.36 and 33.28 per cent *)
Definition thirds_table : DataFrame :=
  mk_df ["Date"; "Description"; "Credit"; "Debit"]
        [ [PyStr "2024-03-01"; PyStr "ALPHA TRADING"; PyNum "3336"; PyNaN];
          [PyStr "2024-03-02"; PyStr "BRAVO TRADING"; PyNum "3336"; PyNaN];
          [PyStr "2024-03-03"; PyStr "DELTA TRADING"; PyNum "3328"; PyNaN] ].

Definition thirds_data : list Transaction := concat (load_tables [Returns thirds_table]).

(** a text that is empty or opens with a character outside [sp] *)
Definition head_ok (sp : ascii -> bool) (s : string) : Prop :=
  match s with
  | String c _ => sp c = false
  | EmptyString => True
  end.

(** a float that is not below zero (nan included) *)
Definition not_negative (v : pyfloat) : Prop :=
  PyFloat.ltb v PyFloat.zero = false.

(** two statements of the same business, with different headers *)
Definition statement_a : DataFrame :=
  mk_df ["Date"; "Description"; "Credit"; "Debit"]
        [ [PyStr "2024-04-01"; PyStr "PAYMENT FROM ACME TRADING SDN BHD";
           PyStr "20,000.00"; PyNaN];
          [PyStr "2024-04-03"; PyStr "fresh bakery order"; PyStr "1,234.50"; PyNaN];
          [PyStr "2024-04-09"; PyStr "rent"; PyNaN; PyStr "3,000.00"] ].

Definition statement_b : DataFrame :=
  mk_df ["Date"; "Narration"; "Deposit"; "Withdrawal"]
        [ [PyStr "2024-05-02"; PyStr "steel delivery truck"; PyNum "28765.5"; PyNaN];
          [PyStr "2024-05-07"; PyStr "miscellaneous note"; PyNaN; PyNum "120.0"] ].

(** the Transaction of the first row of the second statement *)
Definition statement_b_deposit : Transaction :=
  derive (columns statement_b) "Narration" (Some "Deposit") (Some "Withdrawal")
         [PyStr "2024-05-02"; PyStr "steel delivery truck"; PyNum "28765.5"; PyNaN].

(** ** The file handlers, the popup and the alert renderer *)

Module UI.

(** [s.split(sep)] for a one-character [sep]; [cur] is the piece being
    read, reversed *)
Fixpoint split_on_acc (sep : ascii) (s cur : string) : list string :=
  match s with
  | EmptyString => [PyStr.rev cur]
  | String c s' =>
      if Ascii.eqb c sep then PyStr.rev cur :: split_on_acc sep s' EmptyString
      else split_on_acc sep s' (String c cur)
  end.
Definition split_on (sep : ascii) (s : string) : list string :=
  split_on_acc sep s EmptyString.

(** [l[-1]] on a list of strings *)
Definition py_last (l : list string) : string := List.last l EmptyString.

(** [path.split("/")[-1].split("\\")[-1]] *)
Definition file_name (path : string) : string :=
  py_last (split_on "\" (py_last (split_on "/" path))).

(** [str(i)] for a natural number *)
Definition py_str_nat (i : nat) : string :=
  NilZero.string_of_uint (Nat.to_uint i).

Definition newline : string := String "010" EmptyString.

(** the text [_update_file_list] writes into the list box, numbering
    from [i] *)
Fixpoint render_files (i : nat) (files : list string) : string :=
  match files with
  | [] => EmptyString
  | path :: rest =>
      (py_str_nat i ++ ". " ++ file_name path ++ newline)
      ++ render_files (S i) rest
  end.

(** the part of the window the file handlers work on *)
Record file_state : Type := mk_files {
  selected_files : list string;
  file_listbox : string
}.

(** the state [__init__] and [_build_ui] leave *)
Definition initial_files : file_state := mk_files [] EmptyString.

(** [_update_file_list] *)
Definition update_file_list (st : file_state) : file_state :=
  mk_files (selected_files st) (render_files 1 (selected_files st)).

(** [choose_file], given what the file dialog returned (the empty text
    when it was cancelled) *)
Definition choose_file (st : file_state) (f : string) : file_state :=
  if PyStr.truthy f then update_file_list (mk_files [f] (file_listbox st))
  else st.

(** [add_file] *)
Definition add_file (st : file_state) (f : string) : file_state :=
  if PyStr.truthy f && negb (set_mem f (selected_files st))
  then update_file_list (mk_files (selected_files st ++ [f]) (file_listbox st))
  else st.

(** [reset_all], on the selection and the list box *)
Definition reset_all (st : file_state) : file_state := mk_files [] EmptyString.

Inductive file_event : Type :=
| ChooseFile (f : string)
| AddFile (f : string)
| ResetAll.

Definition file_step (st : file_state) (e : file_event) : file_state :=
  match e with
  | ChooseFile f => choose_file st f
  | AddFile f => add_file st f
  | ResetAll => reset_all st
  end.

(** the flag [_popup_open] and the popup windows that exist *)
Record popup_state : Type := mk_popup {
  popup_open : bool;
  windows : nat
}.

(** [show_high_risk_popup] *)
Definition show_high_risk_popup (st : popup_state) : popup_state :=
  if popup_open st then st
  else mk_popup true (S (windows st)).

(** [close], the handler of a popup window's button and of its window
    manager event; it exists only while its window does *)
Definition close_popup (st : popup_state) : popup_state :=
  match windows st with
  | O => st
  | S n => mk_popup false n
  end.

Inductive popup_event : Type := ShowPopup | ClosePopup.

Definition popup_step (st : popup_state) (e : popup_event) : popup_state :=
  match e with
  | ShowPopup => show_high_risk_popup st
  | ClosePopup => close_popup st
  end.

(** the tag of [_render_alert_block] and of the table row *)
Definition tag_of (risk : string) : string :=
  if String.eqb risk "Safe" then "safe"
  else if String.eqb risk "Medium" then "medium"
  else "high".

End UI.

(** [high_risk_companies] after the loop over [top5] *)
Definition high_risk_companies (ranking : list ranked_row)
  : list (string * pyfloat * string) :=
  map (fun r => (row_company r, pct r, row_action_level r))
      (filter (fun r => String.eqb (risk r) "High") ranking).

(** whether [run_analysis] opens the high-risk popup *)
Definition popup_requested (a : analysis) : bool :=
  match a with
  | Ranked _ ranking => nonempty (high_risk_companies ranking)
  | _ => false
  end.

(** ** Notions used in the properties of the remaining code *)

(** every character of [s] satisfies [p]; some character does *)
Fixpoint str_forall (p : ascii -> bool) (s : string) : bool :=
  match s with
  | EmptyString => true
  | String c s' => p c && str_forall p s'
  end.
Fixpoint str_exists (p : ascii -> bool) (s : string) : bool :=
  match s with
  | EmptyString => false
  | String c s' => p c || str_exists p s'
  end.

(** the characters a company key can hold: capital letters, digits, the
    blank, the ampersand, the period and the hyphen *)
Definition key_char (c : ascii) : bool :=
  PyStr.is_upper c || PyStr.is_digit c
  || Ascii.eqb c " " || Ascii.eqb c "&" || Ascii.eqb c "." || Ascii.eqb c "-".



(** a column name satisfies the criteria of [find_col]: none of the
    excluded keywords, all of [include_all], and one of [include_any]
    unless that is empty *)
Definition qualifies (include_any include_all exclude_any : list string)
           (orig : string) : bool :=
  let c := PyStr.strip (PyStr.lower orig) in
  negb (existsb (fun x => PyStr.contains x c) exclude_any)
  && forallb (fun x => PyStr.contains x c) include_all
  && (negb (nonempty include_any)
      || existsb (fun x => PyStr.contains x c) include_any).

(** the keywords that make a column a description column *)
Definition DESC_KEYWORDS : list string :=
  ["desc"; "transaction"; "details"; "narration"; "particular"].

(** the distinct elements of a list, each at its first occurrence *)
Fixpoint first_seen_distinct (l : list string) : list string :=
  match l with
  | [] => []
  | x :: l' =>
      x :: filter (fun y => negb (String.eqb y x)) (first_seen_distinct l')
  end.

(** the highest priority among the levels of a list of entries *)
Definition max_priority (items : list policy_item) : nat :=
  fold_right Nat.max O (map (fun it => priority_get (action_level it)) items).

(** a selected file that adds no table to [dfs]: reading it raised, or
    its table has no description column, or deriving its columns raised *)
Definition left_out (f : result DataFrame) : bool :=
  match f with
  | Raises _ => true
  | Returns df =>
      match load_table df with
      | Appended _ => false
      | _ => true
      end
  end.

(** whether [credit_col] is true for a file that was read *)
Definition has_credit_column (f : result DataFrame) : bool :=
  match f with
  | Raises _ => false
  | Returns df => col_truthy (resolve_credit (map PyStr.strip (columns df)))
  end.

(** a statement that lists payments only *)
Definition payments_only : DataFrame :=
  mk_df ["Date"; "Details"; "Debit"]
        [ [PyStr "2024-06-01"; PyStr "rent"; PyStr "3,000.00"];
          [PyStr "2024-06-05"; PyStr "steel delivery truck"; PyStr "450.00"] ].

(** two tables with header names that are the same once stripped: in the
    first the name selects the credit column, in the second no selected
    column *)
Definition twin_credit_table : DataFrame :=
  mk_df ["Date"; "Description"; "Credit"; " Credit"]
        [ [PyStr "2024-06-01"; PyStr "ACME TRADING"; PyStr "100.00"; PyStr "5.00"] ].

Definition twin_date_table : DataFrame :=
  mk_df ["Date"; " Date"; "Details"; "Debit"]
        [ [PyStr "2024-06-01"; PyStr "2024-06-02"; PyStr "rent"; PyStr "3,000.00"] ].



(** a character that is neither a slash nor a backslash *)
Definition name_char (c : ascii) : bool :=
  negb (Ascii.eqb c "/") && negb (Ascii.eqb c "\").

(** ** The arithmetic of the totals and of the shares

    The sum of a column ([Series.sum]), the sum of a group
    ([groupby(...).sum()]), the net value and the share
    ([(credit / total_in * 100).round(1)]) are computed by pandas and numpy
    on binary64 floats, the sums in the order of the rows.  The part of
    [run_analysis] after [pd.concat] is therefore written once more over a
    record of these four operations.  With the operations [exact_arith] it is
    [run_analysis] itself.  With the operations [binary64] every result is
    rounded to the nearest binary64 number and the sums are taken from
    left to right, which is what the interpreter computes for a column of
    fewer than eight rows and for groups of one or two rows. *)

Record arith : Type := mk_arith {
  a_sum : list pyfloat -> pyfloat;
  a_gsum : list pyfloat -> pyfloat;
  a_sub : pyfloat -> pyfloat -> pyfloat;
  a_share : pyfloat -> pyfloat -> pyfloat
}.

Definition exact_arith : arith :=
  mk_arith series_sum series_sum PyFloat.sub share_pct.

Module Binary64.

(** [2^e] *)
Definition pow2 (e : Z) : Qc :=
  if (0 <=? e)%Z then Q2Qc (inject_Z (2 ^ e))
  else Q2Qc (1 # Z.to_pos (2 ^ (- e))).

(** the largest [e] with [2^e <= a], for a positive [a] *)
Definition log2_floor (a : Qc) : Z :=
  let e := (Z.log2 (Qnum (this a)) - Z.log2 (Zpos (Qden (this a))))%Z in
  match Qccompare a (pow2 e) with
  | Lt => (e - 1)%Z
  | _ => e
  end.

(** the binary64 number nearest to [q], a tie going to the even
    significand: 53 bits, the exponent of the last bit not below -1074;
    what would reach [2^1024] becomes an infinity *)
Definition round64 (q : Qc) : pyfloat :=
  match Qccompare q 0%Qc with
  | Eq => Fin 0%Qc
  | c =>
      let negative := match c with Lt => true | _ => false end in
      let a := if negative then (- q)%Qc else q in
      let e := Z.max (log2_floor a - 52) (-1074) in
      let v := (Q2Qc (inject_Z (PyFloat.rint (a / pow2 e)%Qc)) * pow2 e)%Qc in
      match Qccompare v (pow2 1024) with
      | Lt => Fin (if negative then (- v)%Qc else v)
      | _ => Inf negative
      end
  end.

(** the float a value is held as *)
Definition rnd (x : pyfloat) : pyfloat :=
  match x with
  | Fin q => round64 q
  | _ => x
  end.

(** the four operations: the exact result, rounded *)
Definition add (x y : pyfloat) : pyfloat := rnd (PyFloat.add (rnd x) (rnd y)).
Definition sub (x y : pyfloat) : pyfloat := rnd (PyFloat.sub (rnd x) (rnd y)).
Definition mul (x y : pyfloat) : pyfloat := rnd (PyFloat.mul (rnd x) (rnd y)).
Definition div (x y : pyfloat) : pyfloat := rnd (PyFloat.div (rnd x) (rnd y)).

(** [numpy.rint] *)
Definition rint (x : pyfloat) : pyfloat :=
  match rnd x with
  | Fin q => Fin (Q2Qc (inject_Z (PyFloat.rint q)))
  | y => y
  end.

(** [Series.round(1)]: [rint(x * 10) / 10] *)
Definition round1 (x : pyfloat) : pyfloat :=
  div (rint (mul x (PyFloat.of_Z 10))) (PyFloat.of_Z 10).

(** a sum in the order of the rows, missing values skipped *)
Definition sum (l : list pyfloat) : pyfloat :=
  fold_left add (filter (fun x => negb (is_nan x)) l) PyFloat.zero.

(** [(g / total * 100).round(1)] *)
Definition share (g total : pyfloat) : pyfloat :=
  round1 (mul (div g total) (PyFloat.of_Z 100)).

End Binary64.

Definition binary64 : arith :=
  mk_arith Binary64.sum Binary64.sum Binary64.sub Binary64.share.

(** the binary64 floats of Rocq's kernel, to compare [Binary64] with:
    the value a kernel float stands for, and the kernel float nearest to
    the decimal [n / d], for [n] and [d] below [2^53] *)
Module Kernel.

Definition value (f : PrimFloat.float) : pyfloat :=
  match FloatOps.Prim2SF f with
  | SpecFloat.S754_zero _ => Fin 0%Qc
  | SpecFloat.S754_infinity s => Inf s
  | SpecFloat.S754_nan => NaN
  | SpecFloat.S754_finite s m e =>
      let v := (Q2Qc (inject_Z (Zpos m)) * Binary64.pow2 e)%Qc in
      Fin (if s then (- v)%Qc else v)
  end.

Definition of_Z (n : Z) : PrimFloat.float :=
  PrimFloat.of_uint63 (Uint63.of_Z n).

Definition decimal (n d : Z) : PrimFloat.float :=
  PrimFloat.div (of_Z n) (of_Z d).

(** a sum from left to right, from 0.0 *)
Definition sum (l : list PrimFloat.float) : PrimFloat.float :=
  fold_left PrimFloat.add l (of_Z 0).

End Kernel.

Definition grand_totals_with (A : arith) (data : list Transaction) : totals :=
  let tin := a_sum A (map credit data) in
  let tout := a_sum A (map debit data) in
  mk_totals tin tout (a_sub A tin tout).

Definition groupby_with (A : arith) (rs : list Transaction)
  : list (string * pyfloat) :=
  map (fun k => (k, a_gsum A (map credit (group_rows rs k)))) (group_keys rs).

Definition top5_with (A : arith) (data : list Transaction)
  : list (string * pyfloat) :=
  nlargest 5 (groupby_with A (credit_rows data)).

Definition assess_with (A : arith) (data : list Transaction)
           (total_in : pyfloat) (i : nat) (entry : string * pyfloat)
  : ranked_row :=
  let name := fst entry in
  let p := a_share A (snd entry) total_in in
  let txns :=
    filter (fun t => String.eqb (company t) name
                     && PyFloat.gtb (credit t) PyFloat.zero) data in
  let '(rule_ids, flags) := detect_rules p txns in
  let r := risk_of flags in
  let '(lvl, acts) := build_policy_actions r rule_ids in
  mk_row (i + 1) name (snd entry) p r (reason_of flags) lvl acts.

Fixpoint assess_all_with (A : arith) (data : list Transaction)
         (total_in : pyfloat) (i : nat) (top : list (string * pyfloat))
  : list ranked_row :=
  match top with
  | [] => []
  | entry :: rest =>
      assess_with A data total_in i entry
      :: assess_all_with A data total_in (S i) rest
  end.

Definition analyse_with (A : arith) (data : list Transaction) : analysis :=
  let t := grand_totals_with A data in
  if PyFloat.leb (total_in t) PyFloat.zero then NoInflow t
  else Ranked t (assess_all_with A data (total_in t) 0 (top5_with A data)).

Definition run_analysis_with (A : arith) (files : list (result DataFrame))
  : analysis :=
  run_analysis_by (analyse_with A) files.

(** "the same tables presented in a different table order yield identical
    grand totals and an identical ordered list of ranked records" *)
Definition order_independent (A : arith) : Prop :=
  forall files files',
    Permutation files files' ->
    run_analysis_with A files = run_analysis_with A files'.

(** the companies of a result with their ratings *)
Definition ratings (a : analysis) : list (string * string) :=
  match a with
  | Ranked _ ranking => map (fun r => (row_company r, risk r)) ranking
  | _ => []
  end.

(** two statements of one business: the credit of the first is 29.95 per
    cent of the three credits *)
Definition alpha_table : DataFrame :=
  mk_df ["Date"; "Description"; "Credit"; "Debit"]
        [ [PyStr "2024-07-01"; PyStr "ALPHA TRADING"; PyStr "13447.55"; PyNaN] ].

Definition others_table : DataFrame :=
  mk_df ["Date"; "Description"; "Credit"; "Debit"]
        [ [PyStr "2024-07-02"; PyStr "BRAVO TRADING"; PyStr "28793.22"; PyNaN];
          [PyStr "2024-07-03"; PyStr "DELTA TRADING"; PyStr "2659.23"; PyNaN] ].

(** what is used of the arithmetic where the sign of a share matters: a
    sum of values that are not negative is not negative, and neither is
    the share of such a value in a total that is not zero or less *)
Record sign_laws (A : arith) : Prop := mk_sign_laws {
  gsum_not_negative :
    forall l, Forall not_negative l -> not_negative (a_gsum A l);
  share_not_negative :
    forall g total,
      not_negative g -> PyFloat.leb total PyFloat.zero = false ->
      not_negative (a_share A g total)
}.

(** a value that is not negative, case by case *)
Definition nn (x : pyfloat) : Prop :=
  match x with
  | Fin q => (0 <= q)%Qc
  | Inf s => s = false
  | NaN => True
  end.

(** the names of a header stay distinct when they are stripped *)
Definition distinct_headers (f : result DataFrame) : bool :=
  match f with
  | Returns df => distinct (map PyStr.strip (columns df))
  | Raises _ => true
  end.

(** * Properties *)

(** ** Counterparty extractor *)

(** C1 (as stated, refuted): on the first test narrative the extractor does
    not return "ACME TRADING SDN BHD"; the leftmost match of the pattern
    starts at the head of the narrative. *)
Lemma get_counterparty_keeps_leading_words :
  get_counterparty (PyStr "PAYMENT FROM ACME TRADING SDN BHD REF123")
  <> "ACME TRADING SDN BHD".
Proof. vm_compute. discriminate. Qed.

(** C1 (amended): the suffix-pattern path returns the whole run of pattern
    characters up to the entity suffix, "PAYMENT FROM ACME TRADING SDN BHD";
    the other three test equations hold as written: the first-four-token
    fallback, and "UNKNOWN" for [None] and for a narrative without tokens. *)
Theorem get_counterparty_examples :
  get_counterparty (PyStr "PAYMENT FROM ACME TRADING SDN BHD REF123")
  = "PAYMENT FROM ACME TRADING SDN BHD"
  /\ get_counterparty (PyStr "xyz random note 123 abc") = "XYZ RANDOM NOTE 123"
  /\ get_counterparty PyNone = "UNKNOWN"
  /\ get_counterparty (PyStr "!!!") = "UNKNOWN".
Proof. repeat split; vm_compute; reflexivity. Qed.

(** ** Monetary normalizer *)

Lemma moneyfy_returns (x : pyobj) : moneyfy x = Returns (moneyfy_value x).
Proof. unfold moneyfy_value, moneyfy. destruct (moneyfy_try x); reflexivity. Qed.

Lemma of_Q_eq (a b : Q) : (a == b)%Q -> PyFloat.of_Q a = PyFloat.of_Q b.
Proof. intros H. unfold PyFloat.of_Q. f_equal. apply Q2Qc_eq_iff. exact H. Qed.

Ltac float_value :=
  vm_compute; do 2 f_equal; apply Qc_is_canon; reflexivity.

(** two closed lists of floats, or of companies with floats, are equal *)
Ltac floats_equal :=
  vm_compute;
  repeat match goal with
         | |- @eq Qc _ _ => apply Qc_is_canon; reflexivity
         | |- Fin _ = Fin _ => apply f_equal
         | |- _ :: _ = _ :: _ => apply f_equal2
         | |- (_, _) = (_, _) => apply f_equal2
         | |- _ => reflexivity
         end.

(** C7: [moneyfy] never raises: every input gives a float.  A missing
    value, a blank text and a text that [float()] rejects give 0.0, and
    the five test equations of the specification hold. *)
Theorem moneyfy_total (x : pyobj) :
  (exists v, moneyfy x = Returns v)
  /\ (pd_isna x = true -> moneyfy x = Returns PyFloat.zero)
  /\ (pd_isna x = false -> cleaned x = EmptyString ->
      moneyfy x = Returns PyFloat.zero)
  /\ (pd_isna x = false ->
      forall e, PyFloat.of_string (number_text x) = Raises e ->
      moneyfy x = Returns PyFloat.zero)
  /\ moneyfy (PyStr "1,234.50") = Returns (PyFloat.of_Q (123450 # 100))
  /\ moneyfy (PyStr "(500)") = Returns (PyFloat.of_Z (-500))
  /\ moneyfy (PyStr EmptyString) = Returns PyFloat.zero
  /\ moneyfy PyNone = Returns PyFloat.zero
  /\ moneyfy (PyStr "abc") = Returns PyFloat.zero.
Proof.
  split; [eexists; apply moneyfy_returns|].
  split.
  { intros H. unfold moneyfy, moneyfy_try. rewrite H. reflexivity. }
  split.
  { intros H E. unfold moneyfy, moneyfy_try. rewrite H, E. reflexivity. }
  split.
  { intros H e E. unfold moneyfy, moneyfy_try, number_text in *. rewrite H.
    destruct (parenthesized (cleaned x)).
    - rewrite E. reflexivity.
    - destruct (PyStr.truthy (cleaned x)); [rewrite E|]; reflexivity. }
  repeat split; float_value.
Qed.

(** a missing value, a blank text and a malformed text, as instances of C7 *)
Lemma moneyfy_total_witness :
  moneyfy PyNaN = Returns PyFloat.zero
  /\ moneyfy (PyStr "   ") = Returns PyFloat.zero
  /\ moneyfy (PyStr "abc") = Returns PyFloat.zero.
Proof.
  split; [|split].
  - apply (proj1 (proj2 (moneyfy_total PyNaN))). reflexivity.
  - apply (proj1 (proj2 (proj2 (moneyfy_total (PyStr "   "))))); reflexivity.
  - apply (proj1 (proj2 (proj2 (proj2 (moneyfy_total (PyStr "abc"))))) eq_refl
             ValueError).
    reflexivity.
Defined.

(** ** Policy mapper *)

Section Policy.

Lemma set_mem_In x l : set_mem x l = true <-> In x l.
Proof.
  unfold set_mem. rewrite existsb_exists. split.
  - intros (y & Hy & E). apply String.eqb_eq in E. now subst.
  - intros H. exists x. split; [exact H | apply String.eqb_refl].
Qed.

Lemma dict_get_In {V : Type} (d : list (string * V)) k v :
  dict_get d k = Some v -> In v (map snd d).
Proof.
  induction d as [|[k' v'] d IH]; simpl; [discriminate|].
  destruct (String.eqb k k'); intros H.
  - injection H as ->. now left.
  - right. auto.
Qed.

Lemma matrix_items_ok : Forall item_ok (map snd POLICY_MATRIX).
Proof.
  unfold POLICY_MATRIX. simpl map.
  repeat (apply Forall_cons;
          [unfold item_ok; simpl; split; [tauto | discriminate]|]).
  apply Forall_nil.
Qed.

Lemma collect_items_ok rule_ids : Forall item_ok (collect_items rule_ids).
Proof.
  induction rule_ids as [|rid rest IH]; cbn [collect_items]; [constructor|].
  destruct (dict_get POLICY_MATRIX rid) eqn:E; [|exact IH].
  constructor; [|exact IH].
  apply dict_get_In in E.
  exact (proj1 (Forall_forall _ _) matrix_items_ok _ E).
Qed.

Lemma risk_item_ok risk : item_ok (risk_item risk).
Proof.
  unfold risk_item.
  destruct (String.eqb risk "High"); [|destruct (String.eqb risk "Medium")];
    unfold item_ok; simpl; (split; [tauto | discriminate]).
Qed.

Lemma policy_items_ok risk rule_ids : Forall item_ok (policy_items risk rule_ids).
Proof.
  unfold policy_items. apply Forall_app. split.
  - apply collect_items_ok.
  - constructor; [apply risk_item_ok | constructor].
Qed.

(** the level kept by one step is the old one or the item's *)
Lemma policy_step_level st it :
  final_level (policy_step st it) = final_level st
  \/ final_level (policy_step st it) = action_level it.
Proof.
  unfold policy_step.
  destruct (set_mem (action it) (seen st));
    destruct (priority_get (final_level st) <? priority_get (action_level it))%nat;
    simpl; auto.
Qed.

Lemma fold_level_known items : forall st,
  In (final_level st) LEVELS -> Forall item_ok items ->
  In (final_level (fold_left policy_step items st)) LEVELS.
Proof.
  induction items as [|it items IH]; intros st Hst Hall; simpl; [exact Hst|].
  inversion Hall as [|? ? [Hit _] Hrest]; subst.
  apply IH; [|exact Hrest].
  destruct (policy_step_level st it) as [-> | ->]; assumption.
Qed.

Lemma standard_known : In "Standard" LEVELS.
Proof. simpl. tauto. Qed.

(** once an action is listed it stays at the head of the list *)
Lemma fold_actions_head items : forall st a l,
  actions st = a :: l ->
  exists l', actions (fold_left policy_step items st) = a :: l'.
Proof.
  induction items as [|it items IH]; intros st a l Hst; simpl.
  - eauto.
  - assert (H : exists l1, actions (policy_step st it) = a :: l1).
    { unfold policy_step. destruct (set_mem (action it) (seen st)); simpl.
      - eauto.
      - rewrite Hst. simpl. eauto. }
    destruct H as [l1 H1]. exact (IH _ _ _ H1).
Qed.

(** the actions are listed once each, and all of them are in [seen] *)
Lemma policy_step_distinct st it :
  NoDup (actions st) -> incl (actions st) (seen st) ->
  NoDup (actions (policy_step st it))
  /\ incl (actions (policy_step st it)) (seen (policy_step st it)).
Proof.
  intros Hnd Hincl. unfold policy_step.
  destruct (set_mem (action it) (seen st)) eqn:E; cbn [actions seen].
  - now split.
  - split.
    + apply (Permutation_NoDup (Permutation_cons_append (actions st) (action it))).
      constructor; [|exact Hnd].
      intros Hin. apply Hincl, set_mem_In in Hin. congruence.
    + intros a Ha. apply in_app_or in Ha. destruct Ha as [Ha | [<- | []]].
      * right. now apply Hincl.
      * now left.
Qed.

Lemma fold_actions_distinct items : forall st,
  NoDup (actions st) -> incl (actions st) (seen st) ->
  NoDup (actions (fold_left policy_step items st)).
Proof.
  induction items as [|it items IH]; intros st Hnd Hincl; simpl; [exact Hnd|].
  destruct (policy_step_distinct st it Hnd Hincl) as [H1 H2]. now apply IH.
Qed.

Lemma policy_fold_distinct items : NoDup (actions (policy_fold items)).
Proof.
  unfold policy_fold. apply fold_actions_distinct; simpl.
  - constructor.
  - intros a [].
Qed.

Lemma policy_fold_actions it items :
  exists l, actions (policy_fold (it :: items)) = action it :: l.
Proof.
  unfold policy_fold. simpl.
  apply (fold_actions_head items _ (action it) []).
  reflexivity.
Qed.

Lemma join_nonempty sep a l : a <> EmptyString -> PyStr.join sep (a :: l) <> EmptyString.
Proof.
  intros Ha. simpl. destruct l.
  - exact Ha.
  - destruct a; [congruence | discriminate].
Qed.

Lemma policy_items_cons risk rule_ids :
  exists it rest, policy_items risk rule_ids = it :: rest.
Proof.
  unfold policy_items.
  destruct (collect_items rule_ids) as [|it rest]; simpl; eauto.
Qed.

Lemma collect_items_filter rule_ids :
  collect_items rule_ids = map matrix_at (filter in_matrix rule_ids).
Proof.
  induction rule_ids as [|rid rest IH]; cbn [collect_items filter map];
    [reflexivity|].
  unfold in_matrix at 1.
  destruct (dict_get POLICY_MATRIX rid) eqn:E; cbn [map].
  - unfold matrix_at at 1. rewrite E. now f_equal.
  - exact IH.
Qed.

Lemma escalate_wins st :
  In (final_level st) LEVELS ->
  final_level (policy_step st (matrix_at "ESCALATE_HIGH")) = "Escalate".
Proof.
  intros H. unfold policy_step.
  destruct (set_mem _ _); simpl in *;
    repeat (destruct H as [<- | H]; [reflexivity|]); contradiction.
Qed.

End Policy.

(** C6: with risk "High" the action level is "Escalate" whatever rule
    identifiers fired, and no action text is listed twice; for
    INCOME_CONCENTRATION and ROUND_AMOUNT_PATTERN the actions are exactly the
    three texts of concentration, round amount and escalation, in that order
    and without repetition, joined by blanks. *)
Theorem high_risk_escalates (rule_ids : list string) :
  fst (build_policy_actions "High" rule_ids) = "Escalate"
  /\ NoDup (actions (policy_fold (policy_items "High" rule_ids)))
  /\ (let ids := ["INCOME_CONCENTRATION"; "ROUND_AMOUNT_PATTERN"] in
      let texts := [ action (matrix_at "INCOME_CONCENTRATION");
                     action (matrix_at "ROUND_AMOUNT_PATTERN");
                     action (matrix_at "ESCALATE_HIGH") ] in
      actions (policy_fold (policy_items "High" ids)) = texts
      /\ NoDup texts
      /\ build_policy_actions "High" ids = ("Escalate", PyStr.join " " texts)).
Proof.
  split; [|split].
  - unfold build_policy_actions, policy_fold, policy_items. simpl fst.
    rewrite fold_left_app. simpl fold_left.
    change (risk_item "High") with (matrix_at "ESCALATE_HIGH").
    apply escalate_wins.
    apply fold_level_known; [apply standard_known | apply collect_items_ok].
  - apply policy_fold_distinct.
  - cbv zeta. split; [vm_compute; reflexivity|]. split.
    + repeat constructor; simpl; intuition discriminate.
    + vm_compute. reflexivity.
Qed.

(** C9: identifiers absent from the matrix are skipped and exactly one
    entry is added for the risk (ESCALATE_HIGH for "High", MONITOR_MEDIUM
    for "Medium", STANDARD_SAFE otherwise); the actions text is never empty
    and the action level is one of the six levels. *)
Theorem policy_mapper_total (risk : string) (rule_ids : list string) :
  policy_items risk rule_ids
  = map matrix_at (filter in_matrix rule_ids) ++ [risk_item risk]
  /\ (risk = "High" -> risk_item risk = matrix_at "ESCALATE_HIGH")
  /\ (risk = "Medium" -> risk_item risk = matrix_at "MONITOR_MEDIUM")
  /\ (risk <> "High" -> risk <> "Medium" ->
      risk_item risk = matrix_at "STANDARD_SAFE")
  /\ snd (build_policy_actions risk rule_ids) <> EmptyString
  /\ In (fst (build_policy_actions risk rule_ids)) LEVELS.
Proof.
  split; [unfold policy_items; now rewrite collect_items_filter|].
  split; [intros ->; reflexivity|].
  split; [intros ->; reflexivity|].
  split.
  { intros H1 H2. unfold risk_item.
    apply String.eqb_neq in H1, H2. now rewrite H1, H2. }
  split.
  - unfold build_policy_actions. simpl snd.
    destruct (policy_items_cons risk rule_ids) as (it & rest & E).
    destruct (policy_fold_actions it rest) as [l Hl].
    rewrite E, Hl. apply join_nonempty.
    pose proof (policy_items_ok risk rule_ids) as Hok. rewrite E in Hok.
    inversion Hok as [|? ? [_ Hact] _]; subst. exact Hact.
  - unfold build_policy_actions, policy_fold. simpl fst.
    apply fold_level_known; [apply standard_known | apply policy_items_ok].
Qed.

(** an unknown rule identifier and an unknown risk value, as an instance of C9 *)
Lemma policy_mapper_total_witness :
  risk_item "High" = matrix_at "ESCALATE_HIGH"
  /\ risk_item "Medium" = matrix_at "MONITOR_MEDIUM"
  /\ risk_item "Low" = matrix_at "STANDARD_SAFE".
Proof.
  split; [|split].
  - apply (proj1 (proj2 (policy_mapper_total "High" ["NO_SUCH_RULE"]))). reflexivity.
  - apply (proj1 (proj2 (proj2 (policy_mapper_total "Medium" ["NO_SUCH_RULE"])))).
    reflexivity.
  - apply (proj1 (proj2 (proj2 (proj2 (policy_mapper_total "Low" ["NO_SUCH_RULE"]))))).
    + discriminate.
    + discriminate.
Defined.

(** ** Rule engine: industry mismatch *)

Section Mismatch.

Lemma nonempty_true {A : Type} (l : list A) : nonempty l = true <-> l <> [].
Proof. destruct l; simpl; split; congruence. Qed.

(** the test made on one narrative *)
Lemma mismatch_test d :
  nonempty (detect_other_industries (PyStr d))
  && negb (set_mem BASE_INDUSTRY (detect_other_industries (PyStr d))) = true
  <-> narrative_mismatches d.
Proof.
  unfold narrative_mismatches.
  rewrite andb_true_iff, negb_true_iff, nonempty_true,
    <- not_true_iff_false, set_mem_In.
  reflexivity.
Qed.

Lemma mismatch_loop_existsb narratives :
  mismatch_loop narratives
  = existsb (fun d =>
               nonempty (detect_other_industries (PyStr d))
               && negb (set_mem BASE_INDUSTRY (detect_other_industries (PyStr d))))
            narratives.
Proof.
  induction narratives as [|d rest IH]; cbn [mismatch_loop existsb]; [reflexivity|].
  rewrite IH. now destruct (nonempty _ && negb _).
Qed.

Lemma mismatch_loop_spec narratives :
  mismatch_loop narratives = true
  <-> exists d, In d narratives /\ narrative_mismatches d.
Proof.
  rewrite mismatch_loop_existsb, existsb_exists.
  split; intros (d & Hin & H); exists d; (split; [exact Hin|]);
    now apply mismatch_test.
Qed.

Lemma mismatch_rule_id p txns :
  In "INDUSTRY_MISMATCH" (fst (detect_rules p txns))
  <-> mismatch_loop (map (fun t => py_str (desc t)) txns) = true.
Proof.
  unfold detect_rules. cbn [fst].
  destruct (PyFloat.geb p (PyFloat.of_Z 30));
    destruct (mismatch_loop _); destruct (round_pattern _); simpl;
    intuition discriminate.
Qed.

End Mismatch.

(** C8: over the narratives of a counterparty's credit transactions the
    industry-mismatch rule fires exactly when some narrative classifies into
    an industry and the base industry is not among that narrative's
    industries; narratives that match no industry never make it fire. *)
Theorem industry_mismatch_rule (p : pyfloat) (txns : list Transaction) :
  let narratives := map (fun t => py_str (desc t)) txns in
  (In "INDUSTRY_MISMATCH" (fst (detect_rules p txns))
   <-> exists d, In d narratives /\ narrative_mismatches d)
  /\ (Forall (fun d => detect_other_industries (PyStr d) = []) narratives ->
      ~ In "INDUSTRY_MISMATCH" (fst (detect_rules p txns))).
Proof.
  cbv zeta. split.
  - rewrite mismatch_rule_id. apply mismatch_loop_spec.
  - intros Hnone Hin. apply mismatch_rule_id, mismatch_loop_spec in Hin.
    destruct Hin as (d & Hd & Hne & _).
    rewrite Forall_forall in Hnone. apply Hne. now apply Hnone.
Qed.

(** a counterparty whose only narrative matches no industry, as an
    instance of C8 *)
Lemma industry_mismatch_rule_witness :
  ~ In "INDUSTRY_MISMATCH"
       (fst (detect_rules (PyFloat.of_Z 40)
               [mk_txn (PyStr "miscellaneous note") (PyFloat.of_Z 20000)
                       PyFloat.zero "MISCELLANEOUS NOTE"])).
Proof.
  apply (proj2 (industry_mismatch_rule (PyFloat.of_Z 40)
                  [mk_txn (PyStr "miscellaneous note") (PyFloat.of_Z 20000)
                          PyFloat.zero "MISCELLANEOUS NOTE"])).
  repeat constructor.
Defined.

(** ** Rule engine: round amounts *)

Section RoundAmount.

Lemma Qc_this_Q2Qc (q : Q) : (this (Q2Qc q) == q)%Q.
Proof. simpl. apply Qred_correct. Qed.

Lemma gtb_zero_inv c :
  PyFloat.gtb c PyFloat.zero = true ->
  (exists q, c = Fin q /\ (0 < q)%Qc) \/ c = Inf false.
Proof.
  unfold PyFloat.gtb, PyFloat.ltb, PyFloat.zero, PyFloat.of_Z.
  destruct c as [q | [] | ]; simpl; try discriminate; auto.
  intros H. left. exists q. split; [reflexivity|].
  apply Qclt_alt. destruct (Qccompare _ q) eqn:E; try discriminate.
  reflexivity.
Qed.

Lemma abs_pos q : (0 < q)%Qc -> PyFloat.abs (Fin q) = Fin q.
Proof.
  intros H. unfold PyFloat.abs, PyFloat.Qc_sign_neg.
  destruct (Qccompare q 0) eqn:E; try reflexivity.
  apply Qclt_alt in E. exfalso. exact (Qclt_not_le _ _ H (Qclt_le_weak _ _ E)).
Qed.

Lemma eqb_zero_iff q : PyFloat.eqb (Fin q) PyFloat.zero = true <-> q = 0%Qc.
Proof.
  unfold PyFloat.eqb, PyFloat.zero, PyFloat.of_Z. simpl.
  change (Q2Qc (inject_Z 0)) with 0%Qc.
  rewrite Qceq_alt. destruct (Qccompare q 0); split; congruence.
Qed.

Lemma Qc_minus_zero (a b : Qc) : (a - b = 0 <-> a = b)%Qc.
Proof.
  split; intros H.
  - rewrite <- (Qcplus_0_l b), <- H. ring.
  - subst. ring.
Qed.

(** the quotient of an exact multiple *)
Lemma floor_of_multiple (m k : Z) :
  (0 < m)%Z ->
  Qfloor (Q2Qc (inject_Z (m * k)) / Q2Qc (inject_Z m))%Qc = k.
Proof.
  intros Hm.
  assert (E : (this (Q2Qc (inject_Z (m * k)) / Q2Qc (inject_Z m))%Qc
               == inject_Z k)%Q).
  { unfold Qcdiv, Qcmult, Qcinv. rewrite !Qc_this_Q2Qc.
    rewrite inject_Z_mult. field.
    intros H. apply (inject_Z_injective m 0) in H. lia. }
  rewrite E. apply Qfloor_Z.
Qed.

(** the remainder is zero exactly on the integer multiples *)
Lemma mod_pos_zero_iff (q : Qc) (m : Z) :
  (0 < m)%Z ->
  PyFloat.eqb (PyFloat.mod_pos (Fin q) m) PyFloat.zero = true
  <-> exists k : Z, q = Q2Qc (inject_Z (m * k)).
Proof.
  intros Hm. unfold PyFloat.mod_pos. rewrite eqb_zero_iff, Qc_minus_zero.
  split.
  - intros H. eexists. exact H.
  - intros [k Hk]. rewrite Hk at 2. rewrite floor_of_multiple by exact Hm.
    exact Hk.
Qed.

Lemma is_round_5000_iff c :
  PyFloat.gtb c PyFloat.zero = true ->
  is_round_5000 c = true <-> multiple_of_5000 c.
Proof.
  intros Hpos. unfold is_round_5000, multiple_of_5000.
  destruct (gtb_zero_inv c Hpos) as [(q & -> & Hq) | ->].
  - rewrite abs_pos by exact Hq. rewrite mod_pos_zero_iff by lia.
    unfold PyFloat.of_Z.
    split; intros [k Hk]; exists k; congruence.
  - simpl. split; [discriminate | intros [k Hk]; discriminate].
Qed.

(** a multiple of 10000 is a multiple of 5000 *)
Lemma is_round_drop_10000 c :
  PyFloat.gtb c PyFloat.zero = true -> is_round c = is_round_5000 c.
Proof.
  intros Hpos. unfold is_round. fold (is_round_5000 c).
  destruct (PyFloat.eqb _ _) eqn:E10; [|reflexivity].
  simpl. symmetry. apply is_round_5000_iff; [exact Hpos|].
  destruct (gtb_zero_inv c Hpos) as [(q & -> & Hq) | ->].
  - rewrite abs_pos in E10 by exact Hq.
    apply mod_pos_zero_iff in E10; [|lia].
    destruct E10 as [k ->]. exists (2 * k)%Z. unfold PyFloat.of_Z.
    do 3 f_equal. lia.
  - discriminate.
Qed.

End RoundAmount.

(** C10: the round-amount test of the code, with both divisors, holds
    exactly when some positive credit is an integer multiple of 5000, and it
    gives the same result as the test with the divisor 5000 alone. *)
Theorem round_pattern_is_multiple_of_5000 (credits : list pyfloat) :
  (round_pattern credits = true <-> some_positive_multiple_of_5000 credits)
  /\ round_pattern credits
     = existsb is_round_5000
         (filter (fun c => PyFloat.gtb c PyFloat.zero) credits).
Proof.
  assert (E : round_pattern credits
              = existsb is_round_5000
                  (filter (fun c => PyFloat.gtb c PyFloat.zero) credits)).
  { unfold round_pattern.
    induction credits as [|c rest IH]; simpl; [reflexivity|].
    destruct (PyFloat.gtb c PyFloat.zero) eqn:Hc; simpl; [|exact IH].
    now rewrite IH, is_round_drop_10000. }
  split; [|exact E].
  rewrite E, existsb_exists. unfold some_positive_multiple_of_5000.
  split.
  - intros (c & Hin & Hr). apply filter_In in Hin. destruct Hin as [Hin Hpos].
    exists c. repeat split; try assumption. now apply is_round_5000_iff.
  - intros (c & Hin & Hpos & Hm). exists c. split.
    + apply filter_In. now split.
    + now apply is_round_5000_iff.
Qed.

(** ** Stored amounts and their sign *)

Section Strings.

Import PyStr.
Local Open Scope string_scope.

Lemma str_append_nil_r s : s ++ EmptyString = s.
Proof. induction s; simpl; congruence. Qed.

Lemma str_append_assoc s1 s2 s3 : (s1 ++ s2) ++ s3 = s1 ++ (s2 ++ s3).
Proof. induction s1; simpl; congruence. Qed.

Lemma str_rev_acc_app s : forall acc, rev_acc s acc = rev s ++ acc.
Proof.
  unfold rev. induction s as [|c s IH]; intros acc; simpl; [reflexivity|].
  rewrite IH, (IH (String c EmptyString)), str_append_assoc. reflexivity.
Qed.

Lemma str_rev_cons c s : rev (String c s) = rev s ++ String c EmptyString.
Proof. unfold rev at 1. simpl. apply str_rev_acc_app. Qed.

Lemma str_rev_app s1 s2 : rev (s1 ++ s2) = rev s2 ++ rev s1.
Proof.
  induction s1 as [|c s1 IH]; simpl.
  - now rewrite str_append_nil_r.
  - now rewrite !str_rev_cons, IH, str_append_assoc.
Qed.

Lemma str_rev_involutive s : rev (rev s) = s.
Proof.
  induction s as [|c s IH]; [reflexivity|].
  rewrite str_rev_cons, str_rev_app, IH. reflexivity.
Qed.

Variable sp : ascii -> bool.

Lemma lstrip_head s : head_ok sp (lstrip_by sp s).
Proof.
  induction s as [|c s IH]; simpl; [exact I|].
  destruct (sp c) eqn:E; [exact IH | exact E].
Qed.

Lemma lstrip_id s : head_ok sp s -> lstrip_by sp s = s.
Proof. destruct s as [|c s]; simpl; [reflexivity|]. now intros ->. Qed.

Lemma lstrip_suffix s : exists w, s = w ++ lstrip_by sp s.
Proof.
  induction s as [|c s [w IH]]; simpl.
  - now exists EmptyString.
  - destruct (sp c).
    + exists (String c w). simpl. congruence.
    + now exists EmptyString.
Qed.

Lemma rstrip_prefix s : exists w, s = rstrip_by sp s ++ w.
Proof.
  unfold rstrip_by. destruct (lstrip_suffix (rev s)) as [w Hw].
  exists (rev w). rewrite <- str_rev_app, <- Hw. now rewrite str_rev_involutive.
Qed.

Lemma rstrip_id s : head_ok sp (rev s) -> rstrip_by sp s = s.
Proof. intros H. unfold rstrip_by. now rewrite lstrip_id, str_rev_involutive. Qed.

Lemma strip_id s : head_ok sp s -> head_ok sp (rev s) -> strip_by sp s = s.
Proof.
  intros H1 H2. unfold strip_by. rewrite (lstrip_id s H1). now apply rstrip_id.
Qed.

(** a stripped text neither opens nor ends with a stripped character *)
Lemma strip_head s : head_ok sp (strip_by sp s).
Proof.
  unfold strip_by. pose proof (lstrip_head s) as H.
  destruct (rstrip_prefix (lstrip_by sp s)) as [w Hw].
  destruct (rstrip_by sp (lstrip_by sp s)) as [|c r]; [exact I|].
  rewrite Hw in H. exact H.
Qed.

Lemma strip_last s : head_ok sp (rev (strip_by sp s)).
Proof. unfold strip_by, rstrip_by. rewrite str_rev_involutive. apply lstrip_head. Qed.

End Strings.

Lemma head_ok_weaken (sp sp' : ascii -> bool) s :
  (forall c, sp' c = true -> sp c = true) -> head_ok sp s -> head_ok sp' s.
Proof.
  intros Himp. destruct s as [|c s]; simpl; [trivial|].
  intros H. destruct (sp' c) eqn:E; [|reflexivity].
  apply Himp in E. congruence.
Qed.

Lemma is_c_space_is_space c : PyStr.is_c_space c = true -> PyStr.is_space c = true.
Proof.
  unfold PyStr.is_c_space, PyStr.is_space.
  destruct (PyStr.between 9 13 c), (PyStr.code c =? 32)%nat; simpl;
    auto using orb_true_r; discriminate.
Qed.

(** [float()] has nothing to strip from a text that [strip()] returned *)
Lemma strip_c_of_strip s :
  PyStr.strip_by PyStr.is_c_space (PyStr.strip s) = PyStr.strip s.
Proof.
  apply strip_id;
    apply (head_ok_weaken PyStr.is_space _ _ is_c_space_is_space).
  - apply strip_head.
  - apply strip_last.
Qed.

Section Sign.

Import PyStr PyFloat.

Lemma Q2Qc_nonneg (q : Q) : (0 <= q)%Q -> (0 <= Q2Qc q)%Qc.
Proof. intros H. unfold Qcle. simpl. now rewrite Qred_correct. Qed.

Lemma Fin_not_negative q : (0 <= q)%Qc -> not_negative (Fin q).
Proof.
  intros H. unfold not_negative, ltb, zero, of_Z. simpl.
  change (Q2Qc (inject_Z 0)) with 0%Qc.
  destruct (Qccompare q 0) eqn:E; try reflexivity.
  apply Qclt_alt in E. exfalso. exact (Qcle_not_lt _ _ H E).
Qed.

Lemma zero_not_negative : not_negative zero.
Proof. reflexivity. Qed.

Lemma digits_nonneg s : forall acc n v m r,
  (0 <= acc)%Z -> digits s acc n = (v, m, r) -> (0 <= v)%Z.
Proof.
  induction s as [|c s IH]; intros acc n v m r Hacc; simpl.
  - intros E. injection E as <- _ _. exact Hacc.
  - destruct (is_digit c).
    + apply IH. unfold digit_val. lia.
    + intros E. injection E as <- _ _. exact Hacc.
Qed.

Lemma scale10_nonneg m e : (0 <= m)%Z -> (0 <= scale10 m e)%Qc.
Proof.
  intros H. unfold scale10. destruct (0 <=? e)%Z eqn:E; apply Q2Qc_nonneg.
  - apply Z.leb_le in E. unfold Qle. simpl.
    assert (0 <= 10 ^ e)%Z by (apply Z.pow_nonneg; lia). nia.
  - unfold Qle. simpl. lia.
Qed.

Lemma decimal_nonneg s q : decimal s = Some q -> (0 <= q)%Qc.
Proof.
  unfold decimal.
  destruct (digits s 0 0) as [[ip ni] s1] eqn:E1.
  assert (Hip : (0 <= ip)%Z) by (eapply digits_nonneg; [|exact E1]; lia).
  assert (H : forall m nf s2,
             match s1 with
             | String c s1' =>
                 if Ascii.eqb c "." then digits s1' ip 0 else (ip, 0%nat, s1)
             | EmptyString => (ip, 0%nat, s1)
             end = (m, nf, s2) -> (0 <= m)%Z).
  { intros m nf s2. destruct s1 as [|c s1'].
    - intros E. now injection E as <- _ _.
    - destruct (Ascii.eqb c ".").
      + intros E. eapply digits_nonneg; [exact Hip | exact E].
      + intros E. now injection E as <- _ _. }
  destruct (match s1 with String _ _ => _ | EmptyString => _ end)
    as [[m nf] s2] eqn:E2.
  specialize (H _ _ _ eq_refl).
  destruct (ni + nf =? 0)%nat; [discriminate|].
  destruct (exponent s2); [|discriminate].
  intros E. injection E as <-. now apply scale10_nonneg.
Qed.

Lemma unsigned_not_negative s v : unsigned s = Some v -> not_negative v.
Proof.
  unfold unsigned.
  destruct (String.eqb _ "inf" || String.eqb _ "infinity").
  { intros E. now injection E as <-. }
  destruct (String.eqb _ "nan").
  { intros E. now injection E as <-. }
  destruct (decimal s) as [q|] eqn:E; [|discriminate].
  intros E'. injection E' as <-. eapply Fin_not_negative, decimal_nonneg, E.
Qed.

(** [float()] of a text that does not open with a minus sign *)
Lemma of_string_not_negative s v :
  startswith "-" (strip_by is_c_space s) = false ->
  of_string s = Returns v -> not_negative v.
Proof.
  unfold of_string. intros Hm.
  destruct (strip_by is_c_space s) as [|c t] eqn:Es.
  - simpl. discriminate.
  - cbn [underscores_ok]. cbn [startswith] in Hm. rewrite andb_true_r in Hm.
    destruct (Ascii.eqb c "_") eqn:Eu; [simpl; discriminate|].
    destruct (_ && underscores_ok c t); [|discriminate].
    cbn [remove_char]. rewrite Eu. cbn [sign_of].
    rewrite Ascii.eqb_sym, Hm.
    destruct (Ascii.eqb c "+");
      (destruct (unsigned _) as [u|] eqn:E; [|discriminate]);
      intros E'; injection E' as <-;
      eapply unsigned_not_negative, E.
Qed.

Lemma startswith_paren s :
  parenthesized s = true -> startswith "(" s = true.
Proof. unfold parenthesized. now intros H%andb_true_iff. Qed.

(** the normalizer gives a negative value only for a text written as a
    negative *)
Lemma moneyfy_value_not_negative x :
  written_negative x = false -> not_negative (moneyfy_value x).
Proof.
  unfold written_negative, moneyfy_value, moneyfy, moneyfy_try.
  destruct (pd_isna x); [intros _; apply zero_not_negative|].
  simpl negb. rewrite andb_true_l. intros H%orb_false_iff. destruct H as [Hp Hm].
  destruct (parenthesized (cleaned x)) eqn:Ep.
  { apply startswith_paren in Ep. congruence. }
  destruct (truthy (cleaned x)); [|apply zero_not_negative].
  destruct (of_string (cleaned x)) as [v|e] eqn:E; [|apply zero_not_negative].
  eapply of_string_not_negative; [|exact E].
  unfold cleaned in *. now rewrite strip_c_of_strip.
Qed.

Lemma amount_at_not_negative cols row col :
  column_written_negative cols row col = false ->
  not_negative (amount_at cols row col).
Proof.
  unfold column_written_negative, amount_at.
  destruct col as [name|]; [|intros _; apply zero_not_negative].
  destruct (truthy name); [|intros _; apply zero_not_negative].
  apply moneyfy_value_not_negative.
Qed.

End Sign.

(** C3 (as stated, refuted): a row whose credit is written in parentheses
    gives a Transaction with a negative stored credit. *)
Lemma parenthesized_credit_is_stored_negative : ~ amounts_nonnegative paren_table.
Proof.
  intros H.
  destruct (H _ (derive ["Date"; "Description"; "Credit"; "Debit"] "Description"
                        (Some "Credit") (Some "Debit")
                        [PyStr "2024-01-05"; PyStr "REFUND ACME TRADING";
                         PyStr "(500)"; PyNaN])
              eq_refl (or_introl eq_refl)) as [Hc _].
  vm_compute in Hc. discriminate Hc.
Qed.

Lemma Forall2_map_r {X Y : Type} (R : X -> Y -> Prop) (f : X -> Y) l :
  (forall x, In x l -> R x (f x)) -> Forall2 R l (map f l).
Proof.
  induction l as [|x l IH]; intros H; cbn [map]; constructor.
  - apply H. now left.
  - apply IH. intros y Hy. apply H. now right.
Qed.

(** C3 (amended): a loaded table gives one Transaction for every row, in the
    order of the rows, and the Transaction of a row stores, for credit and
    for debit, the normalizer's value of the row's cell in the resolved
    column (0.0 when the column is not resolved), sign included.  The stored
    value is never negative when the cell is not written as a negative, that
    is when its text, commas and surrounding blanks removed, opens neither
    with a parenthesis nor with a minus sign. *)
Theorem stored_amount_sign (df : DataFrame) (txns : list Transaction) :
  load_table df = Appended txns ->
  let cols := map PyStr.strip (columns df) in
  Forall2 (fun row t =>
             credit t = amount_at cols row (resolve_credit cols)
             /\ debit t = amount_at cols row (resolve_debit cols)
             /\ (column_written_negative cols row (resolve_credit cols) = false ->
                 PyFloat.ltb (credit t) PyFloat.zero = false)
             /\ (column_written_negative cols row (resolve_debit cols) = false ->
                 PyFloat.ltb (debit t) PyFloat.zero = false))
          (rows df) txns.
Proof.
  intros Hload cols. unfold load_table in Hload. fold cols in Hload.
  destruct (resolve_desc cols) as [dc|]; [|discriminate].
  destruct (PyStr.truthy dc); [|discriminate].
  destruct (derivation_raises _ _ _ _); [discriminate|].
  injection Hload as <-. apply Forall2_map_r. intros row _.
  cbn [derive credit debit].
  repeat split; try assumption; apply amount_at_not_negative.
Qed.

(** the row of the second statement with a deposit, as an instance of C3 *)
Lemma stored_amount_sign_witness :
  PyFloat.ltb (credit statement_b_deposit) PyFloat.zero = false.
Proof.
  pose proof (stored_amount_sign statement_b
                (map (derive (columns statement_b) "Narration" (Some "Deposit")
                             (Some "Withdrawal")) (rows statement_b))
                eq_refl) as H.
  cbv zeta in H. cbn [rows statement_b map] in H.
  apply Forall2_cons_iff in H. destruct H as [(_ & _ & Hsign & _) _].
  apply Hsign. reflexivity.
Defined.

(** ** Aggregation: independence of the order of the rows *)

Section ListFacts.

Context {A : Type}.

Lemma Permutation_filter (f : A -> bool) (l l' : list A) :
  Permutation l l' -> Permutation (filter f l) (filter f l').
Proof.
  induction 1 as [| x l l' _ IH | x y l | l l' l'' _ IH1 _ IH2]; simpl.
  - constructor.
  - destruct (f x); [now constructor | exact IH].
  - destruct (f x), (f y); try reflexivity. apply perm_swap.
  - now transitivity (filter f l').
Qed.

Lemma existsb_Permutation (f : A -> bool) (l l' : list A) :
  Permutation l l' -> existsb f l = existsb f l'.
Proof.
  induction 1 as [| x l l' _ IH | x y l | l l' l'' _ IH1 _ IH2]; simpl.
  - reflexivity.
  - now rewrite IH.
  - now destruct (f x), (f y).
  - congruence.
Qed.

Lemma Permutation_concat (l l' : list (list A)) :
  Permutation l l' -> Permutation (concat l) (concat l').
Proof.
  induction 1 as [| x l l' _ IH | x y l | l l' l'' _ IH1 _ IH2]; simpl.
  - constructor.
  - now apply Permutation_app_head.
  - rewrite !app_assoc. apply Permutation_app_tail, Permutation_app_comm.
  - now transitivity (concat l').
Qed.

End ListFacts.

Section KeyOrder.

Lemma str_lt_iff a b : str_lt a b <-> String_as_OT.lt a b.
Proof.
  unfold str_lt, String.ltb. rewrite <- String_as_OT.cmp_lt.
  unfold String_as_OT.cmp.
  destruct (String.compare a b); split; congruence.
Qed.

Lemma str_lt_trans a b c : str_lt a b -> str_lt b c -> str_lt a c.
Proof. rewrite !str_lt_iff. apply String_as_OT.lt_trans. Qed.

Lemma str_lt_irrefl a : ~ str_lt a a.
Proof.
  rewrite str_lt_iff. intros H.
  exact (String_as_OT.lt_not_eq _ _ H eq_refl).
Qed.

Lemma compare_Lt a b : String.compare a b = Lt -> str_lt a b.
Proof. unfold str_lt, String.ltb. now intros ->. Qed.

Lemma compare_Gt a b : String.compare a b = Gt -> str_lt b a.
Proof.
  intros H. apply compare_Lt.
  rewrite String.compare_antisym, H. reflexivity.
Qed.

Lemma compare_Eq a b : String.compare a b = Eq -> a = b.
Proof. apply String.compare_eq_iff. Qed.

Lemma insert_key_In x k ks : In x (insert_key k ks) <-> x = k \/ In x ks.
Proof.
  induction ks as [|k' ks IH]; simpl.
  - intuition.
  - destruct (String.compare k k') eqn:E; simpl.
    + apply compare_Eq in E. subst. intuition.
    + intuition.
    + rewrite IH. intuition.
Qed.

Lemma insert_key_sorted k ks :
  StronglySorted str_lt ks -> StronglySorted str_lt (insert_key k ks).
Proof.
  induction 1 as [|k' ks Hs IH Hall]; simpl.
  - repeat constructor.
  - destruct (String.compare k k') eqn:E.
    + now constructor.
    + apply compare_Lt in E. constructor; [now constructor|].
      constructor; [exact E|].
      eapply Forall_impl; [|exact Hall]. intros c. now apply str_lt_trans.
    + apply compare_Gt in E. constructor; [exact IH|].
      apply Forall_forall. intros x Hx. apply insert_key_In in Hx.
      destruct Hx as [-> | Hx]; [exact E|].
      exact (proj1 (Forall_forall _ _) Hall _ Hx).
Qed.

Lemma group_keys_sorted rs : StronglySorted str_lt (group_keys rs).
Proof.
  unfold group_keys. induction (map company rs) as [|k ks IH]; simpl.
  - constructor.
  - now apply insert_key_sorted.
Qed.

Lemma group_keys_In k rs : In k (group_keys rs) <-> In k (map company rs).
Proof.
  unfold group_keys. induction (map company rs) as [|k' ks IH]; simpl.
  - reflexivity.
  - rewrite insert_key_In, IH. intuition.
Qed.

(** a strictly sorted list is determined by its members *)
Lemma sorted_unique l : forall l',
  StronglySorted str_lt l -> StronglySorted str_lt l' ->
  (forall x, In x l <-> In x l') -> l = l'.
Proof.
  induction l as [|a l IH]; intros [|b l'] Hl Hl' Hmem.
  - reflexivity.
  - exfalso. apply (proj2 (Hmem b)). now left.
  - exfalso. apply (proj1 (Hmem a)). now left.
  - apply StronglySorted_inv in Hl, Hl'.
    destruct Hl as [Hl Ha], Hl' as [Hl' Hb].
    rewrite Forall_forall in Ha, Hb.
    assert (E : a = b).
    { destruct (proj1 (Hmem a) (or_introl eq_refl)) as [E | Hin];
        [now symmetry|].
      destruct (proj2 (Hmem b) (or_introl eq_refl)) as [E | Hin'];
        [exact E|].
      exfalso. apply (str_lt_irrefl a).
      eapply str_lt_trans; [apply Ha, Hin' | apply Hb, Hin]. }
    subst b. f_equal. apply IH; try assumption.
    intros x. split; intros Hx.
    + destruct (proj1 (Hmem x) (or_intror Hx)) as [<- | H]; [|exact H].
      exfalso. exact (str_lt_irrefl _ (Ha _ Hx)).
    + destruct (proj2 (Hmem x) (or_intror Hx)) as [<- | H]; [|exact H].
      exfalso. exact (str_lt_irrefl _ (Hb _ Hx)).
Qed.

Lemma group_keys_Permutation rs rs' :
  Permutation rs rs' -> group_keys rs = group_keys rs'.
Proof.
  intros H. apply sorted_unique; try apply group_keys_sorted.
  intros k. rewrite !group_keys_In.
  split; apply Permutation_in; [|symmetry]; now apply Permutation_map.
Qed.

End KeyOrder.

Section OrderIndependence.

Variable A : arith.
Variables data data' : list Transaction.
Hypothesis Hperm : Permutation data data'.
Hypothesis Hin : a_sum A (map credit data) = a_sum A (map credit data').
Hypothesis Hout : a_sum A (map debit data) = a_sum A (map debit data').
Hypothesis Hgroups :
  groupby_with A (credit_rows data) = groupby_with A (credit_rows data').

Lemma grand_totals_with_Permutation :
  grand_totals_with A data = grand_totals_with A data'.
Proof. unfold grand_totals_with. now rewrite Hin, Hout. Qed.

(** the industry and the round-amount rule look at the rows of a company
    through [any], which does not see their order *)
Lemma detect_rules_Permutation p (txns txns' : list Transaction) :
  Permutation txns txns' -> detect_rules p txns = detect_rules p txns'.
Proof.
  intros H. unfold detect_rules, round_pattern.
  rewrite !mismatch_loop_existsb.
  rewrite (existsb_Permutation _ _ (map (fun t => py_str (desc t)) txns'))
    by now apply Permutation_map.
  rewrite (existsb_Permutation is_round _
             (filter (fun c => PyFloat.gtb c PyFloat.zero) (map credit txns')))
    by now apply Permutation_filter, Permutation_map.
  reflexivity.
Qed.

Lemma assess_with_Permutation t i entry :
  assess_with A data t i entry = assess_with A data' t i entry.
Proof.
  unfold assess_with.
  rewrite (detect_rules_Permutation _ _
             (filter (fun t0 => String.eqb (company t0) (fst entry)
                                && PyFloat.gtb (credit t0) PyFloat.zero) data'))
    by now apply Permutation_filter.
  reflexivity.
Qed.

Lemma assess_all_with_Permutation t top : forall i,
  assess_all_with A data t i top = assess_all_with A data' t i top.
Proof.
  induction top as [|entry rest IH]; intros i; simpl; [reflexivity|].
  now rewrite assess_with_Permutation, IH.
Qed.

Lemma analyse_with_Permutation : analyse_with A data = analyse_with A data'.
Proof.
  unfold analyse_with, top5_with.
  rewrite grand_totals_with_Permutation, Hgroups.
  destruct (PyFloat.leb _ _); [reflexivity|].
  now rewrite assess_all_with_Permutation.
Qed.

End OrderIndependence.

Lemma load_tables_Permutation files files' :
  Permutation files files' -> Permutation (load_tables files) (load_tables files').
Proof.
  induction 1 as [| x l l' _ IH | x y l | l l' l'' _ IH1 _ IH2];
    cbn [load_tables].
  - constructor.
  - destruct x as [df|e]; [destruct (load_table df)|];
      try exact IH. now constructor.
  - destruct x as [dx|ex], y as [dy|ey];
      try destruct (load_table dx); try destruct (load_table dy);
      try reflexivity.
    apply perm_swap.
  - now transitivity (load_tables l').
Qed.

Lemma loaded_headers_Permutation files files' :
  Permutation files files' ->
  Permutation (loaded_headers files) (loaded_headers files').
Proof.
  induction 1 as [| x l l' _ IH | x y l | l l' l'' _ IH1 _ IH2];
    cbn [loaded_headers].
  - constructor.
  - destruct x as [df|e]; [destruct (load_table df)|];
      try exact IH. now constructor.
  - destruct x as [dx|ex], y as [dy|ey];
      try destruct (load_table dx); try destruct (load_table dy);
      try reflexivity.
    apply perm_swap.
  - now transitivity (loaded_headers l').
Qed.

Lemma forallb_Permutation {X : Type} (p : X -> bool) l l' :
  Permutation l l' -> forallb p l = forallb p l'.
Proof.
  induction 1 as [| x l l' _ IH | x y l | l l' l'' _ IH1 _ IH2];
    cbn [forallb]; try congruence.
  now destruct (p x), (p y).
Qed.

Lemma same_header_iff h h' : same_header h h' = true <-> h = h'.
Proof.
  unfold same_header. destruct (list_eq_dec string_dec h h'); split;
    congruence.
Qed.

Lemma all_same_iff hs :
  all_same hs = true <-> forall h h', In h hs -> In h' hs -> h = h'.
Proof.
  destruct hs as [|h0 rest]; cbn [all_same].
  { split; [intros _ h h' []|reflexivity]. }
  rewrite forallb_forall. split.
  - intros H h h' Hh Hh'.
    assert (E : forall x, In x (h0 :: rest) -> h0 = x).
    { intros x [<-|Hx]; [reflexivity|]. now apply same_header_iff, H. }
    now rewrite <- (E h Hh), <- (E h' Hh').
  - intros H x Hx. apply same_header_iff. apply H; [now left|now right].
Qed.

Lemma all_same_Permutation hs hs' :
  Permutation hs hs' -> all_same hs = all_same hs'.
Proof.
  intros H.
  assert (E : all_same hs = true <-> all_same hs' = true).
  { rewrite !all_same_iff. split; intros Hs h h' Hh Hh'; apply Hs;
      first [ now apply (Permutation_in _ H)
            | now apply (Permutation_in _ (Permutation_sym H)) ]. }
  destruct (all_same hs), (all_same hs'); try reflexivity;
    [symmetry; now apply E | now apply E].
Qed.

(** neither the merge nor the selections after it see the order of the
    tables when they raise *)
Lemma run_analysis_by_Permutation after after' files files' :
  Permutation files files' ->
  after (concat (load_tables files)) = after' (concat (load_tables files')) ->
  run_analysis_by after files = run_analysis_by after' files'.
Proof.
  intros H Hafter.
  pose proof (load_tables_Permutation _ _ H) as Hl.
  pose proof (loaded_headers_Permutation _ _ H) as Hh.
  unfold run_analysis_by.
  destruct files as [|f fs].
  { apply Permutation_nil in H. now subst. }
  destruct files' as [|f' fs'].
  { symmetry in H. apply Permutation_nil in H. discriminate. }
  unfold concat_raises, merged_repeats.
  rewrite (all_same_Permutation _ _ Hh), (forallb_Permutation distinct _ _ Hh),
    !(existsb_Permutation _ _ _ Hh).
  destruct (load_tables (f :: fs)) as [|d ds].
  { apply Permutation_nil in Hl. now rewrite Hl. }
  destruct (load_tables (f' :: fs')) as [|d' ds'].
  { symmetry in Hl. apply Permutation_nil in Hl. discriminate. }
  now rewrite Hafter.
Qed.

Lemma run_analysis_by_ext after after' files :
  (forall data, after data = after' data) ->
  run_analysis_by after files = run_analysis_by after' files.
Proof.
  intros E. unfold run_analysis_by. destruct files; [reflexivity|].
  destruct (load_tables _); [reflexivity|]. now rewrite E.
Qed.

(** with the exact operations the pipeline is [run_analysis] *)
Lemma assess_all_with_exact data t top : forall i,
  assess_all_with exact_arith data t i top = assess_all data t i top.
Proof.
  induction top as [|e top IH]; intros i; cbn [assess_all_with assess_all];
    [reflexivity|].
  now rewrite IH.
Qed.

Lemma run_analysis_with_exact files :
  run_analysis_with exact_arith files = run_analysis files.
Proof.
  unfold run_analysis_with, run_analysis. apply run_analysis_by_ext.
  intros data. unfold analyse_with, analyse.
  change (grand_totals_with exact_arith) with grand_totals.
  destruct (PyFloat.leb _ _); [reflexivity|]. f_equal.
  apply assess_all_with_exact.
Qed.

(** [Binary64] against the floats of the kernel, on the credits 13447.55,
    28793.22 and 2659.23: the two sums, and ten times the share of the
    first credit in each of them, which [rint] takes to 299 and to 300 *)
Lemma binary64_as_the_kernel_computes :
  let a := Kernel.decimal 1344755 100 in
  let b := Kernel.decimal 2879322 100 in
  let c := Kernel.decimal 265923 100 in
  let scaled t :=
    PrimFloat.mul (PrimFloat.mul (PrimFloat.div a t) (Kernel.of_Z 100))
                  (Kernel.of_Z 10) in
  let scaled64 t :=
    Binary64.mul (Binary64.mul (Binary64.div (Kernel.value a) t)
                               (PyFloat.of_Z 100))
                 (PyFloat.of_Z 10) in
  let data := concat (load_tables [Returns alpha_table; Returns others_table]) in
  let data' := concat (load_tables [Returns others_table; Returns alpha_table]) in
  Kernel.value (Kernel.sum [a; b; c]) = a_sum binary64 (map credit data)
  /\ Kernel.value (Kernel.sum [b; c; a]) = a_sum binary64 (map credit data')
  /\ Kernel.value (scaled (Kernel.sum [a; b; c]))
     = scaled64 (a_sum binary64 (map credit data))
  /\ Kernel.value (scaled (Kernel.sum [b; c; a]))
     = scaled64 (a_sum binary64 (map credit data')).
Proof. cbv zeta. repeat split; floats_equal. Qed.

(** C5 (as stated, refuted): in binary64 the credits 13447.55, 28793.22 and
    2659.23 add up to 44900.000000000007 in this order and to 44900 when
    the first comes last; the share of the first is then 29.9 or 30.0, and
    its company is rated Safe when its statement is presented first and
    Medium when it is presented second. *)
Lemma table_order_changes_rating : ~ order_independent binary64.
Proof.
  intros H.
  specialize (H [Returns alpha_table; Returns others_table]
                [Returns others_table; Returns alpha_table]
                (perm_swap _ _ [])).
  apply (f_equal ratings) in H. vm_compute in H. discriminate H.
Qed.

(** C5 (amended): presenting the same tables in another order gives the
    same merged rows up to their order and the same companies; whatever the
    arithmetic, the result (the grand totals and the ordered ranked records)
    is the same as soon as the sum of the credit column, the sum of the
    debit column and the summed credit of every company come out the same
    in both orders.  The order of the tables acts on the result through
    these sums alone. *)
Theorem table_order_acts_through_sums
        (A : arith) (files files' : list (result DataFrame)) :
  Permutation files files' ->
  let data := concat (load_tables files) in
  let data' := concat (load_tables files') in
  Permutation data data'
  /\ group_keys (credit_rows data) = group_keys (credit_rows data')
  /\ (a_sum A (map credit data) = a_sum A (map credit data') ->
      a_sum A (map debit data) = a_sum A (map debit data') ->
      groupby_with A (credit_rows data) = groupby_with A (credit_rows data') ->
      run_analysis_with A files = run_analysis_with A files').
Proof.
  intros H data data'.
  pose proof (load_tables_Permutation _ _ H) as Hl.
  assert (Hd : Permutation data data') by apply Permutation_concat, Hl.
  split; [exact Hd|]. split.
  { apply group_keys_Permutation, Permutation_filter, Hd. }
  intros Hin Hout Hg. unfold run_analysis_with.
  apply run_analysis_by_Permutation; [exact H|].
  now apply analyse_with_Permutation.
Qed.

(** the two statements and a file that cannot be read, in two orders, in
    binary64, as an instance of C5: the three sums are the same *)
Lemma table_order_acts_through_sums_witness :
  run_analysis_with binary64
    [Returns statement_a; Raises ValueError; Returns statement_b]
  = run_analysis_with binary64
      [Returns statement_b; Returns statement_a; Raises ValueError].
Proof.
  assert (H : Permutation
                [Returns statement_a; Raises ValueError; Returns statement_b]
                [Returns statement_b; Returns statement_a; Raises ValueError]).
  { apply Permutation_sym.
    apply (Permutation_cons_app [Returns statement_a; Raises ValueError] []).
    reflexivity. }
  apply (proj2 (proj2 (table_order_acts_through_sums binary64 _ _ H)));
    floats_equal.
Defined.

(** ** Aggregation: ranking and ties *)

Section FloatOrder.

Import PyFloat.

Lemma ltb_Fin a b : ltb (Fin a) (Fin b) = true <-> (a < b)%Qc.
Proof.
  unfold ltb. simpl. rewrite Qclt_alt.
  destruct (Qccompare a b); split; congruence.
Qed.

Lemma ltb_Fin_false a b : ltb (Fin a) (Fin b) = false <-> (b <= a)%Qc.
Proof.
  rewrite <- not_true_iff_false, ltb_Fin. split.
  - apply Qcnot_lt_le.
  - apply Qcle_not_lt.
Qed.

Lemma gtb_asym a b : gtb a b = true -> gtb b a = false.
Proof.
  unfold gtb.
  destruct a as [x|[]|], b as [y|[]|]; try (unfold ltb; simpl; congruence).
  rewrite ltb_Fin, ltb_Fin_false. apply Qclt_le_weak.
Qed.

Lemma gtb_irrefl a : gtb a a = false.
Proof.
  destruct (gtb a a) eqn:E; [|reflexivity].
  now rewrite (gtb_asym _ _ E) in E.
Qed.

(** on values that are not nan the order is total *)
Lemma gtb_total a b :
  is_nan a = false -> is_nan b = false ->
  gtb b a = false -> gtb a b = true \/ a = b.
Proof.
  unfold gtb.
  destruct a as [x|[]|], b as [y|[]|];
    try (unfold ltb; simpl; solve [congruence | auto]).
  intros _ _. rewrite ltb_Fin_false, ltb_Fin. intros H.
  destruct (Qcle_lt_or_eq _ _ H) as [Hlt | ->]; auto.
Qed.

Lemma geb_trans a b c :
  is_nan a = false -> is_nan b = false -> is_nan c = false ->
  gtb b a = false -> gtb c b = false -> gtb c a = false.
Proof.
  unfold gtb.
  destruct a as [x|[]|], b as [y|[]|], c as [z|[]|];
    try (unfold ltb; simpl; congruence).
  intros _ _ _. rewrite !ltb_Fin_false. intros H1 H2.
  eapply Qcle_trans; eassumption.
Qed.

Lemma gtb_not_nan a b : gtb a b = true -> is_nan a = false /\ is_nan b = false.
Proof.
  unfold gtb, ltb. destruct a as [x|[]|], b as [y|[]|]; simpl; auto; discriminate.
Qed.

Lemma float_add_zero_l x : add zero x = x.
Proof.
  destruct x as [q| |]; simpl; try reflexivity.
  f_equal. change (Q2Qc (inject_Z 0)) with 0%Qc. apply Qcplus_0_l.
Qed.

Lemma gtb_zero_Fin q : gtb (Fin q) zero = true <-> (0 < q)%Qc.
Proof. unfold gtb, zero, of_Z. now rewrite ltb_Fin. Qed.

Lemma float_add_positive a b :
  gtb a zero = true -> gtb b zero = true -> gtb (add a b) zero = true.
Proof.
  intros Ha Hb.
  destruct (gtb_zero_inv _ Ha) as [(x & -> & Hx) | ->];
    destruct (gtb_zero_inv _ Hb) as [(y & -> & Hy) | ->];
    try reflexivity.
  simpl add. apply gtb_zero_Fin.
  apply Qclt_le_trans with (y := (0 + y)%Qc).
  - now rewrite Qcplus_0_l.
  - apply Qcplus_le_compat; [now apply Qclt_le_weak | apply Qcle_refl].
Qed.

Lemma fold_add_positive l : forall acc,
  gtb acc zero = true -> Forall (fun v => gtb v zero = true) l ->
  gtb (fold_left add l acc) zero = true.
Proof.
  induction l as [|v l IH]; intros acc Hacc Hall; simpl; [exact Hacc|].
  inversion Hall; subst. apply IH; [now apply float_add_positive | assumption].
Qed.

Lemma filter_not_nan_positive l :
  Forall (fun v => gtb v zero = true) l ->
  filter (fun x => negb (is_nan x)) l = l.
Proof.
  induction 1 as [|v l Hv _ IH]; simpl; [reflexivity|].
  destruct (gtb_not_nan _ _ Hv) as [-> _]. simpl. now rewrite IH.
Qed.

(** the sum of a non-empty series of positive values is positive *)
Lemma series_sum_positive l :
  l <> [] -> Forall (fun v => gtb v zero = true) l ->
  gtb (series_sum l) zero = true.
Proof.
  intros Hne Hall. unfold series_sum.
  rewrite filter_not_nan_positive by exact Hall.
  destruct l as [|v l]; [congruence|]. cbn [fold_left]. rewrite float_add_zero_l.
  inversion Hall; subst. now apply fold_add_positive.
Qed.

End FloatOrder.

Section Ranking.

Lemma insert_desc_In x e l : In e (insert_desc x l) <-> e = x \/ In e l.
Proof.
  induction l as [|y l IH]; simpl.
  - intuition.
  - destruct (PyFloat.gtb (snd y) (snd x)); simpl.
    + rewrite IH. intuition.
    + intuition.
Qed.

Lemma insert_desc_Permutation x l : Permutation (insert_desc x l) (x :: l).
Proof.
  induction l as [|y l IH]; simpl; [reflexivity|].
  destruct (PyFloat.gtb (snd y) (snd x)); [|reflexivity].
  rewrite IH. apply perm_swap.
Qed.

Lemma sort_desc_Permutation l : Permutation (sort_desc l) l.
Proof.
  induction l as [|x l IH]; simpl; [constructor|].
  rewrite insert_desc_Permutation. now constructor.
Qed.

(** inserting an entry whose name precedes all the names present *)
Lemma insert_desc_sorted x l :
  StronglySorted ranks_before l ->
  is_nan (snd x) = false ->
  Forall (fun e => is_nan (snd e) = false /\ str_lt (fst x) (fst e)) l ->
  StronglySorted ranks_before (insert_desc x l).
Proof.
  intros Hs Hx. induction Hs as [|y l Hs IH Hy]; intros Hall; simpl.
  - repeat constructor.
  - inversion Hall as [|? ? [Hny Hxy] Hall']; subst.
    destruct (PyFloat.gtb (snd y) (snd x)) eqn:E.
    + constructor; [now apply IH|].
      apply Forall_forall. intros e He. apply insert_desc_In in He.
      destruct He as [-> | He]; [now left|].
      exact (proj1 (Forall_forall _ _) Hy _ He).
    + assert (Hxy' : ranks_before x y).
      { destruct (gtb_total _ _ Hx Hny E) as [H | H]; [now left | now right]. }
      constructor; [now constructor|].
      constructor; [exact Hxy'|].
      apply Forall_forall. intros e He.
      pose proof (proj1 (Forall_forall _ _) Hy _ He) as Hye.
      destruct (proj1 (Forall_forall _ _) Hall' _ He) as [Hne Hxe].
      assert (Hge : PyFloat.gtb (snd e) (snd x) = false).
      { apply geb_trans with (b := snd y); try assumption.
        destruct Hye as [H | [H _]].
        - now apply gtb_asym.
        - rewrite H. apply gtb_irrefl. }
      destruct (gtb_total _ _ Hx Hne Hge) as [H | H]; [now left | now right].
Qed.

Lemma sort_desc_sorted l :
  StronglySorted str_lt (map fst l) ->
  Forall (fun e => is_nan (snd e) = false) l ->
  StronglySorted ranks_before (sort_desc l).
Proof.
  induction l as [|x l IH]; intros Hs Hn; simpl; [constructor|].
  apply StronglySorted_inv in Hs. destruct Hs as [Hs Hx].
  inversion Hn as [|? ? Hnx Hnl]; subst.
  apply insert_desc_sorted; [now apply IH | exact Hnx |].
  apply Forall_forall. intros e He.
  apply (Permutation_in _ (sort_desc_Permutation l)) in He.
  split.
  - exact (proj1 (Forall_forall _ _) Hnl _ He).
  - rewrite Forall_forall in Hx. apply Hx. now apply in_map.
Qed.

Lemma groupby_keys rs : map fst (groupby_credit_sum rs) = group_keys rs.
Proof. unfold groupby_credit_sum. rewrite map_map. simpl. apply map_id. Qed.

Lemma credit_rows_positive data :
  Forall (fun t => PyFloat.gtb (credit t) PyFloat.zero = true) (credit_rows data).
Proof. apply Forall_forall. intros t Ht. now apply filter_In in Ht. Qed.

(** every group of the rows with a positive credit has a positive sum *)
Lemma group_sum_positive data e :
  In e (groupby_credit_sum (credit_rows data)) ->
  snd e = group_credit data (fst e)
  /\ In (fst e) (map company (credit_rows data))
  /\ PyFloat.gtb (snd e) PyFloat.zero = true.
Proof.
  unfold groupby_credit_sum. intros He. apply in_map_iff in He.
  destruct He as (k & <- & Hk). apply group_keys_In in Hk.
  split; [reflexivity|]. split; [exact Hk|]. cbn [snd].
  apply in_map_iff in Hk. destruct Hk as (t & Ht & Hin).
  apply series_sum_positive.
  - intros E. apply map_eq_nil in E.
    assert (Hg : In t (group_rows (credit_rows data) k)).
    { apply filter_In. split; [exact Hin|]. rewrite Ht. apply String.eqb_refl. }
    rewrite E in Hg. exact Hg.
  - apply Forall_map. apply Forall_forall. intros t' Ht'.
    apply filter_In in Ht'. destruct Ht' as [Ht' _].
    exact (proj1 (Forall_forall _ _) (credit_rows_positive data) _ Ht').
Qed.

Lemma assess_all_companies data t top : forall i,
  map row_company (assess_all data t i top) = map fst top.
Proof.
  induction top as [|e top IH]; intros i; simpl; [reflexivity|].
  rewrite IH. f_equal; unfold assess;
    destruct (detect_rules _ _) as [ids flags];
    now destruct (build_policy_actions _ _).
Qed.

End Ranking.

(** C4 (as stated, refuted): six companies with equal inflow, entered in
    descending name order; the company seen first is not among the five
    selected, although companies seen after it are. *)
Lemma first_seen_company_can_lose_tie : ~ first_seen_wins tie_data.
Proof.
  intros H.
  destruct (H eq_refl "ZED TRADING" "YAM TRADING" 0%nat 1%nat 4%nat)
    as (ra & Hra & _);
    try (vm_compute; reflexivity).
  vm_compute in Hra. discriminate Hra.
Qed.

(** C4 (amended): the five selected are the head of the ranking of all
    groups in which a larger summed credit comes first and, of two groups
    with equal summed credit, the one with the smaller company name (the
    order of the sorted group keys) comes first; the rows shown follow that
    selection. *)
Theorem top5_ties_by_company_name (data : list Transaction) :
  exists ranking,
    top5 data = firstn 5 ranking
    /\ Permutation ranking (groupby_credit_sum (credit_rows data))
    /\ StronglySorted ranks_before ranking
    /\ forall t, map row_company (assess_all data t 0 (top5 data))
                 = map fst (top5 data).
Proof.
  exists (sort_desc (groupby_credit_sum (credit_rows data))).
  split; [reflexivity|]. split; [apply sort_desc_Permutation|]. split.
  - apply sort_desc_sorted.
    + rewrite groupby_keys. apply group_keys_sorted.
    + apply Forall_forall. intros e He.
      destruct (group_sum_positive _ _ He) as (_ & _ & Hpos).
      exact (proj1 (gtb_not_nan _ _ Hpos)).
  - intros t. apply assess_all_companies.
Qed.

(** ** Aggregation: shares *)

Section Rationals.

Lemma this_Q2Qc q : (this (Q2Qc q) == q)%Q.
Proof. apply Qred_correct. Qed.

Lemma this_plus a b : (this (a + b)%Qc == this a + this b)%Q.
Proof. apply Qred_correct. Qed.

Lemma this_mult a b : (this (a * b)%Qc == this a * this b)%Q.
Proof. apply Qred_correct. Qed.

Lemma this_opp a : (this (- a)%Qc == - this a)%Q.
Proof. apply Qred_correct. Qed.

Lemma this_minus a b : (this (a - b)%Qc == this a - this b)%Q.
Proof. unfold Qcminus. rewrite this_plus, this_opp. reflexivity. Qed.

Lemma Qcle_this a b : (a <= b)%Qc <-> (this a <= this b)%Q.
Proof. reflexivity. Qed.

Lemma Qclt_this a b : (a < b)%Qc <-> (this a < this b)%Q.
Proof. reflexivity. Qed.

Lemma Qc_eq_this a b : a = b <-> (this a == this b)%Q.
Proof. split; [now intros -> | apply Qc_is_canon]. Qed.

End Rationals.

Ltac to_Q :=
  rewrite ?Qcle_this, ?Qclt_this, ?Qc_eq_this in *;
  rewrite ?this_minus, ?this_plus, ?this_mult, ?this_opp, ?this_Q2Qc in *.

Section Rounding.

Import PyFloat.

(** [rint] is the floor or the floor plus one *)
Lemma rint_cases x :
  (rint x = Qfloor x /\ (this x - inject_Z (Qfloor x) <= 1 # 2)%Q)
  \/ (rint x = (Qfloor x + 1)%Z /\ (1 # 2 <= this x - inject_Z (Qfloor x))%Q).
Proof.
  unfold rint.
  destruct (Qccompare _ _) eqn:E.
  - apply Qceq_alt in E. to_Q.
    destruct (Z.even (Qfloor x)); [left | right]; split; try reflexivity;
      rewrite E; apply Qle_refl.
  - apply Qclt_alt in E. to_Q. left. split; [reflexivity|].
    now apply Qlt_le_weak.
  - apply Qcgt_alt in E. to_Q. right. split; [reflexivity|].
    now apply Qlt_le_weak.
Qed.

Lemma rint_nonneg x : (0 <= x)%Qc -> (0 <= rint x)%Z.
Proof.
  intros H. apply Qfloor_resp_le in H. change (Qfloor 0%Qc) with 0%Z in H.
  destruct (rint_cases x) as [[-> _] | [-> _]]; lia.
Qed.

End Rounding.

Section MoreLists.

Import PyFloat.
Local Open Scope Qc_scope.

Lemma this_div a b : (this (a / b)%Qc == this a / this b)%Q.
Proof.
  unfold Qcdiv. rewrite this_mult. unfold Qcinv. rewrite this_Q2Qc.
  reflexivity.
Qed.


Lemma filter_keeps_all {A : Type} (f : A -> bool) l :
  (forall x, In x l -> f x = true) -> filter f l = l.
Proof.
  induction l as [|x l IH]; intros H; simpl; [reflexivity|].
  rewrite (H x (or_introl eq_refl)), IH; [reflexivity|].
  intros y Hy. apply H. now right.
Qed.

Lemma In_firstn {A : Type} n (x : A) l : In x (firstn n l) -> In x l.
Proof.
  intros H. rewrite <- (firstn_skipn n l). apply in_or_app. now left.
Qed.

Lemma sorted_NoDup ks : StronglySorted str_lt ks -> NoDup ks.
Proof.
  induction 1 as [|k ks _ IH Hk]; constructor; [|exact IH].
  intros Hin. rewrite Forall_forall in Hk.
  exact (str_lt_irrefl _ (Hk _ Hin)).
Qed.

End MoreLists.

(** *** Values that are not negative *)

Section Signs.

Import PyFloat.
Local Open Scope Qc_scope.

Lemma not_negative_nn x : not_negative x <-> nn x.
Proof.
  unfold not_negative. destruct x as [q|[]|]; cbn [nn].
  - unfold zero, of_Z. apply ltb_Fin_false.
  - split; discriminate.
  - split; reflexivity.
  - split; [trivial | reflexivity].
Qed.

Lemma sign_neg_nonneg a : 0 <= a -> Qc_sign_neg a = false.
Proof.
  intros H. unfold Qc_sign_neg. destruct (Qccompare a 0) eqn:E; try reflexivity.
  apply Qclt_alt in E. exfalso. exact (Qcle_not_lt _ _ H E).
Qed.

Lemma Qcmult_nonneg a b : 0 <= a -> 0 <= b -> 0 <= a * b.
Proof.
  intros Ha Hb. to_Q. change (this 0) with 0%Q in *.
  now apply Qmult_le_0_compat.
Qed.

Lemma Qcdiv_nonneg a b : 0 <= a -> 0 <= b -> 0 <= a / b.
Proof.
  intros Ha Hb. to_Q. rewrite this_div. change (this 0) with 0%Q in *.
  apply Qmult_le_0_compat; [exact Ha | now apply Qinv_le_0_compat].
Qed.

Lemma nn_zero : nn zero.
Proof. cbn. apply Qcle_refl. Qed.

Lemma nn_of_Z z : (0 <= z)%Z -> nn (of_Z z).
Proof.
  intros H. cbn [of_Z nn]. apply Q2Qc_nonneg.
  change 0%Q with (inject_Z 0). now rewrite <- Zle_Qle.
Qed.

Lemma nn_add x y : nn x -> nn y -> nn (add x y).
Proof.
  destruct x as [a|[]|], y as [b|[]|]; cbn; try tauto; try discriminate.
  intros Ha Hb. rewrite <- (Qcplus_0_l 0). now apply Qcplus_le_compat.
Qed.

Lemma nn_mul x y : nn x -> nn y -> nn (mul x y).
Proof.
  destruct x as [a|[]|], y as [b|[]|]; cbn [nn mul]; try tauto;
    try discriminate.
  - apply Qcmult_nonneg.
  - intros Ha _. destruct (Qc_is_zero a); cbn [nn]; [trivial|].
    now rewrite (sign_neg_nonneg a Ha).
  - intros _ Hb. destruct (Qc_is_zero b); cbn [nn]; [trivial|].
    now rewrite (sign_neg_nonneg b Hb).
Qed.

Lemma nn_div x y : nn x -> nn y -> nn (div x y).
Proof.
  destruct x as [a|[]|], y as [b|[]|]; cbn [nn div]; try tauto;
    try discriminate.
  - intros Ha Hb. destruct (Qc_is_zero b); [destruct (Qc_is_zero a)|];
      cbn [nn]; [trivial | now rewrite (sign_neg_nonneg a Ha)
                | now apply Qcdiv_nonneg].
  - intros _ Hb. now rewrite (sign_neg_nonneg b Hb).
Qed.


Lemma nn_round1 x : nn x -> nn (round1 x).
Proof.
  destruct x as [q|s|]; cbn [round1 nn]; try tauto.
  intros H. apply Q2Qc_nonneg. unfold Qdiv.
  apply Qmult_le_0_compat; [|discriminate].
  change 0%Q with (inject_Z 0). rewrite <- Zle_Qle. apply rint_nonneg.
  apply Qcmult_nonneg; [exact H|]. now apply Q2Qc_nonneg.
Qed.









(** a total that is not zero or less is not negative *)
Lemma nn_total total : leb total zero = false -> nn total.
Proof.
  intros H. apply not_negative_nn. unfold not_negative.
  destruct total as [q|[]|]; try reflexivity; try discriminate H.
  unfold leb, ltb, zero, of_Z in *. cbn [cmp] in *.
  destruct (Qccompare q (Q2Qc (inject_Z 0))); try reflexivity; discriminate H.
Qed.

Lemma fold_nn (f : pyfloat -> pyfloat -> pyfloat) l :
  (forall a b, nn a -> nn b -> nn (f a b)) ->
  forall acc, nn acc -> Forall not_negative l ->
  nn (fold_left f (filter (fun x => negb (is_nan x)) l) acc).
Proof.
  intros Hf. induction l as [|v l IH]; intros acc Hacc Hl;
    cbn [filter fold_left]; [exact Hacc|].
  inversion Hl as [|? ? Hv Hl']; subst.
  destruct (negb (is_nan v)); [|now apply IH].
  cbn [fold_left]. apply IH; [|exact Hl'].
  apply Hf; [exact Hacc | now apply not_negative_nn].
Qed.

Lemma exact_sign_laws : sign_laws exact_arith.
Proof.
  split; cbn [exact_arith a_gsum a_share].
  - intros l Hl. apply not_negative_nn. unfold series_sum.
    apply (fold_nn add); [exact nn_add | exact nn_zero | exact Hl].
  - intros g total Hg Ht. apply not_negative_nn. unfold share_pct.
    apply nn_round1, nn_mul; [|now apply nn_of_Z].
    apply nn_div; [now apply not_negative_nn | now apply nn_total].
Qed.


End Signs.

(** *** The rows of a ranking, whatever the arithmetic *)

Section SharesWith.

Variable A : arith.







End SharesWith.


(** Even when no credit is negative the rounded shares can add up to more
    than 100: here 33.4 + 33.4 + 33.3. *)
Lemma rounded_shares_can_exceed_100 : ~ shares_within_100 thirds_data.
Proof.
  intros H.
  destruct (H eq_refl (grand_totals thirds_data)
              (assess_all thirds_data (total_in (grand_totals thirds_data)) 0
                          (top5 thirds_data)) eq_refl) as [_ Hsum].
  vm_compute in Hsum. discriminate Hsum.
Qed.




(** * Further properties of the code *)

(** ** Column resolver *)

Section FindCol.

Variables include_any include_all exclude_any : list string.

Lemma find_col_is_find cols :
  find_col cols include_any include_all exclude_any
  = find (qualifies include_any include_all exclude_any) cols.
Proof.
  unfold find_col, qualifies.
  induction cols as [|orig rest IH]; cbn [find_col_loop find]; [reflexivity|].
  rewrite IH. cbv zeta.
  set (c := PyStr.strip (PyStr.lower orig)).
  destruct exclude_any as [|e ex]; destruct include_all as [|a al];
    destruct include_any as [|i ia]; cbn [nonempty existsb forallb negb andb orb];
    repeat match goal with
           | |- context [PyStr.contains ?k c] =>
               destruct (PyStr.contains k c); cbn [negb andb orb]
           | |- context [existsb ?f ?l] =>
               destruct (existsb f l); cbn [negb andb orb]
           | |- context [forallb ?f ?l] =>
               destruct (forallb f l); cbn [negb andb orb]
           end; reflexivity.
Qed.

End FindCol.

Lemma find_split {A : Type} (f : A -> bool) l :
  match find f l with
  | Some x => exists pre post,
      l = pre ++ x :: post /\ f x = true /\ Forall (fun y => f y = false) pre
  | None => Forall (fun y => f y = false) l
  end.
Proof.
  induction l as [|a l IH]; cbn [find]; [constructor|].
  destruct (f a) eqn:E.
  - exists [], l. repeat split; [exact E | constructor].
  - destruct (find f l) as [x|].
    + destruct IH as (pre & post & -> & Hx & Hpre).
      exists (a :: pre), post. repeat split; [exact Hx | now constructor].
    + now constructor.
Qed.

(** X1: [find_col] returns the first column of the header that satisfies
    the criteria, with its original spelling, and [None] exactly when no
    column satisfies them. *)
Theorem find_col_first_match (cols include_any include_all exclude_any : list string) :
  match find_col cols include_any include_all exclude_any with
  | Some c =>
      exists pre post,
        cols = pre ++ c :: post
        /\ qualifies include_any include_all exclude_any c = true
        /\ Forall (fun x => qualifies include_any include_all exclude_any x = false) pre
  | None =>
      Forall (fun x => qualifies include_any include_all exclude_any x = false) cols
  end.
Proof. rewrite find_col_is_find. apply find_split. Qed.

Section DescriptionColumn.

Import PyStr.

Lemma startswith_app_l k k' s :
  startswith (k ++ k')%string s = true -> startswith k s = true.
Proof.
  revert s. induction k as [|a k IH]; intros s; [reflexivity|].
  destruct s as [|b s]; cbn [startswith String.append]; [discriminate|].
  intros H. apply andb_true_iff in H. destruct H as [-> H]. now apply IH.
Qed.

(** a text that holds a keyword holds every head of the keyword *)
Lemma contains_app_l k k' s :
  contains (k ++ k')%string s = true -> contains k s = true.
Proof.
  induction s as [|b s IH]; cbn [contains].
  - rewrite !orb_false_r. apply startswith_app_l.
  - intros H. apply orb_true_iff in H. apply orb_true_iff.
    destruct H as [H | H]; [left; now apply (startswith_app_l k k') | right; auto].
Qed.

Lemma find_none_Forall {A : Type} (f : A -> bool) l :
  find f l = None <-> Forall (fun y => f y = false) l.
Proof.
  split.
  - intros H. pose proof (find_split f l) as Hs. now rewrite H in Hs.
  - induction 1 as [|a l Ha _ IH]; cbn [find]; [reflexivity|]. now rewrite Ha.
Qed.

Lemma find_some_true {A : Type} (f : A -> bool) l x :
  find f l = Some x -> f x = true.
Proof.
  intros H. pose proof (find_split f l) as Hs. rewrite H in Hs.
  now destruct Hs as (_ & _ & _ & Hx & _).
Qed.

(** with keywords to include only, a column qualifies when its
    lower-case name holds one of them *)
Lemma qualifies_include_any ia orig :
  ia <> [] ->
  qualifies ia [] [] orig
  = existsb (fun x => contains x (strip (lower orig))) ia.
Proof. intros H. unfold qualifies. destruct ia; [congruence | reflexivity]. Qed.

(** the name a keyword search returns is not the empty text *)
Lemma find_col_not_empty cols ia :
  ia <> [] -> Forall (fun k => k <> EmptyString) ia ->
  find_col cols ia [] [] <> Some EmptyString.
Proof.
  intros Hne Hk H. rewrite find_col_is_find in H. apply find_some_true in H.
  rewrite qualifies_include_any in H by exact Hne.
  apply existsb_exists in H. destruct H as (k & Hin & Hc).
  rewrite Forall_forall in Hk. specialize (Hk k Hin).
  destruct k; [congruence | discriminate Hc].
Qed.

Lemma find_col_none cols ia :
  ia <> [] ->
  find_col cols ia [] [] = None
  <-> forall c k, In c cols -> In k ia -> contains k (strip (lower c)) = false.
Proof.
  intros Hne. rewrite find_col_is_find, find_none_Forall, Forall_forall. split.
  - intros H c k Hc Hk. specialize (H c Hc).
    rewrite qualifies_include_any in H by exact Hne.
    destruct (contains k (strip (lower c))) eqn:E; [|reflexivity].
    rewrite <- H. symmetry. apply existsb_exists. now exists k.
  - intros H c Hc. rewrite qualifies_include_any by exact Hne.
    apply not_true_iff_false. intros Hex. apply existsb_exists in Hex.
    destruct Hex as (k & Hk & Hck). rewrite (H c k Hc Hk) in Hck. discriminate.
Qed.

Lemma py_or_none a b :
  a <> Some EmptyString -> (py_or a b = None <-> a = None /\ b = None).
Proof.
  intros Ha. destruct a as [[|c s]|]; cbn [py_or].
  - congruence.
  - split; [discriminate | intros [H _]; discriminate H].
  - split; [now split | now intros [_ H]].
Qed.

Lemma py_or_not_empty a b :
  a <> Some EmptyString -> b <> Some EmptyString -> py_or a b <> Some EmptyString.
Proof. intros Ha Hb. destruct a as [[|c s]|]; cbn [py_or]; congruence. Qed.

Ltac keywords_ok :=
  first [ discriminate
        | repeat (apply Forall_cons; [discriminate|]); apply Forall_nil ].

Lemma resolve_desc_not_empty cols : resolve_desc cols <> Some EmptyString.
Proof.
  unfold resolve_desc.
  repeat (apply py_or_not_empty; [apply find_col_not_empty; keywords_ok|]).
  apply find_col_not_empty; keywords_ok.
Qed.

Lemma resolve_desc_none cols :
  resolve_desc cols = None
  <-> forall c k, In c cols -> In k DESC_KEYWORDS ->
        contains k (strip (lower c)) = false.
Proof.
  unfold resolve_desc.
  rewrite !py_or_none by (apply find_col_not_empty; keywords_ok).
  rewrite !find_col_none by discriminate.
  split.
  - intros (H1 & H2 & H3 & H4 & H5) c k Hc Hk.
    unfold DESC_KEYWORDS in Hk. cbn [In] in Hk.
    destruct Hk as [<- | [<- | [<- | [<- | [<- | []]]]]].
    + apply (H2 c); [exact Hc | now left].
    + apply (H3 c); [exact Hc | now left].
    + apply (H3 c); [exact Hc | right; now left].
    + apply (H4 c); [exact Hc | now left].
    + apply (H5 c); [exact Hc | now left].
  - intros H.
    assert (Hk : forall c k, In c cols -> In k DESC_KEYWORDS ->
                   contains k (strip (lower c)) = false) by exact H.
    unfold DESC_KEYWORDS in H. cbn [In] in H.
    repeat split; intros c k Hc Hin; cbn [In] in Hin.
    + destruct Hin as [<- | []].
      apply not_true_iff_false. intros Hd.
      change "description" with ("desc" ++ "ription")%string in Hd.
      apply contains_app_l in Hd. rewrite (H c "desc" Hc) in Hd; [discriminate|].
      now left.
    + destruct Hin as [<- | []]. apply (H c); auto.
    + destruct Hin as [<- | [<- | []]]; apply (H c); auto 6.
    + destruct Hin as [<- | []]. apply (H c); auto 6.
    + destruct Hin as [<- | []]. apply (H c); auto 8.
Qed.

End DescriptionColumn.

(** X2: a table is skipped exactly when no column of its header holds,
    in any case, one of the keywords desc, transaction, details, narration
    or particular; credit and debit columns play no part in it. *)
Theorem load_table_skipped_iff (df : DataFrame) :
  load_table df = Skipped
  <-> forall c k, In c (columns df) -> In k DESC_KEYWORDS ->
        PyStr.contains k (PyStr.strip (PyStr.lower (PyStr.strip c))) = false.
Proof.
  assert (E : load_table df = Skipped
              <-> resolve_desc (map PyStr.strip (columns df)) = None).
  { unfold load_table.
    pose proof (resolve_desc_not_empty (map PyStr.strip (columns df))) as Hne.
    destruct (resolve_desc (map PyStr.strip (columns df))) as [[|c s]|];
      cbn [PyStr.truthy]; try destruct (derivation_raises _ _ _ _);
      split; congruence. }
  rewrite E, resolve_desc_none. split.
  - intros H c k Hc Hk. apply H; [now apply in_map | exact Hk].
  - intros H c k Hc Hk. apply in_map_iff in Hc. destruct Hc as (c0 & <- & Hc0).
    now apply H.
Qed.

(** ** The analysis: risk, action level and popup *)

Section RiskAndAction.

(** the three outcomes of one counterparty *)
Lemma assess_outcome data t i e :
  let r := assess data t i e in
  UI.tag_of (risk r) = PyStr.lower (risk r)
  /\ ((risk r = "Safe" /\ row_action_level r = "Standard"
       /\ row_actions r = action (matrix_at "STANDARD_SAFE"))
      \/ (risk r = "Medium"
          /\ In (row_action_level r)
                ["Enhanced Review"; "Clarification Required";
                 "Cash Flow Normalization"])
      \/ (risk r = "High" /\ row_action_level r = "Escalate")).
Proof.
  unfold assess, detect_rules.
  destruct (PyFloat.geb _ _), (mismatch_loop _), (round_pattern _);
    vm_compute; split; try reflexivity;
    first [ left; repeat split; reflexivity
          | right; left; split; [reflexivity | auto 6]
          | right; right; split; reflexivity ].
Qed.

Lemma assess_all_In data t top r : forall i,
  In r (assess_all data t i top) -> exists j e, r = assess data t j e.
Proof.
  induction top as [|e top IH]; intros i; cbn [assess_all In]; [tauto|].
  intros [<- | H]; [now exists i, e | exact (IH _ H)].
Qed.

Lemma run_analysis_ranked files t ranking :
  run_analysis files = Ranked t ranking ->
  exists data, analyse data = Ranked t ranking.
Proof.
  unfold run_analysis, run_analysis_by. destruct files; [discriminate|].
  destruct (load_tables _) as [|d ds]; [discriminate|].
  destruct (_ || _); [discriminate|].
  destruct (analyse _) as [| | |t' ranking'|] eqn:E; try discriminate.
  destruct (merged_repeats _ _); [discriminate|].
  intros [= <- <-]. eauto.
Qed.

Lemma analyse_ranked_inv data t ranking :
  analyse data = Ranked t ranking ->
  t = grand_totals data
  /\ PyFloat.leb (total_in t) PyFloat.zero = false
  /\ ranking = assess_all data (total_in t) 0 (top5 data).
Proof.
  unfold analyse. destruct (PyFloat.leb _ _) eqn:E; [discriminate|].
  intros H. injection H as <- <-. auto.
Qed.

End RiskAndAction.

(** X3: in every result of [run_analysis], a row rated Safe has the
    action level Standard with the standard action text, a row rated Medium
    has the level of its single rule (Enhanced Review, Clarification
    Required or Cash Flow Normalization), and a row rated High has the level
    Escalate; no other rating occurs, the level Monitor is never shown, and
    the colour tag is the rating in lower case. *)
Theorem rating_determines_action_level
        (files : list (result DataFrame)) (t : totals) (ranking : list ranked_row) :
  run_analysis files = Ranked t ranking ->
  Forall (fun r =>
            UI.tag_of (risk r) = PyStr.lower (risk r)
            /\ row_action_level r <> "Monitor"
            /\ ((risk r = "Safe" /\ row_action_level r = "Standard"
                 /\ row_actions r = action (matrix_at "STANDARD_SAFE"))
                \/ (risk r = "Medium"
                    /\ In (row_action_level r)
                          ["Enhanced Review"; "Clarification Required";
                           "Cash Flow Normalization"])
                \/ (risk r = "High" /\ row_action_level r = "Escalate")))
         ranking.
Proof.
  intros H. apply run_analysis_ranked in H. destruct H as [data H].
  apply analyse_ranked_inv in H. destruct H as (_ & _ & ->).
  apply Forall_forall. intros r Hr. apply assess_all_In in Hr.
  destruct Hr as (j & e & ->).
  destruct (assess_outcome data (total_in t) j e) as [Htag Hcases].
  split; [exact Htag|]. split; [|exact Hcases].
  destruct Hcases as [(_ & -> & _) | [(_ & Hin) | (_ & ->)]];
    try discriminate.
  cbn [In] in Hin. intros E. rewrite E in Hin.
  destruct Hin as [Hin | [Hin | [Hin | []]]]; discriminate Hin.
Qed.

(** the two statements of one business, as an instance of X3 *)
Lemma rating_determines_action_level_witness :
  exists t ranking,
    run_analysis [Returns statement_a; Returns statement_b] = Ranked t ranking
    /\ Forall (fun r => row_action_level r <> "Monitor") ranking.
Proof.
  destruct (run_analysis [Returns statement_a; Returns statement_b])
    as [| | |t ranking|] eqn:E; try (vm_compute in E; discriminate E).
  exists t, ranking. split; [reflexivity|].
  eapply Forall_impl; [|exact (rating_determines_action_level _ _ _ E)].
  intros r (_ & H & _). exact H.
Defined.

(** X4: the popup is requested exactly when some row is rated High, and
    every company it lists has the action level Escalate. *)
Theorem popup_lists_escalations
        (files : list (result DataFrame)) (t : totals) (ranking : list ranked_row) :
  run_analysis files = Ranked t ranking ->
  (popup_requested (run_analysis files) = true
   <-> exists r, In r ranking /\ risk r = "High")
  /\ Forall (fun e => snd e = "Escalate") (high_risk_companies ranking).
Proof.
  intros H. split.
  - rewrite H. cbn [popup_requested]. unfold high_risk_companies.
    rewrite nonempty_true. split.
    + intros Hne. destruct (filter _ ranking) as [|r l] eqn:E; [now elim Hne|].
      assert (Hin : In r (filter (fun r => String.eqb (risk r) "High") ranking))
        by (rewrite E; now left).
      apply filter_In in Hin. destruct Hin as [Hin Hr].
      exists r. split; [exact Hin | now apply String.eqb_eq].
    + intros (r & Hin & Hr) E. apply map_eq_nil in E.
      assert (Hf : In r (filter (fun r => String.eqb (risk r) "High") ranking)).
      { apply filter_In. split; [exact Hin|]. rewrite Hr. reflexivity. }
      rewrite E in Hf. exact Hf.
  - unfold high_risk_companies. apply Forall_map, Forall_forall.
    intros r Hr. apply filter_In in Hr. destruct Hr as [Hin Hr].
    apply String.eqb_eq in Hr. cbn [snd].
    apply run_analysis_ranked in H. destruct H as [data H].
    apply analyse_ranked_inv in H. destruct H as (_ & _ & ->).
    apply assess_all_In in Hin. destruct Hin as (j & e & ->).
    destruct (assess_outcome data (total_in t) j e)
      as [_ [(Hs & _) | [(Hs & _) | (_ & Hl)]]];
      [rewrite Hs in Hr; discriminate | rewrite Hs in Hr; discriminate | exact Hl].
Qed.

(** some High row of the two statements, as an instance of X4 *)
Lemma popup_lists_escalations_witness :
  exists t ranking,
    run_analysis [Returns statement_a; Returns statement_b] = Ranked t ranking
    /\ high_risk_companies ranking <> []
    /\ Forall (fun e => snd e = "Escalate") (high_risk_companies ranking).
Proof.
  destruct (run_analysis [Returns statement_a; Returns statement_b])
    as [| | |t ranking|] eqn:E; try (vm_compute in E; discriminate E).
  exists t, ranking. split; [reflexivity|]. split.
  - vm_compute in E. injection E as _ <-. discriminate.
  - exact (proj2 (popup_lists_escalations _ _ _ E)).
Defined.

(** ** The analysis: shape of the ranking *)

Section RankingShape.

Import PyFloat.

Lemma assess_all_rank data t top : forall i,
  map rank (assess_all data t i top) = seq (i + 1) (length top).
Proof.
  induction top as [|e top IH]; intros i; cbn [assess_all map length seq];
    [reflexivity|].
  rewrite IH. f_equal;
    try (unfold assess; destruct (detect_rules _ _) as [ids flags];
         now destruct (build_policy_actions _ _));
    try (f_equal; lia).
Qed.

Lemma assess_entry data t i e :
  (row_company (assess data t i e), inflow_amt (assess data t i e)) = e.
Proof.
  unfold assess. destruct (detect_rules _ _) as [ids flags].
  destruct (build_policy_actions _ _). now destruct e.
Qed.

Lemma assess_all_entry data t top r : forall i,
  In r (assess_all data t i top) -> In (row_company r, inflow_amt r) top.
Proof.
  induction top as [|e top IH]; intros i; cbn [assess_all In]; [tauto|].
  intros [<- | H]; [left; symmetry; apply assess_entry | right; exact (IH _ H)].
Qed.

Lemma assess_all_length data t top : forall i,
  length (assess_all data t i top) = length top.
Proof.
  induction top as [|e top IH]; intros i; cbn [assess_all length]; [reflexivity|].
  now rewrite IH.
Qed.

Lemma NoDup_firstn {A : Type} n (l : list A) : NoDup l -> NoDup (firstn n l).
Proof.
  intros H. rewrite <- (firstn_skipn n l) in H.
  exact (NoDup_app_remove_r _ _ H).
Qed.

Lemma top5_In data e :
  In e (top5 data) -> In e (groupby_credit_sum (credit_rows data)).
Proof.
  intros He. apply (Permutation_in _ (sort_desc_Permutation _)).
  unfold top5, nlargest in He. eapply In_firstn, He.
Qed.

Lemma top5_names_distinct data : NoDup (map fst (top5 data)).
Proof.
  unfold top5, nlargest. rewrite <- firstn_map. apply NoDup_firstn.
  apply (Permutation_NoDup
           (Permutation_sym (Permutation_map fst (sort_desc_Permutation _)))).
  rewrite groupby_keys. apply sorted_NoDup, group_keys_sorted.
Qed.

Lemma top5_length data :
  length (top5 data) = Nat.min 5 (length (group_keys (credit_rows data))).
Proof.
  unfold top5, nlargest. rewrite length_firstn.
  rewrite (Permutation_length (sort_desc_Permutation _)).
  unfold groupby_credit_sum. now rewrite length_map.
Qed.

(** values that are not above zero add up to a value that is not above
    zero *)
Lemma leb_zero_cases x :
  leb x zero = true <-> (exists q, x = Fin q /\ (q <= 0)%Qc) \/ x = Inf true.
Proof.
  unfold leb, zero, of_Z. destruct x as [q|[]|]; cbn [cmp].
  - change (Q2Qc (inject_Z 0)) with 0%Qc. split.
    + intros H. left. exists q. split; [reflexivity|].
      apply Qcle_alt. intros E. now rewrite E in H.
    + intros [(q' & E & Hq) | E]; [|discriminate]. injection E as ->.
      apply (proj1 (Qcle_alt _ _)) in Hq.
      destruct (Qccompare q' 0); congruence.
  - split; auto.
  - split; [discriminate|]. intros [(q & E & _) | E]; discriminate.
  - split; [discriminate|]. intros [(q & E & _) | E]; discriminate.
Qed.

Lemma not_positive_cases x :
  is_nan x = false -> gtb x zero = false -> leb x zero = true.
Proof.
  unfold gtb. destruct x as [q|[]|]; try discriminate; try reflexivity.
  intros _ H. unfold zero, of_Z in *. apply ltb_Fin_false in H.
  apply leb_zero_cases. left. exists q. split; [reflexivity | exact H].
Qed.

Lemma add_not_positive a b :
  leb a zero = true -> leb b zero = true -> leb (add a b) zero = true.
Proof.
  intros Ha Hb. apply leb_zero_cases in Ha, Hb. apply leb_zero_cases.
  destruct Ha as [(x & -> & Hx) | ->], Hb as [(y & -> & Hy) | ->];
    cbn [add Bool.eqb]; auto.
  left. eexists. split; [reflexivity|].
  rewrite <- (Qcplus_0_l 0). now apply Qcplus_le_compat.
Qed.

Lemma series_sum_not_positive l :
  Forall (fun v => gtb v zero = false) l -> leb (series_sum l) zero = true.
Proof.
  intros H. unfold series_sum.
  assert (Hacc : leb zero zero = true) by reflexivity.
  revert Hacc. generalize zero at 1 3. 
  induction H as [|v l Hv _ IH]; intros acc Hacc; cbn [filter fold_left];
    [exact Hacc|].
  destruct (is_nan v) eqn:En; cbn [negb]; [now apply IH|].
  cbn [fold_left]. apply IH. apply add_not_positive; [exact Hacc|].
  now apply not_positive_cases.
Qed.

(** a grand total above zero, or one that is nan, needs a positive credit *)
Lemma positive_credit_exists data :
  leb (total_in (grand_totals data)) zero = false -> credit_rows data <> [].
Proof.
  intros H E. cbn [grand_totals total_in] in H.
  rewrite series_sum_not_positive in H; [discriminate|].
  apply Forall_map, Forall_forall. intros t Ht.
  destruct (gtb (credit t) zero) eqn:Eg; [|reflexivity].
  assert (Hin : In t (credit_rows data)) by (apply filter_In; now split).
  rewrite E in Hin. destruct Hin.
Qed.

Lemma group_keys_nonempty rs : rs <> [] -> group_keys rs <> [].
Proof.
  destruct rs as [|t rs]; [congruence|]. intros _ E.
  assert (H : In (company t) (group_keys (t :: rs))).
  { apply group_keys_In. now left. }
  rewrite E in H. exact H.
Qed.

End RankingShape.

(** X5: a ranking has between one and five rows, as many as there are
    companies with a positive credit when these are fewer than five; the
    ranks are 1, 2, ... in order, the companies are distinct, and every row
    carries a positive inflow of a company that has a row with a positive
    credit. *)
Theorem ranking_shape (data : list Transaction) (t : totals)
        (ranking : list ranked_row) :
  analyse data = Ranked t ranking ->
  (1 <= length ranking <= 5)%nat
  /\ length ranking = Nat.min 5 (length (group_keys (credit_rows data)))
  /\ map rank ranking = seq 1 (length ranking)
  /\ NoDup (map row_company ranking)
  /\ Forall (fun r => PyFloat.gtb (inflow_amt r) PyFloat.zero = true
                      /\ In (row_company r) (map company (credit_rows data)))
            ranking.
Proof.
  intros H. apply analyse_ranked_inv in H. destruct H as (-> & Hpos & ->).
  cbn [total_in grand_totals] in *.
  rewrite assess_all_length, assess_all_rank, assess_all_companies, top5_length.
  pose proof (group_keys_nonempty _ (positive_credit_exists data Hpos)) as Hne.
  split; [|split; [reflexivity|split; [|split]]].
  - destruct (group_keys (credit_rows data)); [congruence|]. cbn [length]. lia.
  - reflexivity.
  - apply top5_names_distinct.
  - apply Forall_forall. intros r Hr. apply assess_all_entry, top5_In in Hr.
    destruct (group_sum_positive _ _ Hr) as (_ & Hin & Hp). now split.
Qed.

(** the two statements of one business, as an instance of X5 *)
Lemma ranking_shape_witness :
  exists t ranking,
    analyse (concat (load_tables [Returns statement_a; Returns statement_b]))
    = Ranked t ranking
    /\ map rank ranking = seq 1 (length ranking)
    /\ NoDup (map row_company ranking).
Proof.
  destruct (analyse (concat (load_tables [Returns statement_a; Returns statement_b])))
    as [| | |t ranking|] eqn:E; try (vm_compute in E; discriminate E).
  exists t, ranking. split; [reflexivity|].
  destruct (ranking_shape _ _ _ E) as (_ & _ & H1 & H2 & _). now split.
Defined.

(** ** The analysis: merged tables and files left out *)

Section MergedTables.

Import PyFloat.

Lemma series_sum_zeros l :
  Forall (fun v => v = zero) l -> series_sum l = zero.
Proof.
  unfold series_sum. induction 1 as [|v l -> _ IH]; [reflexivity|].
  cbn [filter is_nan negb zero of_Z fold_left]. fold zero.
  rewrite float_add_zero_l. exact IH.
Qed.

Lemma load_tables_app l1 l2 :
  load_tables (l1 ++ l2) = load_tables l1 ++ load_tables l2.
Proof.
  induction l1 as [|f l1 IH]; cbn [app load_tables]; [reflexivity|].
  destruct f as [df|e]; [destruct (load_table df)|]; cbn [app]; now rewrite IH.
Qed.

Lemma load_tables_left_out f : left_out f = true -> load_tables [f] = [].
Proof.
  destruct f as [df|e]; cbn [left_out load_tables]; [|reflexivity].
  now destruct (load_table df).
Qed.

Lemma loaded_headers_app l1 l2 :
  loaded_headers (l1 ++ l2) = loaded_headers l1 ++ loaded_headers l2.
Proof.
  induction l1 as [|f l1 IH]; cbn [app loaded_headers]; [reflexivity|].
  destruct f as [df|e]; [destruct (load_table df)|]; cbn [app]; now rewrite IH.
Qed.

Lemma loaded_headers_left_out f : left_out f = true -> loaded_headers [f] = [].
Proof.
  destruct f as [df|e]; cbn [left_out loaded_headers]; [|reflexivity].
  now destruct (load_table df).
Qed.

(** a header of distinct names holds no name more than once *)
Lemma distinct_not_repeated cols name :
  distinct cols = true -> repeated cols name = false.
Proof.
  unfold repeated. induction cols as [|c cols IH]; [reflexivity|].
  cbn [distinct count_occ]. intros H. apply andb_prop in H.
  destruct H as [Hc Hd]. specialize (IH Hd). apply Nat.ltb_ge in IH.
  destruct (string_dec c name) as [->|_]; [|now apply Nat.ltb_ge].
  apply negb_true_iff in Hc.
  assert (E : count_occ string_dec cols name = O).
  { apply count_occ_not_In. intros Hin.
    apply (set_mem_In name cols) in Hin. congruence. }
  now rewrite E.
Qed.

Lemma final_header_distinct cols :
  distinct cols = true -> distinct (final_header cols) = true.
Proof.
  unfold final_header, DERIVED. intros H.
  assert (G : forall extra,
             distinct extra = true ->
             forallb (fun name => negb (set_mem name cols)) extra = true ->
             distinct (cols ++ extra) = true).
  { intros extra He Hx. induction cols as [|c cols IH]; [exact He|].
    cbn [app distinct] in *. apply andb_prop in H. destruct H as [Hc Hd].
    apply andb_true_intro. split.
    - apply negb_true_iff. apply negb_true_iff in Hc.
      destruct (set_mem c (cols ++ extra)) eqn:E; [|reflexivity].
      apply set_mem_In, in_app_or in E. destruct E as [E|E].
      + apply set_mem_In in E. congruence.
      + rewrite forallb_forall in Hx. specialize (Hx c E).
        apply negb_true_iff in Hx.
        assert (Hc' : set_mem c (c :: cols) = true)
          by (apply set_mem_In; now left).
        congruence.
    - apply IH; [exact Hd|]. rewrite forallb_forall in *. intros x Hxin.
      specialize (Hx x Hxin). apply negb_true_iff in Hx.
      apply negb_true_iff.
      destruct (set_mem x cols) eqn:Ex; [|reflexivity].
      assert (Hc' : set_mem x (c :: cols) = true)
        by (apply set_mem_In; right; now apply set_mem_In).
      congruence. }
  apply G.
  - set (p := fun name => negb (set_mem name cols)).
    cbn [filter]. destruct (p "desc"), (p "credit"), (p "debit"), (p "company");
      reflexivity.
  - apply forallb_forall. intros x Hx. now apply filter_In in Hx.
Qed.

Lemma loaded_headers_distinct files :
  forallb distinct_headers files = true ->
  forallb distinct (loaded_headers files) = true.
Proof.
  induction files as [|f files IH]; cbn [forallb loaded_headers];
    [reflexivity|].
  intros H. apply andb_prop in H. destruct H as [Hf H].
  destruct f as [df|e]; [|now apply IH].
  destruct (load_table df); try now apply IH.
  cbn [forallb]. rewrite (IH H), andb_true_r.
  now apply final_header_distinct.
Qed.

Lemma distinct_never_repeated hs name :
  forallb distinct hs = true -> merged_repeats hs name = false.
Proof.
  unfold merged_repeats. induction hs as [|h hs IH]; [reflexivity|].
  cbn [forallb existsb]. intros H. apply andb_prop in H.
  destruct H as [Hh H]. now rewrite (distinct_not_repeated _ _ Hh), IH.
Qed.

Lemma amount_at_no_column cols row c :
  col_truthy c = false -> amount_at cols row c = zero.
Proof.
  destruct c as [[|a s]|]; cbn [col_truthy amount_at PyStr.truthy];
    [reflexivity | discriminate | reflexivity].
Qed.

Lemma load_table_no_credit df txns :
  has_credit_column (Returns df) = false -> load_table df = Appended txns ->
  Forall (fun t => credit t = zero) txns.
Proof.
  cbn [has_credit_column]. unfold load_table. intros Hc.
  destruct (resolve_desc _) as [dc|]; [|discriminate].
  destruct (PyStr.truthy dc); [|discriminate].
  destruct (derivation_raises _ _ _ _); [discriminate|]. intros [= <-].
  apply Forall_map, Forall_forall. intros row _. cbn [derive credit].
  now apply amount_at_no_column.
Qed.

Lemma load_tables_no_credit files :
  forallb (fun f => negb (has_credit_column f)) files = true ->
  Forall (fun t => credit t = zero) (concat (load_tables files)).
Proof.
  induction files as [|f files IH]; cbn [forallb load_tables concat];
    [constructor|].
  intros H. apply andb_prop in H. destruct H as [Hf H].
  destruct f as [df|e]; [|now apply IH].
  destruct (load_table df) as [| |txns] eqn:E; try now apply IH.
  cbn [concat]. apply Forall_app. split; [|now apply IH].
  apply (load_table_no_credit df); [|exact E].
  now apply negb_true_iff in Hf.
Qed.

End MergedTables.

(** X7: a selected file that cannot be read, or whose table has no
    description column, or whose derived columns cannot be built, changes
    nothing: the result is that of the other selected files, and "no valid
    data" when there is no other file. *)
Theorem left_out_file_is_ignored (l1 l2 : list (result DataFrame))
        (f : result DataFrame) :
  left_out f = true ->
  run_analysis (l1 ++ f :: l2)
  = match l1 ++ l2 with
    | [] => NoValidData
    | _ => run_analysis (l1 ++ l2)
    end.
Proof.
  intros Hf. unfold run_analysis, run_analysis_by.
  change (f :: l2) with ([f] ++ l2).
  rewrite !load_tables_app, !loaded_headers_app,
    (load_tables_left_out f Hf), (loaded_headers_left_out f Hf). cbn [app].
  destruct l1 as [|x l1]; cbn [app]; [|reflexivity].
  destruct l2 as [|y l2]; reflexivity.
Qed.

(** a file that cannot be read beside a statement, as an instance of X7 *)
Lemma left_out_file_is_ignored_witness :
  left_out (Raises ValueError) = true
  /\ run_analysis ([Returns statement_a] ++ Raises ValueError :: [Returns statement_b])
     = run_analysis ([Returns statement_a] ++ [Returns statement_b]).
Proof.
  split; [reflexivity|].
  exact (left_out_file_is_ignored [Returns statement_a] [Returns statement_b]
           (Raises ValueError) eq_refl).
Defined.

(** X8: when the header names of every table stay distinct after the strip
    and no selected file has a credit column, every credit is 0.0: the
    analysis stops with "no valid data" or with "no inflow" and a total
    inflow of zero; no ranking is made. *)
Theorem no_credit_column_no_inflow (files : list (result DataFrame)) :
  files <> [] ->
  forallb distinct_headers files = true ->
  forallb (fun f => negb (has_credit_column f)) files = true ->
  run_analysis files = NoValidData
  \/ exists t, run_analysis files = NoInflow t /\ total_in t = PyFloat.zero.
Proof.
  intros Hne Hd Hall. unfold run_analysis, run_analysis_by.
  destruct files as [|f files]; [congruence|].
  pose proof (load_tables_no_credit _ Hall) as Hz.
  apply loaded_headers_distinct in Hd.
  unfold concat_raises.
  rewrite !(distinct_never_repeated _ _ Hd), Hd, andb_false_r.
  cbn [orb].
  destruct (load_tables (f :: files)) as [|d ds]; [now left|]. right.
  assert (Ht : total_in (grand_totals (concat (d :: ds))) = PyFloat.zero).
  { cbn [grand_totals total_in]. apply series_sum_zeros, Forall_map, Hz. }
  exists (grand_totals (concat (d :: ds))). split; [|exact Ht].
  unfold analyse. now rewrite Ht.
Qed.

(** a statement that lists payments only, as an instance of X8 *)
Lemma no_credit_column_no_inflow_witness :
  exists t, run_analysis [Returns payments_only] = NoInflow t
            /\ total_in t = PyFloat.zero.
Proof.
  destruct (no_credit_column_no_inflow [Returns payments_only])
    as [H | H]; [discriminate | reflexivity | reflexivity | | exact H].
  vm_compute in H. discriminate H.
Defined.

(** a table whose credit column is selected by a name that the stripped
    header holds twice is reported and left out *)
Example repeated_credit_name_is_left_out :
  load_table twin_credit_table = Failed
  /\ run_analysis [Returns twin_credit_table] = NoValidData
  /\ run_analysis [Returns twin_credit_table; Returns payments_only]
     = run_analysis [Returns payments_only].
Proof. repeat split; reflexivity. Qed.

(** a table that holds a name twice outside the selected columns is
    analysed when it stands alone and cannot be merged with a table of
    another header: without distinct names the two outcomes of X8 are not
    the only ones *)
Example repeated_name_stops_the_merge :
  forallb (fun f => negb (has_credit_column f))
          [Returns twin_date_table; Returns payments_only] = true
  /\ (exists t, run_analysis [Returns twin_date_table] = NoInflow t)
  /\ run_analysis [Returns twin_date_table; Returns payments_only] = Uncaught
  /\ run_analysis [Returns payments_only; Returns twin_date_table] = Uncaught.
Proof.
  split; [reflexivity|]. split; [|split; reflexivity].
  destruct (run_analysis [Returns twin_date_table]) as [| |t| |] eqn:E;
    try (vm_compute in E; discriminate E).
  now exists t.
Qed.

(** ** The policy mapper: order of the actions, choice of the level *)

Section PolicyOrder.

Lemma filter_filter_and {A : Type} (p q : A -> bool) l :
  filter p (filter q l) = filter (fun x => q x && p x) l.
Proof.
  induction l as [|x l IH]; cbn [filter]; [reflexivity|].
  destruct (q x); cbn [filter andb]; [destruct (p x)|]; now rewrite IH.
Qed.

Lemma set_mem_snoc a l x :
  set_mem a (l ++ [x]) = set_mem a l || String.eqb a x.
Proof.
  unfold set_mem. rewrite existsb_app. cbn [existsb]. now rewrite orb_false_r.
Qed.

(** [seen] and [actions] hold the same texts *)
Lemma policy_step_seen st it :
  (forall a, set_mem a (seen st) = set_mem a (actions st)) ->
  forall a, set_mem a (seen (policy_step st it))
            = set_mem a (actions (policy_step st it)).
Proof.
  intros H a. unfold policy_step.
  destruct (set_mem (action it) (seen st)); cbn [seen actions]; [apply H|].
  rewrite set_mem_snoc, <- H. unfold set_mem. cbn [existsb]. apply orb_comm.
Qed.

Lemma fold_actions_spec items : forall st,
  (forall a, set_mem a (seen st) = set_mem a (actions st)) ->
  actions (fold_left policy_step items st)
  = actions st
    ++ filter (fun a => negb (set_mem a (actions st)))
              (first_seen_distinct (map action items)).
Proof.
  induction items as [|it items IH]; intros st H;
    cbn [fold_left map first_seen_distinct filter].
  - now rewrite app_nil_r.
  - rewrite (IH _ (policy_step_seen st it H)).
    rewrite filter_filter_and. unfold policy_step.
    destruct (set_mem (action it) (seen st)) eqn:E; cbn [actions].
    + rewrite <- H, E. cbn [negb]. f_equal. apply filter_ext. intros y.
      destruct (String.eqb y (action it)) eqn:Ey; [|reflexivity].
      apply String.eqb_eq in Ey. subst y. rewrite <- H, E. reflexivity.
    + rewrite <- H, E. cbn [negb]. rewrite <- app_assoc. cbn [app].
      do 2 f_equal. apply filter_ext. intros y.
      rewrite set_mem_snoc, negb_orb. apply andb_comm.
Qed.

Lemma policy_step_priority st it :
  priority_get (final_level (policy_step st it))
  = Nat.max (priority_get (final_level st)) (priority_get (action_level it)).
Proof.
  unfold policy_step. destruct (set_mem _ _); cbn [final_level];
    destruct (Nat.ltb_spec (priority_get (final_level st))
                           (priority_get (action_level it))); lia.
Qed.

Lemma fold_priority items : forall st,
  priority_get (final_level (fold_left policy_step items st))
  = Nat.max (priority_get (final_level st)) (max_priority items).
Proof.
  induction items as [|it items IH]; intros st; cbn [fold_left].
  - unfold max_priority. cbn [map fold_right]. lia.
  - rewrite IH, policy_step_priority. unfold max_priority.
    cbn [map fold_right]. lia.
Qed.

Lemma fold_level_origin items : forall st,
  final_level (fold_left policy_step items st) = final_level st
  \/ In (final_level (fold_left policy_step items st)) (map action_level items).
Proof.
  induction items as [|it items IH]; intros st; cbn [fold_left map In];
    [now left|].
  destruct (IH (policy_step st it)) as [E | Hin]; [|now right; right].
  rewrite E. destruct (policy_step_level st it) as [-> | ->];
    [now left | now right; left].
Qed.

Lemma max_priority_app l1 l2 :
  max_priority (l1 ++ l2) = Nat.max (max_priority l1) (max_priority l2).
Proof.
  unfold max_priority. induction l1 as [|it l1 IH]; cbn [app map fold_right];
    [reflexivity|].
  rewrite IH. lia.
Qed.

Lemma max_priority_Permutation l l' :
  Permutation l l' -> max_priority l = max_priority l'.
Proof.
  unfold max_priority.
  induction 1 as [| x l l' _ IH | x y l | l l' l'' _ IH1 _ IH2];
    cbn [map fold_right]; lia.
Qed.

Lemma max_priority_ge items it :
  In it items -> (priority_get (action_level it) <= max_priority items)%nat.
Proof.
  unfold max_priority. induction items as [|x items IH]; cbn [In map fold_right];
    [tauto|].
  intros [-> | H]; [lia | specialize (IH H); lia].
Qed.

(** the six levels have six different priorities *)
Lemma priority_get_injective a b :
  In a LEVELS -> In b LEVELS -> priority_get a = priority_get b -> a = b.
Proof.
  cbn. intros Ha Hb.
  repeat (destruct Ha as [<- | Ha]; [|]); try contradiction;
    repeat (destruct Hb as [<- | Hb]; [|]); try contradiction;
    cbn; intros E; first [reflexivity | discriminate E].
Qed.

Lemma policy_fold_level_known risk ids :
  In (final_level (policy_fold (policy_items risk ids))) LEVELS.
Proof.
  unfold policy_fold. apply fold_level_known; [apply standard_known|].
  apply policy_items_ok.
Qed.

Lemma policy_items_Permutation risk ids ids' :
  Permutation ids ids' ->
  Permutation (policy_items risk ids) (policy_items risk ids').
Proof.
  intros H. unfold policy_items. apply Permutation_app_tail.
  rewrite !collect_items_filter. apply Permutation_map, Permutation_filter, H.
Qed.

End PolicyOrder.

(** X9: the actions are the action texts of the matched matrix entries, the
    entry of the risk last, each text once, in the order of its first
    occurrence. *)
Theorem actions_by_first_occurrence (risk : string) (rule_ids : list string) :
  snd (build_policy_actions risk rule_ids)
  = PyStr.join " "
      (first_seen_distinct
         (map action (map matrix_at (filter in_matrix rule_ids) ++ [risk_item risk]))).
Proof.
  unfold build_policy_actions. cbn [snd]. f_equal.
  unfold policy_items, policy_fold. rewrite collect_items_filter.
  rewrite fold_actions_spec by reflexivity. cbn [actions app].
  apply filter_keeps_all. reflexivity.
Qed.

(** X10: the action level is the level of a matched entry, no matched entry
    has a level of higher priority, and the level does not depend on the
    order of the rule identifiers. *)
Theorem action_level_has_highest_priority (risk : string) (rule_ids : list string) :
  let items := policy_items risk rule_ids in
  let lvl := fst (build_policy_actions risk rule_ids) in
  In lvl (map action_level items)
  /\ Forall (fun it => (priority_get (action_level it) <= priority_get lvl)%nat)
            items
  /\ forall rule_ids', Permutation rule_ids rule_ids' ->
       fst (build_policy_actions risk rule_ids') = lvl.
Proof.
  cbv zeta. unfold build_policy_actions. cbn [fst].
  assert (Hp : forall ids,
             priority_get (final_level (policy_fold (policy_items risk ids)))
             = max_priority (policy_items risk ids)).
  { intros ids. unfold policy_fold. rewrite fold_priority. cbn. lia. }
  split; [|split].
  - pose proof (fold_level_origin (policy_items risk rule_ids)
                                  (mk_state "Standard" [] [])) as Ho.
    fold (policy_fold (policy_items risk rule_ids)) in Ho.
    destruct Ho as [E | H]; [|exact H]. cbn [final_level] in E.
    rewrite E. pose proof (Hp rule_ids) as H0. rewrite E in H0.
    unfold policy_items in *. rewrite max_priority_app in H0.
    rewrite map_app. apply in_or_app. right. cbn [map In]. left.
    unfold risk_item in *.
    destruct (String.eqb risk "High"); [cbn in H0; lia|].
    destruct (String.eqb risk "Medium"); [cbn in H0; lia|]. reflexivity.
  - apply Forall_forall. intros it Hit. rewrite Hp. now apply max_priority_ge.
  - intros ids' Hperm. apply priority_get_injective;
      try apply policy_fold_level_known.
    rewrite !Hp. symmetry.
    apply max_priority_Permutation, policy_items_Permutation, Hperm.
Qed.

(** two rules that fired, in either order, as an instance of X10 *)
Lemma action_level_has_highest_priority_witness :
  fst (build_policy_actions "Medium" ["ROUND_AMOUNT_PATTERN"; "INCOME_CONCENTRATION"])
  = fst (build_policy_actions "Medium" ["INCOME_CONCENTRATION"; "ROUND_AMOUNT_PATTERN"]).
Proof.
  apply (proj2 (proj2 (action_level_has_highest_priority
                         "Medium" ["INCOME_CONCENTRATION"; "ROUND_AMOUNT_PATTERN"]))).
  apply perm_swap.
Defined.

(** ** The monetary normalizer on amounts written with digits *)

Section Numerals.

Import PyStr PyFloat.
Local Open Scope string_scope.



Lemma str_forall_app p s1 s2 :
  str_forall p (s1 ++ s2) = str_forall p s1 && str_forall p s2.
Proof.
  induction s1 as [|c s1 IH]; cbn [append str_forall]; [reflexivity|].
  now rewrite IH, andb_assoc.
Qed.

Lemma str_forall_rev p s : str_forall p (rev s) = str_forall p s.
Proof.
  induction s as [|c s IH]; [reflexivity|].
  rewrite str_rev_cons, str_forall_app, IH. cbn [str_forall].
  rewrite andb_true_r. apply andb_comm.
Qed.

Lemma str_forall_impl (p q : ascii -> bool) s :
  (forall c, p c = true -> q c = true) ->
  str_forall p s = true -> str_forall q s = true.
Proof.
  intros Hpq. induction s as [|c s IH]; cbn [str_forall]; [reflexivity|].
  intros H. apply andb_prop in H. destruct H as [Hc Hs].
  now rewrite (Hpq c Hc), IH.
Qed.




















End Numerals.

Section Separators.

Import PyStr.
Local Open Scope string_scope.

Lemma remove_char_app x s1 s2 :
  remove_char x (s1 ++ s2) = remove_char x s1 ++ remove_char x s2.
Proof.
  induction s1 as [|c s1 IH]; cbn [append remove_char]; [reflexivity|].
  destruct (Ascii.eqb c x); cbn [append]; now rewrite IH.
Qed.

(** X12: commas are dropped wherever they stand: a text and the same text
    with a comma inserted anywhere are read as the same amount. *)
Theorem moneyfy_ignores_commas (s1 s2 : string) :
  moneyfy (PyStr (s1 ++ "," ++ s2)) = moneyfy (PyStr (s1 ++ s2)).
Proof.
  unfold moneyfy, moneyfy_try, cleaned. cbn [pd_isna py_str].
  now rewrite !remove_char_app.
Qed.

End Separators.

(** ** The industry classifier: longer narratives, letter case *)

Section Industries.

Import PyStr.
Local Open Scope string_scope.

Lemma map_chars_app f s1 s2 :
  map_chars f (s1 ++ s2) = map_chars f s1 ++ map_chars f s2.
Proof. induction s1 as [|c s1 IH]; cbn [append map_chars]; congruence. Qed.

Lemma startswith_app_r k s y :
  startswith k s = true -> startswith k (s ++ y) = true.
Proof.
  revert s. induction k as [|a k IH]; intros s; [reflexivity|].
  destruct s as [|b s]; cbn [startswith append]; [discriminate|].
  intros H. apply andb_true_iff in H. destruct H as [-> H]. now apply IH.
Qed.

Lemma contains_app_r k s y :
  contains k s = true -> contains k (s ++ y) = true.
Proof.
  induction s as [|b s IH].
  - cbn [contains]. rewrite orb_false_r. intros H.
    destruct k as [|a k]; [|discriminate H]. now destruct y.
  - cbn [contains append]. intros H. apply orb_true_iff in H.
    apply orb_true_iff. destruct H as [H | H]; [left | right; auto].
    now apply (startswith_app_r k (String b s) y).
Qed.

Lemma contains_app_left k x s :
  contains k s = true -> contains k (x ++ s) = true.
Proof.
  intros H. induction x as [|c x IH]; cbn [append]; [exact H|].
  cbn [contains]. rewrite IH. apply orb_true_r.
Qed.

Lemma contains_inside k x s y :
  contains k s = true -> contains k (x ++ s ++ y) = true.
Proof. intros H. now apply contains_app_left, contains_app_r. Qed.

Lemma lower_upper_char c : lower_char (upper_char c) = lower_char c.
Proof. destruct c as [[] [] [] [] [] [] [] []]; reflexivity. Qed.

Lemma lower_upper s : lower (upper s) = lower s.
Proof.
  unfold lower, upper. induction s as [|c s IH]; cbn [map_chars]; [reflexivity|].
  now rewrite IH, lower_upper_char.
Qed.

Lemma industries_in_In taxonomy s name :
  In name (industries_in taxonomy s)
  <-> exists kws, In (name, kws) taxonomy
                  /\ existsb (fun k => contains k s) kws = true.
Proof.
  unfold industries_in. rewrite in_map_iff. split.
  - intros ([n kws] & <- & H). apply filter_In in H. cbn [fst snd] in *.
    now exists kws.
  - intros (kws & Hin & H). exists (name, kws). split; [reflexivity|].
    apply filter_In. now split.
Qed.

Lemma industries_in_NoDup taxonomy s :
  NoDup (map fst taxonomy) -> NoDup (industries_in taxonomy s).
Proof.
  unfold industries_in. induction taxonomy as [|e taxonomy IH];
    cbn [map filter]; intros H; [constructor|].
  inversion H as [|? ? Hnot Hrest]; subst.
  destruct (existsb _ (snd e)); [|now apply IH].
  cbn [map]. constructor; [|now apply IH].
  intros Hin. apply Hnot. apply in_map_iff in Hin.
  destruct Hin as (e' & <- & He'). apply filter_In in He'.
  apply in_map. exact (proj1 He').
Qed.

End Industries.

(** X13: the industries found in a narrative are distinct names of the
    taxonomy; they are still found when text is put before and after the
    narrative, and when the narrative (ASCII text) is written in
    capitals.  So a narrative that holds a keyword of the base industry never counts as a
    mismatch, whatever else it says. *)
Theorem detect_other_industries_monotone (a d b : string) :
  NoDup (detect_other_industries (PyStr d))
  /\ incl (detect_other_industries (PyStr d)) (map fst INDUSTRY_KEYWORDS)
  /\ incl (detect_other_industries (PyStr d))
          (detect_other_industries (PyStr (a ++ d ++ b)%string))
  /\ detect_other_industries (PyStr (PyStr.upper d))
     = detect_other_industries (PyStr d)
  /\ (In BASE_INDUSTRY (detect_other_industries (PyStr d)) ->
      mismatch_loop [(a ++ d ++ b)%string] = false).
Proof.
  assert (Hincl : incl (detect_other_industries (PyStr d))
                       (detect_other_industries (PyStr (a ++ d ++ b)%string))).
  { cbn [detect_other_industries]. intros name H.
    apply industries_in_In in H. destruct H as (kws & Hin & H).
    apply industries_in_In. exists kws. split; [exact Hin|].
    apply existsb_exists in H. destruct H as (k & Hk & Hc).
    apply existsb_exists. exists k. split; [exact Hk|].
    unfold PyStr.lower. rewrite !map_chars_app. now apply contains_inside. }
  split; [|split; [|split; [exact Hincl|split]]].
  - cbn [detect_other_industries]. apply industries_in_NoDup.
    cbn. repeat constructor; cbn; intuition discriminate.
  - cbn [detect_other_industries]. intros name H.
    apply industries_in_In in H. destruct H as (kws & Hin & _).
    now apply (in_map fst) in Hin.
  - cbn [detect_other_industries]. now rewrite lower_upper.
  - intros H. apply Hincl in H. cbn [mismatch_loop].
    apply set_mem_In in H. rewrite H. cbn [negb]. now rewrite andb_false_r.
Qed.

(** a delivery of a bakery, as an instance of X13 *)
Lemma detect_other_industries_monotone_witness :
  In BASE_INDUSTRY (detect_other_industries (PyStr "bakery"))
  /\ mismatch_loop ["steel delivery to the bakery on Monday"] = false.
Proof.
  split; [vm_compute; left; reflexivity|].
  apply (proj2 (proj2 (proj2 (proj2
           (detect_other_industries_monotone
              "steel delivery to the " "bakery" " on Monday"))))).
  vm_compute. left. reflexivity.
Defined.

(** ** The file handlers and the popup *)

Section Handlers.

Import PyStr UI.
Local Open Scope string_scope.

Lemma truthy_nonempty f : truthy f = true -> f <> EmptyString.
Proof. destruct f; [discriminate | discriminate]. Qed.

Lemma file_step_invariant st e :
  NoDup (selected_files st) /\ Forall (fun f => f <> EmptyString) (selected_files st) ->
  NoDup (selected_files (file_step st e))
  /\ Forall (fun f => f <> EmptyString) (selected_files (file_step st e)).
Proof.
  intros [Hnd Hne]. destruct e as [f | f |]; cbn [file_step].
  - unfold choose_file. destruct (truthy f) eqn:E; [|now split].
    cbn [update_file_list selected_files]. split.
    + constructor; [intros [] | constructor].
    + constructor; [now apply truthy_nonempty | constructor].
  - unfold add_file. destruct (truthy f) eqn:E; cbn [andb]; [|now split].
    destruct (set_mem f (selected_files st)) eqn:Em; cbn [negb]; [now split|].
    cbn [update_file_list selected_files]. split.
    + apply NoDup_app; [exact Hnd | constructor; [intros [] | constructor] |].
      intros x Hx [<- | []]. apply set_mem_In in Hx. congruence.
    + apply Forall_app. split; [exact Hne|].
      constructor; [now apply truthy_nonempty | constructor].
  - cbn [reset_all selected_files]. split; constructor.
Qed.

Lemma popup_step_invariant st e :
  (windows st <= 1)%nat /\ (popup_open st = true <-> windows st = 1%nat) ->
  (windows (popup_step st e) <= 1)%nat
  /\ (popup_open (popup_step st e) = true <-> windows (popup_step st e) = 1%nat).
Proof.
  intros [Hle Hiff]. destruct st as [o w]. cbn [windows popup_open] in *.
  destruct e; cbn [popup_step].
  - unfold show_high_risk_popup. cbn [popup_open windows].
    destruct o; cbn [windows popup_open]; [now split|].
    assert (w = 0)%nat.
    { destruct w as [|[|w]]; [reflexivity | | lia].
      destruct Hiff as [_ H]. discriminate (H eq_refl). }
    subst w. split; [lia | tauto].
  - unfold close_popup. cbn [windows].
    destruct w as [|w]; cbn [windows popup_open]; [now split|].
    split; [lia|]. split; [discriminate | lia].
Qed.

End Handlers.

(** X14: whatever the user does with Choose File, Add More Files and Clear
    All, no path is selected twice and no selected path is empty. *)
Theorem selected_files_distinct (events : list UI.file_event) :
  let st := fold_left UI.file_step events UI.initial_files in
  NoDup (UI.selected_files st)
  /\ Forall (fun f => f <> EmptyString) (UI.selected_files st).
Proof.
  cbv zeta.
  assert (H : NoDup (UI.selected_files UI.initial_files)
              /\ Forall (fun f => f <> EmptyString)
                        (UI.selected_files UI.initial_files))
    by (split; constructor).
  revert H. generalize UI.initial_files.
  induction events as [|e events IH]; intros st H; cbn [fold_left]; [exact H|].
  apply IH, file_step_invariant, H.
Qed.

(** X15: whatever the order in which the popup is asked for and closed, at
    most one popup window exists, and the flag [_popup_open] is set exactly
    while one exists. *)
Theorem at_most_one_popup (events : list UI.popup_event) :
  let st := fold_left UI.popup_step events (UI.mk_popup false 0) in
  (UI.windows st <= 1)%nat
  /\ (UI.popup_open st = true <-> UI.windows st = 1%nat).
Proof.
  cbv zeta.
  assert (H : (UI.windows (UI.mk_popup false 0) <= 1)%nat
              /\ (UI.popup_open (UI.mk_popup false 0) = true
                  <-> UI.windows (UI.mk_popup false 0) = 1%nat)).
  { cbn. split; [lia|]. split; [discriminate | lia]. }
  revert H. generalize (UI.mk_popup false 0).
  induction events as [|e events IH]; intros st H; cbn [fold_left]; [exact H|].
  apply IH, popup_step_invariant, H.
Qed.

(** ** The counterparty extractor: shape of the company key *)

Section CompanyKey.

Import PyStr Regex.
Local Open Scope string_scope.

Lemma alpha_lower c : is_alpha c = is_lower (lower_char c).
Proof. destruct c as [[] [] [] [] [] [] [] []]; reflexivity. Qed.

Lemma blank_lower c : Ascii.eqb c " " = Ascii.eqb (lower_char c) " ".
Proof. destruct c as [[] [] [] [] [] [] [] []]; reflexivity. Qed.

Lemma alpha_not_space c : is_alpha c = true -> is_space c = false.
Proof.
  destruct c as [[] [] [] [] [] [] [] []]; intros H;
    try (vm_compute in H; discriminate H); reflexivity.
Qed.

Lemma class_upper_key c : in_class c = true -> key_char (upper_char c) = true.
Proof.
  destruct c as [[] [] [] [] [] [] [] []]; intros H;
    try (vm_compute in H; discriminate H); reflexivity.
Qed.

Lemma str_exists_app p s1 s2 :
  str_exists p (s1 ++ s2) = str_exists p s1 || str_exists p s2.
Proof.
  induction s1 as [|c s1 IH]; cbn [append str_exists]; [reflexivity|].
  now rewrite IH, orb_assoc.
Qed.

Lemma str_exists_nonempty p s : str_exists p s = true -> s <> EmptyString.
Proof. destruct s; [discriminate | discriminate]. Qed.

Lemma str_forall_not_exists (p q : ascii -> bool) s :
  (forall c, q c = true -> p c = false) ->
  str_forall p s = true -> str_exists q s = false.
Proof.
  intros Hpq. induction s as [|c s IH]; cbn [str_forall str_exists];
    [reflexivity|].
  intros H. apply andb_prop in H. destruct H as [Hc Hs]. rewrite (IH Hs).
  destruct (q c) eqn:E; [|reflexivity]. rewrite (Hpq c E) in Hc. discriminate.
Qed.

Lemma take_add k : forall n s, take (k + n) s = take k s ++ take n (drop k s).
Proof.
  induction k as [|k IH]; intros n s; cbn [Nat.add take drop append];
    [reflexivity|].
  destruct s as [|c s]; cbn [take drop append].
  - now destruct n.
  - now rewrite IH.
Qed.

Lemma take_class k : forall s,
  (k <= class_run s)%nat -> str_forall in_class (take k s) = true.
Proof.
  induction k as [|k IH]; intros s Hk; cbn [take]; [reflexivity|].
  destruct s as [|c s]; cbn [class_run] in Hk; [lia|].
  destruct (in_class c) eqn:Ec; [|lia].
  cbn [str_forall]. rewrite Ec, IH by lia. reflexivity.
Qed.

(** the text matched by a suffix literal: pattern characters, and a
    letter where the literal has one *)
Lemma literal_ci_class p : forall u,
  str_forall (fun c => is_alpha c || Ascii.eqb c " ") p = true ->
  literal_ci p u = true ->
  str_forall in_class (take (String.length p) u) = true
  /\ (head_ok (fun c => negb (is_alpha c)) p ->
      p <> EmptyString -> str_exists is_alpha (take (String.length p) u) = true).
Proof.
  induction p as [|a p IH]; intros u Hp Hu; cbn [String.length take].
  - split; [reflexivity | congruence].
  - destruct u as [|b u]; cbn [literal_ci] in Hu; [discriminate|].
    cbn [str_forall] in Hp. apply andb_prop in Hp, Hu.
    destruct Hp as [Ha Hp], Hu as [Hab Hu].
    destruct (IH u Hp Hu) as [IH1 _].
    apply Ascii.eqb_eq in Hab.
    assert (Hb : is_alpha b = is_alpha a)
      by (now rewrite (alpha_lower b), (alpha_lower a), Hab).
    assert (Hs : Ascii.eqb b " " = Ascii.eqb a " ")
      by (now rewrite (blank_lower b), (blank_lower a), Hab).
    cbn [str_forall str_exists]. rewrite IH1. split.
    + unfold in_class. rewrite Hb, Hs.
      apply orb_prop in Ha. destruct Ha as [-> | ->];
        rewrite ?orb_true_r; reflexivity.
    + intros Hh _. cbn [head_ok] in Hh. apply negb_false_iff in Hh.
      now rewrite Hb, Hh.
Qed.

Lemma SUFFIXES_letters :
  Forall (fun p => str_forall (fun c => is_alpha c || Ascii.eqb c " ") p = true
                   /\ head_ok (fun c => negb (is_alpha c)) p
                   /\ p <> EmptyString) SUFFIXES.
Proof. repeat constructor; discriminate. Qed.

Lemma alternation_In alts s n :
  alternation alts s = Some n ->
  exists p, In p alts /\ literal_ci p s = true /\ n = String.length p.
Proof.
  induction alts as [|p alts IH]; cbn [alternation]; [discriminate|].
  destruct (literal_ci p s) eqn:E.
  - intros [= <-]. exists p. repeat split; [now left | exact E].
  - intros H. destruct (IH H) as (q & Hq & Hl & Hn). exists q.
    repeat split; [now right | exact Hl | exact Hn].
Qed.

Lemma backtrack_class k : forall s g,
  (k <= class_run s)%nat -> backtrack k s = Some g ->
  str_forall in_class g = true /\ str_exists is_alpha g = true.
Proof.
  induction k as [|k IH]; intros s g Hk; cbn [backtrack]; [discriminate|].
  destruct (alternation SUFFIXES (drop (S k) s)) as [n|] eqn:E.
  - intros [= <-]. apply alternation_In in E.
    destruct E as (p & Hp & Hl & ->).
    pose proof (proj1 (Forall_forall _ _) SUFFIXES_letters p Hp)
      as (Hp1 & Hp2 & Hp3).
    destruct (literal_ci_class p _ Hp1 Hl) as [H1 H2].
    change (str_forall in_class (take (S k + String.length p) s) = true
            /\ str_exists is_alpha (take (S k + String.length p) s) = true).
    rewrite take_add, str_forall_app, str_exists_app.
    rewrite (take_class _ _ Hk), H1, (H2 Hp2 Hp3).
    split; [reflexivity | apply orb_true_r].
  - intros H. apply (IH s g); [lia | exact H].
Qed.

Lemma search_class s : forall g,
  search s = Some g ->
  str_forall in_class g = true /\ str_exists is_alpha g = true.
Proof.
  induction s as [|c s IH]; intros g; cbn [search].
  - destruct (match_here EmptyString) eqn:E; [|discriminate].
    unfold match_here in E. cbn in E. discriminate.
  - destruct (match_here (String c s)) as [g'|] eqn:E.
    + intros [= <-]. unfold match_here in E.
      now apply (backtrack_class _ _ _ (le_n _)) in E.
    + apply IH.
Qed.

Lemma collapse_class s : forall b,
  str_forall in_class s = true ->
  str_forall in_class (collapse_from b s) = true.
Proof.
  induction s as [|c s IH]; intros b; cbn [str_forall collapse_from];
    [reflexivity|].
  intros H. apply andb_prop in H. destruct H as [Hc Hs].
  destruct (is_space c); [destruct b|]; cbn [str_forall];
    rewrite ?Hc, ?IH by exact Hs; reflexivity.
Qed.

Lemma collapse_alpha s : forall b,
  str_exists is_alpha s = true ->
  str_exists is_alpha (collapse_from b s) = true.
Proof.
  induction s as [|c s IH]; intros b; cbn [str_exists collapse_from];
    [discriminate|].
  intros H. destruct (is_alpha c) eqn:Ec.
  - rewrite (alpha_not_space c Ec). cbn [str_exists]. now rewrite Ec.
  - cbn [orb] in H. destruct (is_space c); [destruct b|]; cbn [str_exists];
      rewrite ?Ec, (IH _ H); reflexivity.
Qed.

(** what is stripped from the left are characters of [sp] *)
Lemma lstrip_split sp s :
  exists w, s = w ++ lstrip_by sp s /\ str_forall sp w = true.
Proof.
  induction s as [|c s (w & IH & Hw)]; cbn [lstrip_by].
  - now exists EmptyString.
  - destruct (sp c) eqn:E.
    + exists (String c w). cbn [append str_forall]. rewrite E, Hw.
      split; [congruence | reflexivity].
    + now exists EmptyString.
Qed.

Lemma rstrip_split sp s :
  exists w, s = rstrip_by sp s ++ w /\ str_forall sp w = true.
Proof.
  unfold rstrip_by. destruct (lstrip_split sp (rev s)) as (w & Hw & Hsp).
  exists (rev w). split.
  - rewrite <- str_rev_app, <- Hw. now rewrite str_rev_involutive.
  - now rewrite str_forall_rev.
Qed.

Lemma strip_split sp s :
  exists w1 w2, s = w1 ++ strip_by sp s ++ w2
                /\ str_forall sp w1 = true /\ str_forall sp w2 = true.
Proof.
  unfold strip_by. destruct (lstrip_split sp s) as (w1 & H1 & Hw1).
  destruct (rstrip_split sp (lstrip_by sp s)) as (w2 & H2 & Hw2).
  exists w1, w2. split; [|now split]. now rewrite <- H2.
Qed.

Lemma strip_class s :
  str_forall in_class s = true -> str_exists is_alpha s = true ->
  str_forall in_class (strip s) = true /\ str_exists is_alpha (strip s) = true.
Proof.
  intros Hc Ha. unfold strip.
  destruct (strip_split is_space s) as (w1 & w2 & E & H1 & H2).
  rewrite E in Hc, Ha. rewrite !str_forall_app in Hc.
  rewrite !str_exists_app in Ha.
  rewrite (str_forall_not_exists is_space is_alpha w1 alpha_not_space H1) in Ha.
  rewrite (str_forall_not_exists is_space is_alpha w2 alpha_not_space H2) in Ha.
  rewrite orb_false_r in Ha. cbn [orb] in Ha.
  apply andb_prop in Hc. destruct Hc as [_ Hc]. apply andb_prop in Hc.
  now split.
Qed.

Lemma upper_key s :
  str_forall in_class s = true -> str_forall key_char (upper s) = true.
Proof.
  unfold upper. induction s as [|c s IH]; cbn [str_forall map_chars];
    [reflexivity|].
  intros H. apply andb_prop in H. destruct H as [Hc Hs].
  now rewrite (class_upper_key c Hc), IH.
Qed.

Lemma upper_nonempty s : s <> EmptyString -> upper s <> EmptyString.
Proof. destruct s; [congruence | discriminate]. Qed.

(** the tokens of the fallback: not empty, letters and digits only *)
Lemma split_acc_tokens q s : forall cur,
  str_forall q cur = true ->
  str_forall (fun c => is_space c || q c) s = true ->
  Forall (fun p => p <> EmptyString /\ str_forall q p = true) (split_acc s cur).
Proof.
  assert (Hrev : forall c cur, str_forall q (String c cur) = true ->
            rev (String c cur) <> EmptyString
            /\ str_forall q (rev (String c cur)) = true).
  { intros c cur H. split; [|now rewrite str_forall_rev].
    rewrite str_rev_cons. now destruct (rev cur). }
  induction s as [|c s IH]; intros cur Hcur Hs; cbn [split_acc].
  - destruct cur as [|c' cur]; constructor; [now apply Hrev | constructor].
  - cbn [str_forall] in Hs. apply andb_prop in Hs. destruct Hs as [Hc Hs].
    destruct (is_space c) eqn:E.
    + destruct cur as [|c' cur]; [now apply IH|].
      constructor; [now apply Hrev | now apply IH].
    + cbn [orb] in Hc. apply IH; [|exact Hs]. cbn [str_forall].
      now rewrite Hc, Hcur.
Qed.

Lemma blank_non_alnum_chars d :
  str_forall (fun c => is_space c || (is_alpha c || is_digit c))
             (blank_non_alnum d) = true.
Proof.
  unfold blank_non_alnum. induction d as [|c d IH]; cbn [map_chars str_forall];
    [reflexivity|].
  rewrite IH, andb_true_r.
  destruct (is_alpha c || is_digit c) eqn:E; cbn [orb];
    [rewrite E; apply orb_true_r|].
  destruct (Ascii.eqb_spec c " ") as [-> | _]; reflexivity.
Qed.

Lemma join_class parts :
  Forall (fun p => p <> EmptyString
                   /\ str_forall (fun c => is_alpha c || is_digit c) p = true) parts ->
  str_forall in_class (join " " parts) = true
  /\ (parts <> [] -> join " " parts <> EmptyString).
Proof.
  assert (Hq : forall p, str_forall (fun c => is_alpha c || is_digit c) p = true ->
                         str_forall in_class p = true).
  { intros p. apply str_forall_impl. intros c Hc. unfold in_class.
    now rewrite Hc. }
  induction 1 as [|p parts [Hne Hp] Hrest [IH1 IH2]]; cbn [join].
  - split; [reflexivity | congruence].
  - destruct parts as [|p' parts].
    + split; [now apply Hq | now intros _].
    + rewrite !str_forall_app, (Hq p Hp), IH1. split; [reflexivity|].
      intros _. destruct p; [congruence | discriminate].
Qed.

End CompanyKey.

(** X18: the company key is never empty and holds only capital letters,
    digits, blanks, ampersands, periods and hyphens, whatever the cell
    holds (ASCII text). *)
Theorem company_key_shape (x : pyobj) :
  get_counterparty x <> EmptyString
  /\ str_forall key_char (get_counterparty x) = true.
Proof.
  destruct x as [| |d|r]; try (split; [discriminate | reflexivity]).
  cbn [get_counterparty].
  destruct (Regex.search d) as [g|] eqn:E.
  - apply search_class in E. destruct E as [Hc Ha].
    pose proof (collapse_class g false Hc) as Hc'.
    pose proof (collapse_alpha g false Ha) as Ha'.
    destruct (strip_class _ Hc' Ha') as [Hc2 Ha2]. split.
    + apply upper_nonempty. exact (str_exists_nonempty _ _ Ha2).
    + now apply upper_key.
  - pose proof (split_acc_tokens (fun c => PyStr.is_alpha c || PyStr.is_digit c)
                  (Regex.blank_non_alnum d) EmptyString eq_refl
                  (blank_non_alnum_chars d)) as Htok.
    fold (PyStr.split (Regex.blank_non_alnum d)) in Htok.
    destruct (PyStr.split (Regex.blank_non_alnum d)) as [|p parts];
      [split; [discriminate | reflexivity]|].
    assert (H4 : Forall (fun p => p <> EmptyString
                  /\ str_forall (fun c => PyStr.is_alpha c || PyStr.is_digit c) p
                     = true) (firstn 4 (p :: parts))).
    { apply Forall_forall. intros y Hy. apply In_firstn in Hy.
      exact (proj1 (Forall_forall _ _) Htok y Hy). }
    destruct (join_class _ H4) as [Hc Hne]. split.
    + apply upper_nonempty, Hne. discriminate.
    + now apply upper_key.
Qed.

(** ** The counterparty extractor: letter case *)

Section LetterCase.

Import PyStr Regex.
Local Open Scope string_scope.

Lemma class_lower c : in_class (lower_char c) = in_class c.
Proof. destruct c as [[] [] [] [] [] [] [] []]; reflexivity. Qed.

Lemma lower_lower c : lower_char (lower_char c) = lower_char c.
Proof. destruct c as [[] [] [] [] [] [] [] []]; reflexivity. Qed.

Lemma space_lower c : is_space (lower_char c) = is_space c.
Proof. destruct c as [[] [] [] [] [] [] [] []]; reflexivity. Qed.

Lemma upper_lower_char c : upper_char (lower_char c) = upper_char c.
Proof. destruct c as [[] [] [] [] [] [] [] []]; reflexivity. Qed.

Lemma alnum_lower c :
  is_alpha (lower_char c) || is_digit (lower_char c) || Ascii.eqb (lower_char c) " "
  = is_alpha c || is_digit c || Ascii.eqb c " ".
Proof. destruct c as [[] [] [] [] [] [] [] []]; reflexivity. Qed.

Lemma lower_take k : forall s, lower (take k s) = take k (lower s).
Proof.
  unfold lower. induction k as [|k IH]; intros s; [reflexivity|].
  destruct s as [|c s]; cbn [take map_chars]; [reflexivity|]. now rewrite IH.
Qed.

Lemma lower_drop k : forall s, lower (drop k s) = drop k (lower s).
Proof.
  unfold lower. induction k as [|k IH]; intros s; [reflexivity|].
  destruct s as [|c s]; cbn [drop map_chars]; [reflexivity|]. apply IH.
Qed.

Lemma lower_rev s : lower (rev s) = rev (lower s).
Proof.
  unfold lower. induction s as [|c s IH]; [reflexivity|].
  cbn [map_chars]. rewrite !str_rev_cons, map_chars_app, IH. reflexivity.
Qed.

Lemma class_run_lower s : class_run (lower s) = class_run s.
Proof.
  unfold lower. induction s as [|c s IH]; cbn [map_chars class_run];
    [reflexivity|].
  now rewrite class_lower, IH.
Qed.

Lemma literal_ci_lower p : forall s, literal_ci p (lower s) = literal_ci p s.
Proof.
  unfold lower. induction p as [|a p IH]; intros s; [reflexivity|].
  destruct s as [|b s]; cbn [map_chars literal_ci]; [reflexivity|].
  now rewrite lower_lower, IH.
Qed.

Lemma alternation_lower alts s :
  alternation alts (lower s) = alternation alts s.
Proof.
  induction alts as [|p alts IH]; cbn [alternation]; [reflexivity|].
  now rewrite literal_ci_lower, IH.
Qed.

Lemma backtrack_lower k : forall s,
  backtrack k (lower s) = option_map lower (backtrack k s).
Proof.
  induction k as [|k IH]; intros s; cbn [backtrack]; [reflexivity|].
  rewrite <- lower_drop, alternation_lower.
  destruct (alternation SUFFIXES (drop (S k) s)) as [n|]; [|apply IH].
  cbn [option_map]. f_equal. symmetry. apply (lower_take (S k + n)).
Qed.

Lemma search_lower s : search (lower s) = option_map lower (search s).
Proof.
  induction s as [|c s IH].
  - reflexivity.
  - change (lower (String c s)) with (String (lower_char c) (lower s)).
    cbn [search].
    change (String (lower_char c) (lower s)) with (lower (String c s)).
    unfold match_here. rewrite class_run_lower, backtrack_lower.
    destruct (backtrack (class_run (String c s)) (String c s)) as [g|];
      [reflexivity | exact IH].
Qed.

Lemma collapse_lower s : forall b,
  collapse_from b (lower s) = lower (collapse_from b s).
Proof.
  unfold lower. induction s as [|c s IH]; intros b;
    cbn [map_chars collapse_from]; [reflexivity|].
  rewrite space_lower.
  destruct (is_space c); [destruct b|]; cbn [map_chars]; now rewrite IH.
Qed.

Lemma lstrip_lower s :
  lstrip_by is_space (lower s) = lower (lstrip_by is_space s).
Proof.
  unfold lower. induction s as [|c s IH]; cbn [map_chars lstrip_by];
    [reflexivity|].
  rewrite space_lower. destruct (is_space c); [exact IH | reflexivity].
Qed.

Lemma strip_lower s : strip (lower s) = lower (strip s).
Proof.
  unfold strip, strip_by, rstrip_by.
  now rewrite lstrip_lower, <- lower_rev, lstrip_lower, lower_rev.
Qed.

Lemma upper_of_lower s : upper (lower s) = upper s.
Proof.
  unfold upper, lower. induction s as [|c s IH]; cbn [map_chars]; [reflexivity|].
  now rewrite upper_lower_char, IH.
Qed.

Lemma blank_non_alnum_lower s :
  blank_non_alnum (lower s) = lower (blank_non_alnum s).
Proof.
  unfold blank_non_alnum, lower.
  induction s as [|c s IH]; cbn [map_chars]; [reflexivity|].
  rewrite IH, alnum_lower.
  now destruct (is_alpha c || is_digit c || Ascii.eqb c " ").
Qed.

Lemma split_acc_lower s : forall cur,
  split_acc (lower s) (lower cur) = map lower (split_acc s cur).
Proof.
  induction s as [|c s IH]; intros cur.
  - cbn [lower map_chars split_acc].
    destruct cur as [|c' cur]; [reflexivity|].
    change (String (lower_char c') (map_chars lower_char cur))
      with (lower (String c' cur)).
    cbn [map]. now rewrite lower_rev.
  - change (lower (String c s)) with (String (lower_char c) (lower s)).
    cbn [split_acc]. rewrite space_lower. destruct (is_space c).
    + destruct cur as [|c' cur].
      * exact (IH EmptyString).
      * change (lower (String c' cur))
          with (String (lower_char c') (lower cur)).
        cbv iota.
        change (String (lower_char c') (lower cur)) with (lower (String c' cur)).
        cbn [map]. now rewrite lower_rev, <- (IH EmptyString).
    + exact (IH (String c cur)).
Qed.

Lemma join_lower parts :
  join " " (map lower parts) = lower (join " " parts).
Proof.
  induction parts as [|p parts IH]; [reflexivity|].
  destruct parts as [|p' parts]; [reflexivity|].
  change (join " " (map lower (p :: p' :: parts)))
    with (lower p ++ " " ++ join " " (map lower (p' :: parts))).
  change (join " " (p :: p' :: parts))
    with (p ++ " " ++ join " " (p' :: parts)).
  rewrite IH. unfold lower. now rewrite !map_chars_app.
Qed.

Lemma get_counterparty_lower d :
  get_counterparty (PyStr (lower d)) = get_counterparty (PyStr d).
Proof.
  cbn [get_counterparty]. rewrite search_lower.
  destruct (search d) as [g|]; cbn [option_map].
  - unfold collapse_spaces.
    now rewrite collapse_lower, strip_lower, upper_of_lower.
  - rewrite blank_non_alnum_lower. unfold split.
    change (split_acc (lower (blank_non_alnum d)) EmptyString)
      with (split_acc (lower (blank_non_alnum d)) (lower EmptyString)).
    rewrite (split_acc_lower (blank_non_alnum d) EmptyString).
    destruct (split_acc (blank_non_alnum d) EmptyString) as [|p parts];
      [reflexivity|].
    cbn [map]. change (lower p :: map lower parts) with (map lower (p :: parts)).
    now rewrite firstn_map, join_lower, upper_of_lower.
Qed.

End LetterCase.

(** X19: the company key does not depend on letter case: two narratives
    that differ only in the case of their letters give the same key, so
    their rows fall into the same group (ASCII text). *)
Theorem company_key_ignores_case (d1 d2 : string) :
  PyStr.lower d1 = PyStr.lower d2 ->
  get_counterparty (PyStr d1) = get_counterparty (PyStr d2).
Proof.
  intros H. rewrite <- (get_counterparty_lower d1), H.
  apply get_counterparty_lower.
Qed.

(** one payer written in two ways, as an instance of X19 *)
Lemma company_key_ignores_case_witness :
  get_counterparty (PyStr "Acme Trading Sdn Bhd ref 7")
  = get_counterparty (PyStr "ACME TRADING SDN BHD REF 7").
Proof. apply company_key_ignores_case. reflexivity. Defined.

(** ** The file list: the name shown for a path *)

Section FileName.

Import PyStr UI.
Local Open Scope string_scope.

Lemma split_on_acc_nonempty sep s : forall cur, split_on_acc sep s cur <> [].
Proof.
  induction s as [|c s IH]; intros cur; cbn [split_on_acc]; [discriminate|].
  destruct (Ascii.eqb c sep); [discriminate | apply IH].
Qed.

Lemma py_last_cons x l : l <> [] -> py_last (x :: l) = py_last l.
Proof. unfold py_last. destruct l; [congruence | reflexivity]. Qed.

(** the last piece of a split: what follows the last separator *)
Lemma split_on_last sep s : forall cur,
  str_forall (fun c => negb (Ascii.eqb c sep)) cur = true ->
  exists pre,
    rev cur ++ s = pre ++ py_last (split_on_acc sep s cur)
    /\ str_forall (fun c => negb (Ascii.eqb c sep))
                  (py_last (split_on_acc sep s cur)) = true
    /\ (pre = EmptyString \/ exists p, pre = p ++ String sep EmptyString).
Proof.
  induction s as [|c s IH]; intros cur Hcur; cbn [split_on_acc].
  - exists EmptyString. cbn [py_last List.last append].
    rewrite str_append_nil_r, str_forall_rev. auto.
  - destruct (Ascii.eqb c sep) eqn:E.
    + apply Ascii.eqb_eq in E. subst c.
      rewrite py_last_cons by apply split_on_acc_nonempty.
      destruct (IH EmptyString eq_refl) as (pre & Hs & Hl & Hp).
      cbn [rev rev_acc append] in Hs.
      exists (rev cur ++ String sep pre). split; [|split; [exact Hl|]].
      * rewrite str_append_assoc. cbn [append]. now rewrite <- Hs.
      * right. destruct Hp as [-> | (p & ->)].
        -- now exists (rev cur).
        -- exists (rev cur ++ String sep p).
           rewrite str_append_assoc. reflexivity.
    + destruct (IH (String c cur)) as (pre & Hs & Hl & Hp).
      { cbn [str_forall]. now rewrite E, Hcur. }
      exists pre. split; [|now split].
      rewrite <- Hs, str_rev_cons, str_append_assoc. reflexivity.
Qed.

Lemma split_on_last_piece sep s :
  exists pre,
    s = pre ++ py_last (split_on sep s)
    /\ str_forall (fun c => negb (Ascii.eqb c sep)) (py_last (split_on sep s)) = true
    /\ (pre = EmptyString \/ exists p, pre = p ++ String sep EmptyString).
Proof. exact (split_on_last sep s EmptyString eq_refl). Qed.

End FileName.

(** X20: the name shown for a selected path is the part of the path after
    its last slash or backslash: the path ends with the name, the name holds
    neither character, and what stands before it is empty or ends with one
    of the two. *)
Theorem file_name_is_last_component (path : string) :
  exists prefix,
    path = (prefix ++ UI.file_name path)%string
    /\ str_forall name_char (UI.file_name path) = true
    /\ (prefix = EmptyString
        \/ exists p, prefix = (p ++ "/")%string \/ prefix = (p ++ "\")%string).
Proof.
  unfold UI.file_name.
  destruct (split_on_last_piece "/" path) as (pre1 & H1 & Hn1 & Hp1).
  set (x1 := UI.py_last (UI.split_on "/" path)) in *.
  destruct (split_on_last_piece "\" x1) as (pre2 & H2 & Hn2 & Hp2).
  set (x2 := UI.py_last (UI.split_on "\" x1)) in *.
  exists (pre1 ++ pre2)%string. split; [|split].
  - rewrite str_append_assoc, <- H2. exact H1.
  - rewrite H2, str_forall_app in Hn1. apply andb_prop in Hn1.
    destruct Hn1 as [_ Hn1]. unfold name_char.
    clear -Hn1 Hn2. induction x2 as [|c x2 IH]; [reflexivity|].
    cbn [str_forall] in *. apply andb_prop in Hn1, Hn2.
    destruct Hn1 as [-> Hn1], Hn2 as [-> Hn2]. cbn [andb]. now apply IH.
  - destruct Hp2 as [-> | (p & ->)].
    + rewrite str_append_nil_r.
      destruct Hp1 as [-> | (p & ->)]; [now left | right; exists p; now left].
    + right. exists (pre1 ++ p)%string. right. now rewrite str_append_assoc.
Qed.

(** ** The analysis: the reason beside the rating *)

Section Outcomes.

Lemma assess_reason data t i e :
  let r := assess data t i e in
  reason r <> EmptyString
  /\ (risk r = "Safe" <-> reason r = "No unusual patterns detected")
  /\ (risk r = "High" <-> PyStr.contains "; " (reason r) = true).
Proof.
  unfold assess, detect_rules.
  destruct (PyFloat.geb _ _), (mismatch_loop _), (round_pattern _);
    vm_compute; (split; [discriminate|]); split; split;
    first [reflexivity | discriminate].
Qed.

End Outcomes.

(** X22: in every ranking the reason is not empty; a row is rated Safe
    exactly when its reason reads "No unusual patterns detected", and High
    exactly when its reason lists several flags, joined by "; ". *)
Theorem reason_matches_rating (files : list (result DataFrame)) (t : totals)
        (ranking : list ranked_row) :
  run_analysis files = Ranked t ranking ->
  Forall (fun r =>
            reason r <> EmptyString
            /\ (risk r = "Safe" <-> reason r = "No unusual patterns detected")
            /\ (risk r = "High" <-> PyStr.contains "; " (reason r) = true))
         ranking.
Proof.
  intros H. apply run_analysis_ranked in H. destruct H as [data H].
  apply analyse_ranked_inv in H. destruct H as (_ & _ & ->).
  apply Forall_forall. intros r Hr. apply assess_all_In in Hr.
  destruct Hr as (j & e & ->). apply assess_reason.
Qed.

(** the two statements of one business, as an instance of X22 *)
Lemma reason_matches_rating_witness :
  exists t ranking,
    run_analysis [Returns statement_a; Returns statement_b] = Ranked t ranking
    /\ Forall (fun r => reason r <> EmptyString) ranking.
Proof.
  destruct (run_analysis [Returns statement_a; Returns statement_b])
    as [| | |t ranking|] eqn:E; try (vm_compute in E; discriminate E).
  exists t, ranking. split; [reflexivity|].
  eapply Forall_impl; [|exact (reason_matches_rating _ _ _ E)].
  intros r (H & _). exact H.
Defined.
